(** * Offline SCORM player: CMI tree codec, session commits and the sync queue

    A shallow embedding of [src/services/scorm-api.js],
    [src/services/offline-sync.js] and the prepared statements of
    [src/models/database.js], followed by the properties the
    specification states about them.

    Conventions of the embedding.
    - A JavaScript string is a [string] whose characters are UTF-16 code
      units below 256.
    - A JavaScript number is modelled on the integers ([Z]): the
      integer-valued doubles of magnitude at most 2^53.  [String(n)] is
      decimal notation there.
    - An object is an ordered list of own enumerable properties, in the
      order [Object.entries] lists them: array-index keys ascending, then
      the other keys in creation order.  An array is an object tagged
      [Array]; its elements are the properties whose key is an array
      index.
    - Where the outcome of the source depends on members of the built-in
      prototypes ([constructor], [__proto__], [length], ...) the
      embedding stops with [OutOfModel] instead of guessing. *)

From Stdlib Require Import ZArith List String Ascii Bool Lia Arith.
From Stdlib Require Import DecimalString Permutation.
From Stdlib Require DecimalFacts DecimalPos.
Import ListNotations.

Local Open Scope string_scope.
Local Open Scope list_scope.
Local Open Scope Z_scope.

(* ================================================================== *)
(** * The JavaScript fragment the services rely on                     *)
(* ================================================================== *)

Module JS.

(** ** Values *)

Inductive prim : Type :=
| PUndefined
| PNull
| PBool (b : bool)
| PNum (n : Z)
| PStr (s : string).

Inductive kind : Type := Plain | Array.

#[local] Set Warnings "-register-all".
Inductive value : Type :=
| VPrim (p : prim)
| VObj (k : kind) (props : list (string * value)).

Definition undefined : value := VPrim PUndefined.
Definition null : value := VPrim PNull.
Definition str (s : string) : value := VPrim (PStr s).
Definition num (n : Z) : value := VPrim (PNum n).
Definition boolean (b : bool) : value := VPrim (PBool b).
Definition obj (props : list (string * value)) : value := VObj Plain props.
Definition arr (props : list (string * value)) : value := VObj Array props.

(** [{}] and [[]]. *)
Definition empty_object : value := VObj Plain [].
Definition empty_array : value := VObj Array [].

(** Errors a call can raise.  [Wrapped p e] is
    [new Error(`${p}: ${e.message}`)]. *)
Inductive js_error : Type :=
| TypeError
| SyntaxError
| Error (message : string)
| Wrapped (prefix : string) (cause : js_error).

Inductive result (A : Type) : Type :=
| Ok (a : A)
| Throw (e : js_error)
| OutOfModel.
Arguments Ok {A} a.
Arguments Throw {A} e.
Arguments OutOfModel {A}.

Definition bind {A B : Type} (r : result A) (f : A -> result B) : result B :=
  match r with
  | Ok a => f a
  | Throw e => Throw e
  | OutOfModel => OutOfModel
  end.

Definition is_ok {A : Type} (r : result A) : bool :=
  match r with Ok _ => true | _ => false end.

(** ** Truthiness and [String] *)

Definition truthy_prim (p : prim) : bool :=
  match p with
  | PUndefined | PNull => false
  | PBool b => b
  | PNum n => negb (n =? 0)
  | PStr s => negb (String.eqb s "")
  end.

Definition truthy (v : value) : bool :=
  match v with
  | VPrim p => truthy_prim p
  | VObj _ _ => true
  end.

(** [Array.isArray(v)] *)
Definition isArray (v : value) : bool :=
  match v with
  | VObj Array _ => true
  | _ => false
  end.

(** Decimal notation of an integer. *)
Definition Z_to_string (z : Z) : string :=
  NilZero.string_of_int (Z.to_int z).

(** [String(p)] on a primitive. *)
Definition String_ (p : prim) : string :=
  match p with
  | PUndefined => "undefined"
  | PNull => "null"
  | PBool true => "true"
  | PBool false => "false"
  | PNum n => Z_to_string n
  | PStr s => s
  end.

(** ** Strings: [split('.')] and template joins *)

Definition dot : ascii := "."%char.

(** [s.split(sep)] for a one-character separator. *)
Fixpoint split (sep : ascii) (s : string) : list string :=
  match s with
  | EmptyString => [EmptyString]
  | String c s' =>
      if Ascii.eqb c sep then EmptyString :: split sep s'
      else match split sep s' with
           | [] => [String c EmptyString]
           | w :: ws => String c w :: ws
           end
  end.

(** Whether the character occurs in the string. *)
Fixpoint contains (c : ascii) (s : string) : bool :=
  match s with
  | EmptyString => false
  | String c' s' => Ascii.eqb c' c || contains c s'
  end.

(** [`${a}.${b}`] *)
Definition dotted (a b : string) : string := a ++ String dot b.

(** ** [Number(s)] and [parseInt(s)] on strings *)

(** The code unit of a character. *)
Definition code (c : ascii) : nat := nat_of_ascii c.

(** White space and line terminators below 256. *)
Definition is_ws (c : ascii) : bool :=
  let n := code c in
  ((n =? 9) || (n =? 10) || (n =? 11) || (n =? 12) || (n =? 13)
   || (n =? 32) || (n =? 160))%nat.

Definition is_digit (c : ascii) : bool :=
  let n := code c in ((48 <=? n) && (n <=? 57))%nat.

Definition digit_value (radix : Z) (c : ascii) : option Z :=
  let n := Z.of_nat (code c) in
  let d := if (48 <=? n) && (n <=? 57) then Some (n - 48)
           else if (97 <=? n) && (n <=? 122) then Some (n - 87)
           else if (65 <=? n) && (n <=? 90) then Some (n - 55)
           else None in
  match d with
  | Some x => if x <? radix then Some x else None
  | None => None
  end.

Fixpoint drop_ws (l : list ascii) : list ascii :=
  match l with
  | c :: l' => if is_ws c then drop_ws l' else l
  | [] => []
  end.

Definition trim (l : list ascii) : list ascii :=
  rev (drop_ws (rev (drop_ws l))).

Fixpoint drop_digits (l : list ascii) : list ascii :=
  match l with
  | c :: l' => if is_digit c then drop_digits l' else l
  | [] => []
  end.

Definition starts_with_digit (l : list ascii) : bool :=
  match l with
  | c :: _ => is_digit c
  | [] => false
  end.

Definition is_nil {A : Type} (l : list A) : bool :=
  match l with [] => true | _ => false end.

Definition is_sign (c : ascii) : bool :=
  Ascii.eqb c "+"%char || Ascii.eqb c "-"%char.

Definition drop_sign (l : list ascii) : list ascii :=
  match l with
  | c :: l' => if is_sign c then l' else l
  | [] => []
  end.

(** What may follow the mantissa: nothing, or an exponent part. *)
Definition exponent_part (l : list ascii) : bool :=
  match l with
  | [] => true
  | e :: l1 =>
      if Ascii.eqb e "e"%char || Ascii.eqb e "E"%char then
        let l2 := drop_sign l1 in
        starts_with_digit l2 && is_nil (drop_digits l2)
      else false
  end.

(** StrUnsignedDecimalLiteral. *)
Definition unsigned_decimal (l : list ascii) : bool :=
  if String.eqb (string_of_list_ascii l) "Infinity" then true
  else if starts_with_digit l then
    match drop_digits l with
    | c :: l2 =>
        if Ascii.eqb c dot then exponent_part (drop_digits l2)
        else exponent_part (c :: l2)
    | [] => true
    end
  else
    match l with
    | c :: l2 =>
        Ascii.eqb c dot && starts_with_digit l2
        && exponent_part (drop_digits l2)
    | [] => false
    end.

Fixpoint all_digits_in (radix : Z) (l : list ascii) : bool :=
  match l with
  | [] => true
  | c :: l' =>
      match digit_value radix c with
      | Some _ => all_digits_in radix l'
      | None => false
      end
  end.

(** [0x..], [0o..], [0b..] literals (no sign allowed). *)
Definition radix_literal (l : list ascii) : bool :=
  match l with
  | z :: x :: (_ :: _) as ds =>
      Ascii.eqb z "0"%char &&
      (if Ascii.eqb x "x"%char || Ascii.eqb x "X"%char then all_digits_in 16 ds
       else if Ascii.eqb x "o"%char || Ascii.eqb x "O"%char then all_digits_in 8 ds
       else if Ascii.eqb x "b"%char || Ascii.eqb x "B"%char then all_digits_in 2 ds
       else false)
  | _ => false
  end.

(** [isNaN(s)] for a string [s]: whether [Number(s)] is [NaN]. *)
Definition isNaN (s : string) : bool :=
  let t := trim (list_ascii_of_string s) in
  if is_nil t then false
  else if radix_literal t then false
  else negb (unsigned_decimal (drop_sign t)).

(** Longest prefix of digits of the radix, folded into a number;
    [None] when there is no digit. *)
Fixpoint digits_prefix (radix : Z) (acc : option Z) (l : list ascii) : option Z :=
  match l with
  | [] => acc
  | c :: l' =>
      match digit_value radix c with
      | Some d =>
          digits_prefix radix
            (Some (match acc with Some a => a * radix + d | None => d end)) l'
      | None => acc
      end
  end.

(** [parseInt(s)] with no radix argument; [None] is [NaN]. *)
Definition parseInt (s : string) : option Z :=
  let t := drop_ws (list_ascii_of_string s) in
  let negative := match t with c :: _ => Ascii.eqb c "-"%char | [] => false end in
  let t1 := drop_sign t in
  let hex := match t1 with
             | z :: x :: _ =>
                 Ascii.eqb z "0"%char
                 && (Ascii.eqb x "x"%char || Ascii.eqb x "X"%char)
             | _ => false
             end in
  let r := if hex then digits_prefix 16 None (skipn 2 t1)
           else digits_prefix 10 None t1 in
  match r with
  | Some n => Some (if negative then - n else n)
  | None => None
  end.

Definition max_safe : Z := 9007199254740992.

(** The property key [ToString(index)] of a number produced by
    [parseInt]. *)
Definition index_key (index : option Z) : result string :=
  match index with
  | None => Ok "NaN"
  | Some n =>
      if Z.abs n <=? max_safe then Ok (Z_to_string n) else OutOfModel
  end.

(** ** Property keys and own properties *)

Fixpoint all_digits (l : list ascii) : bool :=
  match l with
  | [] => true
  | c :: l' => is_digit c && all_digits l'
  end.

(** A canonical array index: decimal digits without a leading zero,
    below 2^32 - 1. *)
Definition array_index (k : string) : option Z :=
  let l := list_ascii_of_string k in
  match l with
  | [] => None
  | c :: l' =>
      if all_digits l && (negb (Ascii.eqb c "0"%char) || is_nil l') then
        match digits_prefix 10 None l with
        | Some n => if n <? 4294967295 then Some n else None
        | None => None
        end
      else None
  end.

Fixpoint lookup (k : string) (props : list (string * value)) : option value :=
  match props with
  | [] => None
  | (k', v) :: ps => if String.eqb k k' then Some v else lookup k ps
  end.

Definition has_key (k : string) (props : list (string * value)) : bool :=
  match lookup k props with Some _ => true | None => false end.

Fixpoint replace_prop (k : string) (v : value) (props : list (string * value))
  : list (string * value) :=
  match props with
  | [] => []
  | (k', v') :: ps =>
      if String.eqb k k' then (k, v) :: ps
      else (k', v') :: replace_prop k v ps
  end.

Fixpoint insert_index (n : Z) (k : string) (v : value)
         (props : list (string * value)) : list (string * value) :=
  match props with
  | [] => [(k, v)]
  | (k', v') :: ps =>
      match array_index k' with
      | Some m => if m <? n then (k', v') :: insert_index n k v ps
                  else (k, v) :: props
      | None => (k, v) :: props
      end
  end.

(** [o[k] = v] on the own properties of [o]. *)
Definition define_prop (k : string) (v : value) (props : list (string * value))
  : list (string * value) :=
  if has_key k props then replace_prop k v props
  else match array_index k with
       | Some n => insert_index n k v props
       | None => props ++ [(k, v)]
       end.

(** Own property read: [undefined] when absent. *)
Definition get_own (k : string) (props : list (string * value)) : value :=
  match lookup k props with
  | Some v => v
  | None => undefined
  end.

(** Names every object inherits from [Object.prototype]. *)
Definition object_prototype_names : list string :=
  [ "constructor"; "__proto__"; "hasOwnProperty"; "isPrototypeOf";
    "propertyIsEnumerable"; "toLocaleString"; "toString"; "valueOf";
    "__defineGetter__"; "__defineSetter__"; "__lookupGetter__";
    "__lookupSetter__" ].

Definition inherited_name (k : string) : bool :=
  existsb (String.eqb k) object_prototype_names.

(** [v.k] and [v?.k] for a key [k] that no built-in prototype
    defines (the field names the services spell out):
    the own property of an object, [undefined] on a primitive;
    [v.k] raises on [null] and [undefined], [v?.k] gives [undefined]. *)
Definition field (v : value) (k : string) : result value :=
  match v with
  | VObj _ props => Ok (get_own k props)
  | VPrim PUndefined | VPrim PNull => Throw TypeError
  | VPrim _ => Ok undefined
  end.

Definition opt_field (v : value) (k : string) : value :=
  match v with
  | VObj _ props => get_own k props
  | VPrim _ => undefined
  end.

(** [a || b] *)
Definition or_else (a b : value) : value := if truthy a then a else b.

(** [current[lastKey] = v] in strict mode. *)
Definition assign_prop (current : value) (lastKey : string) (v : value) : result value :=
  match current with
  | VObj k props =>
      if String.eqb lastKey "__proto__" then OutOfModel
      else if isArray current && String.eqb lastKey "length" then OutOfModel
      else Ok (VObj k (define_prop lastKey v props))
  | VPrim PUndefined | VPrim PNull => Throw TypeError
  | VPrim _ =>
      if String.eqb lastKey "__proto__" then OutOfModel else Throw TypeError
  end.

(** [current[key]] for a key that is not numeric. *)
Definition read_prop (current : value) (key : string) : result value :=
  match current with
  | VObj Plain props =>
      match lookup key props with
      | Some x => Ok x
      | None => if inherited_name key then OutOfModel else Ok undefined
      end
  | VObj Array props =>
      match lookup key props with
      | Some x => Ok x
      | None => OutOfModel
      end
  | VPrim PUndefined | VPrim PNull => Throw TypeError
  | VPrim _ => OutOfModel
  end.

End JS.

(* ================================================================== *)
(** * The database: tables and prepared statements                     *)
(* ================================================================== *)

Module Db.
Import JS.

(** A value as bound to a statement parameter. *)
Inductive sqlval : Type :=
| SNull
| SNum (n : Z)
| SText (s : string).

(** Binding a JavaScript value as one parameter: numbers, strings,
    [null] and [undefined] are accepted and a boolean is refused with
    a [TypeError].  An array is not one parameter: the driver spreads
    its elements over the parameters that follow, and it reads a
    plain object as a collection of named parameters; what the
    statement then does depends on the count of all its arguments, and
    is left out. *)
Definition bind_value (v : value) : result sqlval :=
  match v with
  | VPrim PNull | VPrim PUndefined => Ok SNull
  | VPrim (PNum n) => Ok (SNum n)
  | VPrim (PStr s) => Ok (SText s)
  | VPrim (PBool _) => Throw TypeError
  | VObj _ _ => OutOfModel
  end.

(** Table [scorm_sessions]. *)
Record session : Type := {
  session_id : string;
  session_package : string;
  user_id : sqlval;
  started_at : Z;
  last_accessed : Z;
  completed : sqlval;
  success_status : sqlval;
  score_raw : sqlval;
  score_min : sqlval;
  score_max : sqlval;
  session_time : sqlval;
  total_time : sqlval;
  suspend_data : sqlval
}.

(** Table [cmi_data]. *)
Record cmi_row : Type := {
  cmi_id : Z;
  cmi_session : string;
  element : string;
  value_ : string;
  timestamp : Z
}.

(** Table [sync_queue]. *)
Record sync_item : Type := {
  id : Z;
  item_session : string;
  item_package : string;
  action : string;
  data : option string;
  created_at : Z;
  synced : Z;
  synced_at : option Z;
  retry_count : Z
}.

(** Table [interactions]. *)
Record interaction_row : Type := {
  int_id : Z;
  int_session : string;
  interaction_id : sqlval;
  int_type : sqlval;
  int_timestamp : sqlval;
  correct_responses : sqlval;
  learner_response : sqlval;
  int_result : sqlval;
  latency : sqlval;
  description : sqlval
}.

(** The database file, with the clock [strftime('%s','now')] reads. *)
Record db : Type := {
  sessions : list session;
  cmi_data : list cmi_row;
  sync_queue : list sync_item;
  interactions : list interaction_row;
  now : Z
}.

Definition with_sessions (d : db) (l : list session) : db :=
  {| sessions := l; cmi_data := cmi_data d; sync_queue := sync_queue d;
     interactions := interactions d; now := now d |}.

Definition with_cmi_data (d : db) (l : list cmi_row) : db :=
  {| sessions := sessions d; cmi_data := l; sync_queue := sync_queue d;
     interactions := interactions d; now := now d |}.

Definition with_sync_queue (d : db) (l : list sync_item) : db :=
  {| sessions := sessions d; cmi_data := cmi_data d; sync_queue := l;
     interactions := interactions d; now := now d |}.

Definition with_interactions (d : db) (l : list interaction_row) : db :=
  {| sessions := sessions d; cmi_data := cmi_data d; sync_queue := sync_queue d;
     interactions := l; now := now d |}.

(** [INTEGER PRIMARY KEY AUTOINCREMENT]: one more than the largest
    key in use (rows are never deleted from these tables). *)
Definition next_id (ids : list Z) : Z :=
  1 + fold_right Z.max 0 ids.

(** [ORDER BY]: a stable insertion sort; rows that compare equal stay
    in rowid order. *)
Fixpoint insert_sorted {A : Type} (le : A -> A -> bool) (x : A) (l : list A) : list A :=
  match l with
  | [] => [x]
  | y :: l' => if le x y then x :: l else y :: insert_sorted le x l'
  end.

Definition order_by {A : Type} (le : A -> A -> bool) (l : list A) : list A :=
  fold_right (insert_sorted le) [] l.

(** [LIMIT n]; a negative [n] means no limit. *)
Definition limit {A : Type} (n : Z) (l : list A) : list A :=
  if n <? 0 then l else firstn (Z.to_nat n) l.

(** *** Sessions *)

(** [SELECT * FROM scorm_sessions WHERE id = ?] *)
Definition stmt_getSession (d : db) (sid : string) : option session :=
  find (fun s => String.eqb (session_id s) sid) (sessions d).

(** [UPDATE scorm_sessions SET last_accessed = now, completed = ?, ...
     WHERE id = ?] *)
Definition update_row (t : Z) (c ss sr st tt sd : sqlval) (s : session) : session :=
  {| session_id := session_id s; session_package := session_package s;
     user_id := user_id s; started_at := started_at s;
     last_accessed := t;
     completed := c; success_status := ss; score_raw := sr;
     score_min := score_min s; score_max := score_max s;
     session_time := st; total_time := tt; suspend_data := sd |}.

(** The row keeps each parameter as it was bound.  The type affinity
    of the columns is not applied: it turns a number bound to one of
    the TEXT columns into its text, and a text that reads as a number,
    bound to the REAL column [score_raw], into that number.  What is
    stated of the value of one of these columns is stated for
    parameters its affinity leaves as they are. *)
Definition stmt_updateSession (d : db) (c ss sr st tt sd : sqlval) (sid : string) : db :=
  with_sessions d
    (map (fun s => if String.eqb (session_id s) sid
                   then update_row (now d) c ss sr st tt sd s else s)
         (sessions d)).

(** *** CMI data *)

(** [INSERT INTO cmi_data (session_id, element, value)]; the foreign
    key on [session_id] is enforced. *)
Definition stmt_insertCmiData (d : db) (sid el v : string) : db * result unit :=
  match stmt_getSession d sid with
  | None => (d, Throw (Error "FOREIGN KEY constraint failed"))
  | Some _ =>
      (with_cmi_data d
         (cmi_data d ++
          [{| cmi_id := next_id (map cmi_id (cmi_data d));
              cmi_session := sid; element := el; value_ := v;
              timestamp := now d |}]),
       Ok tt)
  end.

(** [SELECT * FROM cmi_data WHERE session_id = ? AND element = ?
     ORDER BY timestamp DESC LIMIT 1] *)
Definition stmt_getCmiData (d : db) (sid el : string) : option cmi_row :=
  hd_error
    (limit 1
       (order_by (fun a b => timestamp b <=? timestamp a)
          (filter (fun r => String.eqb (cmi_session r) sid
                            && String.eqb (element r) el)
                  (cmi_data d)))).

(** [SELECT * FROM cmi_data WHERE session_id = ? ORDER BY timestamp ASC] *)
Definition stmt_getAllCmiData (d : db) (sid : string) : list cmi_row :=
  order_by (fun a b => timestamp a <=? timestamp b)
    (filter (fun r => String.eqb (cmi_session r) sid) (cmi_data d)).

(** *** Sync queue *)

(** [INSERT INTO sync_queue (session_id, package_id, action, data)] *)
Definition stmt_insertSyncItem (d : db) (sid pid act : string) (dat : option string) : db :=
  with_sync_queue d
    (sync_queue d ++
     [{| id := next_id (map id (sync_queue d));
         item_session := sid; item_package := pid; action := act;
         data := dat; created_at := now d;
         synced := 0; synced_at := None; retry_count := 0 |}]).

(** [SELECT * FROM sync_queue WHERE synced = 0
     ORDER BY created_at ASC LIMIT ?] *)
Definition stmt_getPendingSync (d : db) (n : Z) : list sync_item :=
  limit n
    (order_by (fun a b => created_at a <=? created_at b)
       (filter (fun it => synced it =? 0) (sync_queue d))).

Definition mark_row (t : Z) (it : sync_item) : sync_item :=
  {| id := id it; item_session := item_session it;
     item_package := item_package it; action := action it;
     data := data it; created_at := created_at it;
     synced := 1; synced_at := Some t; retry_count := retry_count it |}.

Definition retry_row (it : sync_item) : sync_item :=
  {| id := id it; item_session := item_session it;
     item_package := item_package it; action := action it;
     data := data it; created_at := created_at it;
     synced := synced it; synced_at := synced_at it;
     retry_count := retry_count it + 1 |}.

(** [UPDATE sync_queue SET synced = 1, synced_at = now WHERE id = ?] *)
Definition stmt_markSynced (d : db) (i : Z) : db :=
  with_sync_queue d
    (map (fun it => if id it =? i then mark_row (now d) it else it)
         (sync_queue d)).

(** [UPDATE sync_queue SET retry_count = retry_count + 1 WHERE id = ?] *)
Definition stmt_incrementRetry (d : db) (i : Z) : db :=
  with_sync_queue d
    (map (fun it => if id it =? i then retry_row it else it)
         (sync_queue d)).

(** *** Interactions *)

(** [INSERT INTO interactions (...)]; the foreign key on
    [session_id] is enforced.  As for the session row, the columns
    keep the parameters as they were bound. *)
Definition stmt_insertInteraction (d : db) (sid : string)
           (iid ty ts cr lr res lat descr : sqlval) : db * result unit :=
  match stmt_getSession d sid with
  | None => (d, Throw (Error "FOREIGN KEY constraint failed"))
  | Some _ =>
      (with_interactions d
         (interactions d ++
          [{| int_id := next_id (map int_id (interactions d));
              int_session := sid; interaction_id := iid; int_type := ty;
              int_timestamp := ts; correct_responses := cr;
              learner_response := lr; int_result := res; latency := lat;
              description := descr |}]),
       Ok tt)
  end.

End Db.

(* ================================================================== *)
(** * Calls that read and write the database                           *)
(* ================================================================== *)

Module Call.
Import JS Db.

(** A call runs against the database and returns, raises, or leaves
    the embedding; what it wrote before raising stays written. *)
Definition call (A : Type) : Type := db -> db * result A.

Definition ret {A : Type} (a : A) : call A := fun d => (d, Ok a).

Definition raise {A : Type} (e : js_error) : call A := fun d => (d, Throw e).

Definition lift {A : Type} (r : result A) : call A := fun d => (d, r).

Definition and_then {A B : Type} (m : call A) (f : A -> call B) : call B :=
  fun d =>
    match m d with
    | (d', Ok a) => f a d'
    | (d', Throw e) => (d', Throw e)
    | (d', OutOfModel) => (d', OutOfModel)
    end.

(** [try { m } catch (error) { throw new Error(`${prefix}: ...`) }] *)
Definition rethrow {A : Type} (prefix : string) (m : call A) : call A :=
  fun d =>
    match m d with
    | (d', Throw e) => (d', Throw (Wrapped prefix e))
    | other => other
    end.

Definition query {A : Type} (f : db -> A) : call A := fun d => (d, Ok (f d)).

Definition exec (f : db -> db) : call unit := fun d => (f d, Ok tt).

End Call.

Declare Scope call_scope.
Delimit Scope call_scope with call.
Notation "x <- m ;; k" := (Call.and_then m (fun x => k))
  (at level 61, m at next level, right associativity) : call_scope.
Notation "m ;;; k" := (Call.and_then m (fun _ => k))
  (at level 61, right associativity) : call_scope.

(* ================================================================== *)
(** * [ScormApiService]                                                *)
(* ================================================================== *)

Module ScormApi.
Import JS Db Call.

(** What the service takes from the JavaScript runtime. *)
Class Runtime : Type := {
  (** [JSON.stringify(v)]; [None] is [undefined]. *)
  JSON_stringify : value -> option string;
  (** [JSON.parse(s)]; [None] is a [SyntaxError]. *)
  JSON_parse : string -> option value;
  (** [new Date(v).getTime()]; [None] is [NaN]. *)
  Date_getTime : value -> option Z
}.

(** ** [getSession] *)
Definition getSession (sessionId : string) : call (option session) :=
  query (fun d => stmt_getSession d sessionId).

(** ** [setNestedValue] *)

(** Writing a child back into the container it was read from. *)
Definition write_back (current : value) (key : string) (child : value) : value :=
  match current with
  | VObj k props => VObj k (define_prop key child props)
  | VPrim _ => current
  end.

(** The loop over [keys], from [current] down; the answer is
    [current] after the mutation.  An early [return] leaves the
    containers created so far in place. *)
Fixpoint set_at (current : value) (keys : list string) (v : value) : result value :=
  match keys with
  | [] => Ok current
  | [lastKey] => assign_prop current lastKey v
  | key :: ((nextKey :: _) as rest) =>
      if negb (isNaN key) then
        let index := parseInt key in
        if negb (isArray current) then Ok current
        else
          bind (index_key index) (fun ik =>
          let existing := opt_field current ik in
          let child := if negb (truthy existing) then empty_object else existing in
          bind (set_at child rest v) (fun child' =>
          Ok (write_back current ik child')))
      else
        bind (read_prop current key) (fun existing =>
        let child := if negb (truthy existing)
                     then (if negb (isNaN nextKey) then empty_array else empty_object)
                     else existing in
        bind (set_at child rest v) (fun child' =>
        Ok (write_back current key child')))
  end.

Definition setNestedValue (o : value) (path : string) (v : value) : result value :=
  set_at o (split dot path) v.

(** ** [getCmiData] *)

(** The tree built from all the records of a session. *)
Definition build_cmi (sessionId : string) : call value :=
  fun d =>
    (d, fold_left
          (fun cmi item =>
             bind cmi (fun c =>
               setNestedValue c (Db.element item) (str (value_ item))))
          (stmt_getAllCmiData d sessionId) (Ok empty_object)).

(** [elem] is [None] for the default [element = null]; an empty
    string is falsy as well. *)
Definition getCmiData (sessionId : string) (elem : option string) : call value :=
  match elem with
  | Some el =>
      if truthy (str el) then
        query (fun d =>
          match stmt_getCmiData d sessionId el with
          | Some row => str (value_ row)
          | None => null
          end)
      else build_cmi sessionId
  | None => build_cmi sessionId
  end.

(** ** [setCmiData] *)
Definition setCmiData (sessionId el v : string) : call unit :=
  rethrow "Failed to set CMI data"
    (fun d => stmt_insertCmiData d sessionId el v).

(** ** [storeCmiData] *)

(** [prefix ? `${prefix}.${key}` : key] *)
Definition element_name (prefix key : string) : string :=
  if truthy (str prefix) then dotted prefix key else key.

(** [Object.entries] of a string lists its characters by position. *)
Fixpoint store_chars (sessionId prefix : string) (i : Z) (s : string) : call unit :=
  match s with
  | EmptyString => ret tt
  | String c s' =>
      fun d =>
        match setCmiData sessionId (element_name prefix (Z_to_string i))
                         (String c EmptyString) d with
        | (d', Ok _) => store_chars sessionId prefix (i + 1) s' d'
        | other => other
        end
  end.

(** The two loops of [storeCmiData], over the function [recur] it
    calls on nested objects (itself). *)
Section StoreLoops.
Variable recur : value -> string -> call unit.
Variable sessionId : string.

(** [value.forEach((item, index) => ...)] under the name [el]. *)
Fixpoint forEach_item (el : string) (its : list (string * value)) : call unit :=
  match its with
  | [] => ret tt
  | (index, item) :: its' =>
      match array_index index with
      | None => forEach_item el its'
      | Some _ =>
          and_then
            (match item with
             | VObj _ _ => recur item (dotted el index)
             | VPrim PNull => raise TypeError
             | VPrim p => setCmiData sessionId (dotted el index) (String_ p)
             end)
            (fun _ => forEach_item el its')
      end
  end.

(** The body of [for (const [key, value] of Object.entries(cmi))]. *)
Definition store_entry (prefix key : string) (v : value) : call unit :=
  let el := element_name prefix key in
  match v with
  | VObj Plain _ => recur v el
  | VObj Array items => forEach_item el items
  | VPrim p => setCmiData sessionId el (String_ p)
  end.

Fixpoint each_entry (prefix : string) (ps : list (string * value)) : call unit :=
  match ps with
  | [] => ret tt
  | (key, v) :: ps' =>
      and_then (store_entry prefix key v) (fun _ => each_entry prefix ps')
  end.

End StoreLoops.

Fixpoint storeCmiData (sessionId : string) (cmi : value) (prefix : string)
         {struct cmi} : call unit :=
  match cmi with
  | VPrim PUndefined | VPrim PNull => raise TypeError
  | VPrim (PStr s) => store_chars sessionId prefix 0 s
  | VPrim _ => ret tt
  | VObj _ props => each_entry (storeCmiData sessionId) sessionId prefix props
  end.

(** ** [determineCompletion] *)

(** [v === 'text'] *)
Definition is_string (v : value) (text : string) : bool :=
  match v with
  | VPrim (PStr s) => String.eqb s text
  | _ => false
  end.

Definition determineCompletion (commitData : value) : result bool :=
  bind (field commitData "cmi") (fun c =>
  let cmi := or_else c empty_object in
  let completion_status := opt_field cmi "completion_status" in
  if truthy completion_status then
    Ok (is_string completion_status "completed")
  else
    let status := opt_field (opt_field cmi "core") "lesson_status" in
    if truthy status then
      Ok (is_string status "completed" || is_string status "passed")
    else Ok false).

Section WithRuntime.
Context {RT : Runtime}.
Local Open Scope call_scope.

(** ** [storeInteractions] *)

(** [arr.length]: one past the largest index in use. *)
Definition array_length (props : list (string * value)) : Z :=
  fold_right
    (fun kv n => match array_index (fst kv) with
                 | Some i => Z.max (i + 1) n
                 | None => n
                 end) 0 props.

(** What [for ... of] yields on an array: positions [0] to
    [length - 1], a hole read as [undefined]. *)
Definition array_items (props : list (string * value)) : list value :=
  map (fun i => get_own (Z_to_string (Z.of_nat i)) props)
      (seq 0 (Z.to_nat (array_length props))).

(** [Object.values] of a string: its characters. *)
Fixpoint chars (s : string) : list value :=
  match s with
  | EmptyString => []
  | String c s' => str (String c EmptyString) :: chars s'
  end.

(** [Array.isArray(x) ? x : Object.values(x)], iterated. *)
Definition interaction_list (interactions : value) : list value :=
  match interactions with
  | VObj Array props => array_items props
  | VObj Plain props => map snd props
  | VPrim (PStr s) => chars s
  | VPrim _ => []
  end.

(** [statements.insertInteraction.run(...)] with the eight values the
    loop takes from one interaction. *)
Definition insertInteraction_run (sessionId : string) (interaction : value)
  : call unit :=
  let timestamp_ := opt_field interaction "timestamp" in
  let correct := opt_field interaction "correct_responses" in
  i1 <- lift (bind_value (opt_field interaction "id")) ;;
  i2 <- lift (bind_value (or_else (opt_field interaction "type") null)) ;;
  i3 <- ret (if truthy timestamp_
             then match Date_getTime timestamp_ with
                  | Some t => SNum t
                  | None => SNull
                  end
             else SNull) ;;
  i4 <- ret (if truthy correct
             then match JSON_stringify correct with
                  | Some t => SText t
                  | None => SNull
                  end
             else SNull) ;;
  i5 <- lift (bind_value (or_else (opt_field interaction "learner_response") null)) ;;
  i6 <- lift (bind_value (or_else (opt_field interaction "result") null)) ;;
  i7 <- lift (bind_value (or_else (opt_field interaction "latency") null)) ;;
  i8 <- lift (bind_value (or_else (opt_field interaction "description") null)) ;;
  (fun d => stmt_insertInteraction d sessionId i1 i2 i3 i4 i5 i6 i7 i8).

(** [for (const interaction of interactions)] *)
Fixpoint each_interaction (sessionId : string) (l : list value) : call unit :=
  match l with
  | [] => ret tt
  | interaction :: l' =>
      ident <- lift (field interaction "id") ;;
      if negb (truthy ident) then each_interaction sessionId l'
      else insertInteraction_run sessionId interaction ;;;
           each_interaction sessionId l'
  end%call.

Definition storeInteractions (sessionId : string) (interactions : value)
  : call unit :=
  each_interaction sessionId (interaction_list interactions).

(** ** [commitSession] *)

(** The summary fields a commit extracts, before they are bound. *)
Record summary : Type := {
  successStatus : value;
  scoreRaw : value;
  sessionTime : value;
  totalTime : value;
  suspendData : value
}.

(** [cmi] is [commitData.cmi]. *)
Definition extract_summary (cmi : value) : summary :=
  let core := opt_field cmi "core" in
  {| successStatus :=
       or_else (or_else (opt_field cmi "success_status")
                        (opt_field core "lesson_status")) null;
     scoreRaw :=
       or_else (or_else (opt_field (opt_field cmi "score") "raw")
                        (opt_field (opt_field core "score") "raw")) null;
     sessionTime :=
       or_else (or_else (opt_field cmi "session_time")
                        (opt_field core "session_time")) null;
     totalTime :=
       or_else (or_else (opt_field cmi "total_time")
                        (opt_field core "total_time")) null;
     suspendData :=
       or_else (or_else (opt_field cmi "suspend_data")
                        (opt_field core "suspend_data")) null |}.

(** [statements.updateSession.run(completed ? 1 : 0, ...)] *)
Definition updateSession_run (completed_ : bool) (f : summary) (sessionId : string)
  : call unit :=
  (p2 <- lift (bind_value (successStatus f)) ;;
   p3 <- lift (bind_value (scoreRaw f)) ;;
   p4 <- lift (bind_value (sessionTime f)) ;;
   p5 <- lift (bind_value (totalTime f)) ;;
   p6 <- lift (bind_value (suspendData f)) ;;
   exec (fun d =>
           stmt_updateSession d (SNum (if completed_ then 1 else 0))
                              p2 p3 p4 p5 p6 sessionId))%call.

Definition commitSession (sessionId : string) (commitData : value) : call value :=
  rethrow "Failed to commit session"
    (session_ <- getSession sessionId ;;
     match session_ with
     | None => raise (Error "Session not found")
     | Some _ =>
         completed_ <- lift (determineCompletion commitData) ;;
         cmi <- lift (field commitData "cmi") ;;
         updateSession_run completed_ (extract_summary cmi) sessionId ;;;
         storeCmiData sessionId (or_else cmi empty_object) "cmi" ;;;
         (if truthy (opt_field cmi "interactions")
          then storeInteractions sessionId (opt_field cmi "interactions")
          else ret tt) ;;;
         ret (obj [("success", boolean true);
                   ("sessionId", str sessionId);
                   ("committed", boolean true)])
     end)%call.

(** ** [terminateSession] *)

(** [Object.keys(v).length] *)
Definition keys_length (v : value) : result Z :=
  match v with
  | VObj _ props => Ok (Z.of_nat (List.length props))
  | VPrim PUndefined | VPrim PNull => Throw TypeError
  | VPrim (PStr s) => Ok (Z.of_nat (String.length s))
  | VPrim _ => Ok 0
  end.

(** The parameter default [finalData = {}]. *)
Definition default_object (v : value) : value :=
  match v with
  | VPrim PUndefined => empty_object
  | _ => v
  end.

Definition terminateSession (sessionId : string) (finalData : value) : call value :=
  rethrow "Failed to terminate session"
    (n <- lift (keys_length (default_object finalData)) ;;
     (if 0 <? n
      then commitSession sessionId (default_object finalData) ;;; ret tt
      else ret tt) ;;;
     ret (obj [("success", boolean true);
               ("sessionId", str sessionId);
               ("terminated", boolean true)]))%call.

(** ** The sync queue statements *)

Definition createSyncItem (sessionId packageId action_ : string) (data_ : value)
  : call value :=
  rethrow "Failed to create sync item"
    (exec (fun d => stmt_insertSyncItem d sessionId packageId action_
                                        (JSON_stringify data_)) ;;;
     ret (obj [("success", boolean true)]))%call.

Definition getPendingSyncItems (batchSize : Z) : call (list sync_item) :=
  query (fun d => stmt_getPendingSync d batchSize).

Definition markSyncItemSynced (syncItemId : Z) : call value :=
  rethrow "Failed to mark sync item"
    (exec (fun d => stmt_markSynced d syncItemId) ;;;
     ret (obj [("success", boolean true)]))%call.

Definition incrementSyncRetry (syncItemId : Z) : call value :=
  rethrow "Failed to increment retry"
    (exec (fun d => stmt_incrementRetry d syncItemId) ;;;
     ret (obj [("success", boolean true)]))%call.

End WithRuntime.

End ScormApi.

(* ================================================================== *)
(** * [config.sync]                                                    *)
(* ================================================================== *)

Module Config.
Definition batchSize : Z := 100.
Definition maxRetries : Z := 3.
Definition retryDelay : Z := 5000.
End Config.

(* ================================================================== *)
(** * [OfflineSyncService]                                             *)
(* ================================================================== *)

Module OfflineSync.
Import JS Db Call ScormApi.

(** Lines written with [console.error]. *)
Inductive error_line : Type :=
| FailedToSync (item_id : Z) (reason : js_error)
| MaxRetriesExceeded (item_id : Z).

(** The service object next to the database it works on. *)
Record state : Type := {
  database : db;
  syncing : bool;
  syncInterval : option Z;
  console_error : list error_line
}.

Definition with_database (st : state) (d : db) : state :=
  {| database := d; syncing := syncing st;
     syncInterval := syncInterval st; console_error := console_error st |}.

Definition with_syncing (st : state) (b : bool) : state :=
  {| database := database st; syncing := b;
     syncInterval := syncInterval st; console_error := console_error st |}.

Definition with_interval (st : state) (i : option Z) : state :=
  {| database := database st; syncing := syncing st;
     syncInterval := i; console_error := console_error st |}.

Definition log_error (st : state) (l : error_line) : state :=
  {| database := database st; syncing := syncing st;
     syncInterval := syncInterval st;
     console_error := console_error st ++ [l] |}.

(** Running a database call from the service. *)
Definition run {A : Type} (m : call A) (st : state) : state * result A :=
  let '(d, r) := m (database st) in (with_database st d, r).

(** What [processSyncQueue] resolves to. *)
Inductive report : Type :=
| already_syncing
| no_items
| completed_ (synced_ errors total : Z).

(** A pass suspended at [await this.processSyncItem(item)]. *)
Record pass : Type := {
  item : sync_item;
  later : list sync_item;
  successCount : Z;
  errorCount : Z;
  total_ : Z
}.

(** A batch uploaded by a client. *)
Record offline_action : Type := {
  type_ : string;
  data_ : value
}.

Record offline_data : Type := {
  sessionId : string;
  packageId : string;
  actions : list offline_action
}.

(** What [getSyncStatus] answers. *)
Record status : Type := {
  pending : Z;
  status_syncing : bool;
  autoSyncEnabled : bool;
  byAction : list (string * value)
}.

Section WithRuntime.
Context {RT : Runtime}.

(** ** [startAutoSync], [stopAutoSync] *)

Definition startAutoSync (intervalMs : Z) (st : state) : state :=
  match syncInterval st with
  | Some _ => st
  | None => with_interval st (Some intervalMs)
  end.

Definition stopAutoSync (st : state) : state :=
  with_interval st None.

(** ** [syncCommit], [syncInitialize], [syncTerminate] *)

(** The three handlers log and resolve: nothing is sent anywhere.
    [None] is a promise that resolves, [Some e] one that rejects
    with [e]. *)
Definition syncCommit (sessionId packageId : string) (data_ : value)
  : option js_error := None.

Definition syncInitialize (sessionId packageId : string) (data_ : value)
  : option js_error := None.

Definition syncTerminate (sessionId packageId : string) (data_ : value)
  : option js_error := None.

(** ** [processSyncItem] *)

(** [JSON.parse(item.data)]: a NULL column reads as [null], which
    parses to [null]. *)
Definition parse_data (it : sync_item) : option value :=
  match data it with
  | None => Some null
  | Some text => JSON_parse text
  end.

Definition processSyncItem (it : sync_item) : option js_error :=
  match parse_data it with
  | None => Some SyntaxError
  | Some parsed =>
      if String.eqb (action it) "commit"
      then syncCommit (item_session it) (item_package it) parsed
      else if String.eqb (action it) "initialize"
      then syncInitialize (item_session it) (item_package it) parsed
      else if String.eqb (action it) "terminate"
      then syncTerminate (item_session it) (item_package it) parsed
      else None
  end.

(** ** [processSyncQueue] *)

(** The body of the loop once [processSyncItem(item)] has settled,
    with the two counters. *)
Definition settle (it : sync_item) (st : state) (ok bad : Z) : state * Z * Z :=
  match processSyncItem it with
  | None =>
      let '(st1, _) := run (markSyncItemSynced (id it)) st in
      (st1, ok + 1, bad)
  | Some e =>
      let st1 := log_error st (FailedToSync (id it) e) in
      let '(st2, _) := run (incrementSyncRetry (id it)) st1 in
      let st3 := if Config.maxRetries <=? retry_count it
                 then log_error st2 (MaxRetriesExceeded (id it))
                 else st2 in
      (st3, ok, bad + 1)
  end.

(** [for (const item of pendingItems) { ... }] *)
Fixpoint drain (items : list sync_item) (st : state) (ok bad : Z) : state * Z * Z :=
  match items with
  | [] => (st, ok, bad)
  | it :: rest =>
      let '(st1, ok1, bad1) := settle it st ok bad in
      drain rest st1 ok1 bad1
  end.

(** A pass that nothing interleaves with. *)
Definition processSyncQueue (st : state) : state * report :=
  if syncing st then (st, already_syncing)
  else
    let st1 := with_syncing st true in
    let pendingItems := stmt_getPendingSync (database st1) Config.batchSize in
    match pendingItems with
    | [] => (with_syncing st1 false, no_items)
    | _ :: _ =>
        let '(st2, ok, bad) := drain pendingItems st1 0 0 in
        (with_syncing st2 false,
         completed_ ok bad (Z.of_nat (List.length pendingItems)))
    end.

(** The same pass cut at its [await]s, for callers that run while
    it is suspended: from the call up to the first [await], *)
Definition begin (st : state) : state * (report + pass) :=
  if syncing st then (st, inl already_syncing)
  else
    let st1 := with_syncing st true in
    let pendingItems := stmt_getPendingSync (database st1) Config.batchSize in
    match pendingItems with
    | [] => (with_syncing st1 false, inl no_items)
    | first :: rest =>
        (st1, inr {| item := first; later := rest;
                     successCount := 0; errorCount := 0;
                     total_ := Z.of_nat (List.length pendingItems) |})
    end.

(** and from one [await] to the next, or to the [return] and the
    [finally] block. *)
Definition resume (st : state) (p : pass) : state * (report + pass) :=
  let '(st1, ok, bad) := settle (item p) st (successCount p) (errorCount p) in
  match later p with
  | [] => (with_syncing st1 false, inl (completed_ ok bad (total_ p)))
  | next :: rest =>
      (st1, inr {| item := next; later := rest;
                   successCount := ok; errorCount := bad;
                   total_ := total_ p |})
  end.

(** ** [triggerSync] *)
Definition triggerSync (st : state) : state * report := processSyncQueue st.

(** ** [uploadOfflineSession] *)

Fixpoint create_items (sid pid : string) (l : list offline_action) : call unit :=
  match l with
  | [] => ret tt
  | a :: l' =>
      (createSyncItem sid pid (type_ a) (data_ a) ;;;
       create_items sid pid l')%call
  end.

Definition uploadOfflineSession (offlineData : offline_data) (st : state)
  : state * result value :=
  match run (create_items (sessionId offlineData) (packageId offlineData)
                          (actions offlineData)) st with
  | (st1, Ok _) =>
      let '(st2, _) := processSyncQueue st1 in
      (st2, Ok (obj [("success", boolean true);
                     ("message",
                      str "Offline session data queued for synchronization")]))
  | (st1, Throw e) => (st1, Throw (Wrapped "Failed to upload offline session" e))
  | (st1, OutOfModel) => (st1, OutOfModel)
  end.

(** ** [getSyncStatus] *)

(** [stats.byAction[a] = (stats.byAction[a] || 0) + 1] *)
Definition count_action (byAction_ : result value) (a : string) : result value :=
  bind byAction_ (fun o =>
  bind (read_prop o a) (fun seen =>
  match or_else seen (num 0) with
  | VPrim (PNum n) => assign_prop o a (num (n + 1))
  | _ => OutOfModel
  end)).

Definition getSyncStatus (st : state) : result status :=
  let pendingItems := stmt_getPendingSync (database st) 1000 in
  bind (fold_left count_action (map action pendingItems) (Ok empty_object))
    (fun counted =>
       match counted with
       | VObj _ props =>
           Ok {| pending := Z.of_nat (List.length pendingItems);
                 status_syncing := syncing st;
                 autoSyncEnabled :=
                   match syncInterval st with Some _ => true | None => false end;
                 byAction := props |}
       | VPrim _ => OutOfModel
       end).

End WithRuntime.

End OfflineSync.

(* ================================================================== *)
(** * Vocabulary of the properties                                     *)
(* ================================================================== *)

Module Props.
Import JS Db Call ScormApi OfflineSync.

(** ** The tree codec *)

(** The scalar-to-string coercion, applied to every leaf. *)
Fixpoint coerce (v : value) : value :=
  match v with
  | VPrim p => str (String_ p)
  | VObj k props => VObj k (map (fun kv => (fst kv, coerce (snd kv))) props)
  end.

(** A key that [setNestedValue] reads as an object key: not numeric,
    without a dot, and not a member of [Object.prototype]. *)
Definition plain_key (k : string) : bool :=
  isNaN k && negb (contains dot k) && negb (inherited_name k).

Fixpoint distinct (ks : list string) : bool :=
  match ks with
  | [] => true
  | k :: ks' => negb (existsb (String.eqb k) ks') && distinct ks'
  end.

(** The keys of a dense array: ["0"], ["1"], ... *)
Fixpoint index_keys_from (j : Z) (ks : list string) : bool :=
  match ks with
  | [] => true
  | k :: ks' => String.eqb k (Z_to_string j) && index_keys_from (j + 1) ks'
  end.

(** Where a value sits: at the root, under an object key, in an array. *)
Inductive position : Type := Root | Member | Element.

(** The trees the flat records can carry: non-empty plain objects
    with distinct plain keys; arrays only under object keys, dense
    and non-empty, holding objects and scalars other than [null];
    scalar leaves that are strings, numbers, booleans or (under an
    object key) [null]. *)
Fixpoint well_formed (pos : position) (v : value) : bool :=
  match v with
  | VPrim p =>
      match pos, p with
      | Root, _ => false
      | _, PUndefined => false
      | Element, PNull => false
      | _, _ => true
      end
  | VObj Plain props =>
      negb (is_nil props)
      && forallb plain_key (map fst props)
      && distinct (map fst props)
      && forallb (fun kv => well_formed Member (snd kv)) props
  | VObj Array props =>
      match pos with
      | Member =>
          negb (is_nil props)
          && index_keys_from 0 (map fst props)
          && (Z.of_nat (List.length props) <? 4294967295)
          && forallb (fun kv => well_formed Element (snd kv)) props
      | _ => false
      end
  end.

(** [{k1: {k2: ... v}}] *)
Fixpoint nest (ks : list string) (v : value) : value :=
  match ks with
  | [] => v
  | k :: ks' => obj [(k, nest ks' v)]
  end.

(** Flatten [T] under [pre] into the session, then rebuild the tree
    from all its records. *)
Definition round_trip (sid pre : string) (T : value) (d : db) : result value :=
  snd (getCmiData sid None (fst (storeCmiData sid T pre d))).

(** A path segment the embedding follows: not a member of
    [Object.prototype], and as an index within the exact integers. *)
Definition modelled_key (k : string) : bool :=
  negb (inherited_name k)
  && match parseInt k with
     | Some n => Z.abs n <=? max_safe
     | None => true
     end.

(** ** The record store *)

(** Timestamps that grow strictly from one record to the next. *)
Fixpoint increasing (ts : list Z) : bool :=
  match ts with
  | t1 :: ((t2 :: _) as rest) => (t1 <? t2) && increasing rest
  | _ => true
  end.

(** The records of one path of one session, in the order written. *)
Definition records_of (d : db) (sid el : string) : list cmi_row :=
  filter (fun r => String.eqb (cmi_session r) sid && String.eqb (element r) el)
         (cmi_data d).

(** ** Completion, in the words of the specification *)

(** "newer shape's completion field equals completed, OR older
    shape's status field equals completed or passed" *)
Definition spec_completion (commitData : value) : bool :=
  let cmi := opt_field commitData "cmi" in
  is_string (opt_field cmi "completion_status") "completed"
  || is_string (opt_field (opt_field cmi "core") "lesson_status") "completed"
  || is_string (opt_field (opt_field cmi "core") "lesson_status") "passed".

(** ** Session summaries *)

Definition bindable (v : value) : bool := is_ok (bind_value v).

(** The five extracted fields can all be bound to [updateSession]. *)
Definition summary_bindable (f : summary) : bool :=
  bindable (successStatus f) && bindable (scoreRaw f)
  && bindable (sessionTime f) && bindable (totalTime f)
  && bindable (suspendData f).

(** What a bindable value is stored as. *)
Definition stored (v : value) : sqlval :=
  match bind_value v with
  | Ok x => x
  | _ => SNull
  end.

(** ** The sync queue *)

Definition is_pending (it : sync_item) : bool := synced it =? 0.

(** The true queue depth. *)
Definition queue_depth (d : db) : Z :=
  Z.of_nat (List.length (filter is_pending (sync_queue d))).

Definition count_action_in (a : string) (l : list sync_item) : Z :=
  Z.of_nat (List.length (filter (fun it => String.eqb (action it) a) l)).

(** The entries an upload adds: one per action, pending, numbered
    from [first_id] on. *)
Fixpoint enqueued {RT : Runtime} (first_id now_ : Z) (sid pid : string)
         (l : list offline_action) : list sync_item :=
  match l with
  | [] => []
  | a :: l' =>
      {| id := first_id; item_session := sid; item_package := pid;
         action := type_ a; data := JSON_stringify (data_ a);
         created_at := now_; synced := 0; synced_at := None;
         retry_count := 0 |}
      :: enqueued (first_id + 1) now_ sid pid l'
  end.

Section WithRuntime.
Context {RT : Runtime}.

(** [n] passes in a row, nothing in between. *)
Fixpoint passes (n : nat) (st : state) : state :=
  match n with
  | O => st
  | S n' => passes n' (fst (processSyncQueue st))
  end.

(** ** Calls that overlap *)

(** The service together with the passes suspended at an [await] and
    the ids handed to [markSyncItemSynced] so far. *)
Record system : Type := {
  service : state;
  suspended : list pass;
  marked : list Z
}.

(** The id a pass hands to [markSyncItemSynced] when it resumes. *)
Definition marks (p : pass) : list Z :=
  match processSyncItem (item p) with
  | None => [id (item p)]
  | Some _ => []
  end.

Definition continues (out : report + pass) : list pass :=
  match out with
  | inl _ => []
  | inr p => [p]
  end.

(** One turn of the event loop. *)
Inductive step : system -> system -> Prop :=
| step_call : forall sys st' out,
    (* [triggerSync()], a timer tick or an upload reaches
       [processSyncQueue()] *)
    begin (service sys) = (st', out) ->
    step sys {| service := st';
                suspended := continues out ++ suspended sys;
                marked := marked sys |}
| step_resume : forall sys before p after st' out,
    (* a suspended pass resumes *)
    suspended sys = before ++ p :: after ->
    resume (service sys) p = (st', out) ->
    step sys {| service := st';
                suspended := before ++ continues out ++ after;
                marked := marked sys ++ marks p |}
| step_enqueue : forall sys sid pid act dat,
    (* another request queues an action *)
    step sys {| service := fst (run (createSyncItem sid pid act dat) (service sys));
                suspended := suspended sys;
                marked := marked sys |}
| step_elsewhere : forall sys d' interval,
    (* the clock moves, sessions and CMI data are written, the timer
       is started or stopped *)
    sync_queue d' = sync_queue (database (service sys)) ->
    step sys {| service := with_interval (with_database (service sys) d') interval;
                suspended := suspended sys;
                marked := marked sys |}.

Inductive reachable (sys0 : system) : system -> Prop :=
| reach_start : reachable sys0 sys0
| reach_step : forall sys sys',
    reachable sys0 sys -> step sys sys' -> reachable sys0 sys'.

(** No pass is running, nothing was marked yet, and ids are the
    primary key of the queue. *)
Definition idle (sys : system) : Prop :=
  syncing (service sys) = false
  /\ suspended sys = []
  /\ marked sys = []
  /\ NoDup (map id (sync_queue (database (service sys)))).

End WithRuntime.

End Props.

(* ================================================================== *)
(** * Notions the proofs are stated with                               *)
(* ================================================================== *)

Module Notions.
Import JS Db Call ScormApi OfflineSync Props.

(** ** Induction on values *)

(** The number of nodes of a value, for induction through nested
    objects and arrays. *)
Fixpoint size (v : value) : nat :=
  match v with
  | VPrim _ => 1%nat
  | VObj _ props => S (list_sum (map (fun kv => size (snd kv)) props))
  end.

(** ** Calls on sessions *)

(** A call that leaves the table of sessions alone. *)
Definition keeps_sessions {A : Type} (m : call A) : Prop :=
  forall d, sessions (fst (m d)) = sessions d.

(** ** Counters of the status query *)

(** The count an object of counters holds under a key. *)
Definition tally (a : string) (props : list (string * value)) : Z :=
  match lookup a props with
  | Some (VPrim (PNum n)) => n
  | _ => 0
  end.

(** Every counter held is a positive number. *)
Definition counters (props : list (string * value)) : Prop :=
  forall a x, lookup a props = Some x -> exists n, x = num n /\ 0 < n.

(** ** Rows of the queue *)

(** The queue has a row with this id, pending or not. *)
Definition has_row (q : list sync_item) (i : Z) (pending_ : bool) : Prop :=
  exists row, In row q /\ id row = i /\ is_pending row = pending_.

(** What holds of the service between any two turns. *)
Definition invariant (sys : system) : Prop :=
  let q := sync_queue (database (service sys)) in
  NoDup (map id q)
  /\ (forall i, In i (marked sys) -> has_row q i false)
  /\ NoDup (marked sys)
  /\ ((syncing (service sys) = false /\ suspended sys = [])
      \/ (syncing (service sys) = true
          /\ exists p,
               suspended sys = [p]
               /\ NoDup (map id (item p :: later p))
               /\ forall it, In it (item p :: later p) -> has_row q (id it) true)).

(** ** Decimal digits *)

(** The characters [String(n)] writes for the digits [d]. *)
Definition uint_chars (d : Decimal.uint) : list ascii :=
  list_ascii_of_string (NilEmpty.string_of_uint d).

(** The number a digit sequence denotes, continuing from [a]. *)
Fixpoint uval (a : Z) (d : Decimal.uint) : Z :=
  match d with
  | Decimal.Nil => a
  | Decimal.D0 d' => uval (a * 10 + 0) d'
  | Decimal.D1 d' => uval (a * 10 + 1) d'
  | Decimal.D2 d' => uval (a * 10 + 2) d'
  | Decimal.D3 d' => uval (a * 10 + 3) d'
  | Decimal.D4 d' => uval (a * 10 + 4) d'
  | Decimal.D5 d' => uval (a * 10 + 5) d'
  | Decimal.D6 d' => uval (a * 10 + 6) d'
  | Decimal.D7 d' => uval (a * 10 + 7) d'
  | Decimal.D8 d' => uval (a * 10 + 8) d'
  | Decimal.D9 d' => uval (a * 10 + 9) d'
  end.

(** ** Paths and records *)

(** The name [storeCmiData] gives the leaf reached through [ks]. *)
Definition path (pre : string) (ks : list string) : string :=
  fold_left element_name ks pre.

(** The segments of a prefix. *)
Definition prefix_keys (pre : string) : list string :=
  if String.eqb pre "" then [] else split dot pre.

(** A key that can be a segment: no dot in it and not empty. *)
Definition segment (k : string) : Prop := contains dot k = false /\ k <> "".

(** A record: the segments of its path and its value. *)
Definition under (k : string) (r : list string * string) : list string * string :=
  (k :: fst r, snd r).

(** The leaves of a tree with the keys that lead to them, in the
    order [storeCmiData] visits them. *)
Fixpoint leaves (v : value) : list (list string * string) :=
  match v with
  | VPrim p => [([], String_ p)]
  | VObj _ props =>
      flat_map (fun kv => map (under (fst kv)) (leaves (snd kv))) props
  end.

(** The record of a leaf under the prefix [pre]. *)
Definition named (pre : string) (r : list string * string) : string * string :=
  (path pre (fst r), snd r).

(** A record with the segments [pk] put before its path. *)
Definition prefixed (pk : list string) (r : list string * string)
  : list string * string :=
  (pk ++ fst r, snd r).

(** ** The loop of setNestedValue *)

(** What the loop needs of a key of a container of kind [kd]. *)
Definition step_key (kd : kind) (k : string) : Prop :=
  inherited_name k = false
  /\ match kd with
     | Plain => isNaN k = true
     | Array => isNaN k = false /\ index_key (parseInt k) = Ok k
                /\ String.eqb k "length" = false
     end.

(** The container [setNestedValue] creates under a key when the next
    segment is [next]. *)
Definition fresh_child (kd : kind) (next : string) : value :=
  match kd with
  | Array => empty_object
  | Plain => if negb (isNaN next) then empty_array else empty_object
  end.

(** One record applied to the tree built so far, as [getCmiData]
    does with [setNestedValue]. *)
Definition replay_step (acc : result value) (r : list string * string) : result value :=
  bind acc (fun c => set_at c (fst r) (str (snd r))).

(** All the records applied in order. *)
Definition replay (recs : list (list string * string)) (acc : result value)
  : result value :=
  fold_left replay_step recs acc.

(** The members of a container, coerced. *)
Definition cmap (props : list (string * value)) : list (string * value) :=
  map (fun kv => (fst kv, coerce (snd kv))) props.

(** The position of the members of a container. *)
Definition child_pos (kd : kind) : position :=
  match kd with
  | Plain => Member
  | Array => Element
  end.

(** ** Writes of storeCmiData *)

(** The database after one record is inserted, *)
Definition write_one (sid : string) (d : db) (r : string * string) : db :=
  fst (stmt_insertCmiData d sid (fst r) (snd r)).

(** and after a list of them. *)
Definition write_all (sid : string) (recs : list (string * string)) (d : db) : db :=
  fold_left (write_one sid) recs d.

End Notions.

(* ================================================================== *)
(** * States and inputs for the examples                               *)
(* ================================================================== *)

Module Examples.
Import JS Db Call ScormApi OfflineSync Props.

(** A runtime to run the examples with.  [JSON_parse] answers as
    [JSON.parse] does on the two texts the examples hand it, ["null"]
    and the unfinished ["{"]; the examples reach neither
    [JSON_stringify] on anything but [null] nor [Date_getTime]. *)
Definition sample_runtime : Runtime :=
  {| JSON_stringify := fun v => match v with
                                | VPrim PUndefined => None
                                | _ => Some "null"
                                end;
     JSON_parse := fun s => if String.eqb s "{" then None else Some null;
     Date_getTime := fun _ => None |}.

Definition sample_session : session :=
  {| session_id := "s1"; session_package := "p1"; user_id := SNull;
     started_at := 0; last_accessed := 0; completed := SNum 0;
     success_status := SNull; score_raw := SNull; score_min := SNull;
     score_max := SNull; session_time := SNull; total_time := SNull;
     suspend_data := SNull |}.

Definition sample_db : db :=
  {| sessions := [sample_session]; cmi_data := []; sync_queue := [];
     interactions := []; now := 100 |}.

(** Two writes to [cmi.location], a minute apart, around another
    record. *)
Definition two_writes : db :=
  {| sessions := [sample_session];
     cmi_data :=
       [ {| cmi_id := 1; cmi_session := "s1"; element := "cmi.location";
            value_ := "page-1"; timestamp := 100 |};
         {| cmi_id := 2; cmi_session := "s1"; element := "cmi.score.raw";
            value_ := "40"; timestamp := 100 |};
         {| cmi_id := 3; cmi_session := "s1"; element := "cmi.location";
            value_ := "page-2"; timestamp := 160 |} ];
     sync_queue := []; interactions := []; now := 200 |}.

Definition entry (i : Z) (act : string) (dat : option string) : sync_item :=
  {| id := i; item_session := "s1"; item_package := "p1"; action := act;
     data := dat; created_at := 0; synced := 0; synced_at := None;
     retry_count := 0 |}.

Definition service_with (q : list sync_item) : state :=
  {| database := {| sessions := [sample_session]; cmi_data := [];
                    sync_queue := q; interactions := []; now := 100 |};
     syncing := false; syncInterval := None; console_error := [] |}.

(** A backlog of 1001 pending commits. *)
Definition crowded : state :=
  service_with (map (fun i => entry (Z.of_nat i) "commit" (Some "null")) (seq 1 1001)).

(** One pending entry whose payload is not JSON. *)
Definition stuck : state := service_with [entry 1 "commit" (Some "{")].

(** The service idle over that entry, and with a pass begun on it. *)
Definition waiting : system :=
  {| service := stuck; suspended := []; marked := [] |}.

Definition in_flight : system :=
  {| service := fst (begin stuck);
     suspended := continues (snd (begin stuck)) ++ [];
     marked := [] |}.

End Examples.

(* ================================================================== *)
(** * Packages and the rest of the schema                              *)
(* ================================================================== *)

Module Store.
Import JS Db Call ScormApi.

(** Table [packages]; a nullable TEXT column is an [option string]. *)
Record package : Type := {
  package_id : string;
  title : string;
  version : option string;
  scorm_version : string;
  identifier : option string;
  launch_path : string;
  metadata : option string;
  file_path : string;
  file_size : option Z;
  uploaded_at : Z;
  updated_at : Z
}.

(** The database file with all five tables. *)
Record store : Type := {
  packages : list package;
  tables : db
}.

Definition with_tables (s : store) (d : db) : store :=
  {| packages := packages s; tables := d |}.

(** A call on the four tables of [db], run on the whole file. *)
Definition on_tables {A : Type} (m : call A) (s : store) : store * result A :=
  let '(d, r) := m (tables s) in (with_tables s d, r).

(** *** Packages *)

(** [INSERT INTO packages (id, title, version, scorm_version,
     identifier, launch_path, metadata, file_path, file_size)] *)
Definition stmt_insertPackage (s : store) (pid title_ : string)
           (version_ : option string) (scorm_version_ : string)
           (identifier_ : option string) (launch_path_ : string)
           (metadata_ : option string) (file_path_ : string)
           (file_size_ : option Z) : store * result unit :=
  if existsb (fun p => String.eqb (package_id p) pid) (packages s)
  then (s, Throw (Error "UNIQUE constraint failed: packages.id"))
  else
    ({| packages :=
          packages s ++
          [{| package_id := pid; title := title_; version := version_;
              scorm_version := scorm_version_; identifier := identifier_;
              launch_path := launch_path_; metadata := metadata_;
              file_path := file_path_; file_size := file_size_;
              uploaded_at := now (tables s); updated_at := now (tables s) |}];
        tables := tables s |},
     Ok tt).

(** [SELECT * FROM packages WHERE id = ?] *)
Definition stmt_getPackage (s : store) (pid : string) : option package :=
  find (fun p => String.eqb (package_id p) pid) (packages s).

(** The sessions a package takes with it. *)
Definition of_package (d : db) (pid sid : string) : bool :=
  existsb (fun x => String.eqb (session_id x) sid
                    && String.eqb (session_package x) pid)
          (sessions d).

(** [DELETE FROM packages WHERE id = ?] with [foreign_keys = ON]:
    [ON DELETE CASCADE] removes the sessions of the package and, with
    each of them, its CMI records and its interactions.  The sync
    queue has no foreign key.  The ids of the rows are
    [AUTOINCREMENT]: the database never gives the id of a deleted row
    again, where [next_id] takes the successor of the largest id
    left, so the ids given after a delete are not those of the
    database when the last rows of a table went with it. *)
Definition stmt_deletePackage (s : store) (pid : string) : store :=
  match stmt_getPackage s pid with
  | None => s
  | Some _ =>
      let d := tables s in
      {| packages :=
           filter (fun p => negb (String.eqb (package_id p) pid)) (packages s);
         tables :=
           {| sessions :=
                filter (fun x => negb (String.eqb (session_package x) pid))
                       (sessions d);
              cmi_data :=
                filter (fun r => negb (of_package d pid (cmi_session r)))
                       (cmi_data d);
              sync_queue := sync_queue d;
              interactions :=
                filter (fun r => negb (of_package d pid (int_session r)))
                       (interactions d);
              now := now d |} |}
  end.

(** *** Sessions *)

(** [INSERT INTO scorm_sessions (id, package_id, user_id)]: the
    primary key must be new and the package must exist; the other
    columns take their defaults. *)
Definition stmt_insertSession (s : store) (sid pid : string) (uid : option string)
  : store * result unit :=
  let d := tables s in
  if existsb (fun x => String.eqb (session_id x) sid) (sessions d)
  then (s, Throw (Error "UNIQUE constraint failed: scorm_sessions.id"))
  else
    match stmt_getPackage s pid with
    | None => (s, Throw (Error "FOREIGN KEY constraint failed"))
    | Some _ =>
        (with_tables s
           (with_sessions d
              (sessions d ++
               [{| session_id := sid; session_package := pid;
                   user_id := match uid with Some u => SText u | None => SNull end;
                   started_at := now d; last_accessed := now d;
                   completed := SNum 0; success_status := SNull;
                   score_raw := SNull; score_min := SNull; score_max := SNull;
                   session_time := SNull; total_time := SNull;
                   suspend_data := SNull |}])),
         Ok tt)
    end.

(** [SELECT * FROM scorm_sessions WHERE package_id = ?]; there is no
    [ORDER BY], the rows are listed as the table holds them. *)
Definition stmt_getSessionsByPackage (d : db) (pid : string) : list session :=
  filter (fun x => String.eqb (session_package x) pid) (sessions d).

(** [SELECT * FROM scorm_sessions WHERE user_id = ?]; a NULL never
    compares equal, whether it is bound or stored. *)
Definition stmt_getSessionsByUser (d : db) (uid : option string) : list session :=
  match uid with
  | None => []
  | Some u =>
      filter (fun x => match user_id x with
                       | SText v => String.eqb v u
                       | _ => false
                       end)
             (sessions d)
  end.

(** *** Interactions *)

(** The order of [ORDER BY] on a column: NULL first, then numbers,
    then text. *)
Definition sql_le (a b : sqlval) : bool :=
  match a, b with
  | SNull, _ => true
  | SNum _, SNull => false
  | SNum x, SNum y => x <=? y
  | SNum _, SText _ => true
  | SText x, SText y => String.leb x y
  | SText _, _ => false
  end.

(** [SELECT * FROM interactions WHERE session_id = ?
     ORDER BY timestamp ASC] *)
Definition stmt_getInteractions (d : db) (sid : string) : list interaction_row :=
  order_by (fun a b => sql_le (int_timestamp a) (int_timestamp b))
    (filter (fun r => String.eqb (int_session r) sid) (interactions d)).

End Store.

(* ================================================================== *)
(** * [ScormApiService]: sessions and what is read back                *)
(* ================================================================== *)

Module Sessions.
Import JS Db Call ScormApi Store.

(** A parameter bound to a TEXT column or compared with one: a
    string or NULL.  A boolean is refused by the driver; numbers,
    which the column would store converted to text, and objects,
    which the driver reads as collections of parameters, are left
    out. *)
Definition bind_text (v : value) : result (option string) :=
  match v with
  | VPrim (PStr s) => Ok (Some s)
  | VPrim PNull | VPrim PUndefined => Ok None
  | VPrim (PBool _) => Throw TypeError
  | VPrim (PNum _) => OutOfModel
  | VObj _ _ => OutOfModel
  end.

(** The parameter default [userId = null]. *)
Definition default_null (v : value) : value :=
  match v with
  | VPrim PUndefined => null
  | _ => v
  end.

(** ** [initializeSession]; [fresh] is what [uuidv4()] returned. *)
Definition initializeSession (fresh packageId : string) (userId : value) (s : store)
  : store * result value :=
  let userId' := default_null userId in
  match bind_text userId' with
  | Ok uid =>
      match stmt_insertSession s fresh packageId uid with
      | (s', Ok _) =>
          (s', Ok (obj [("success", boolean true); ("sessionId", str fresh);
                        ("packageId", str packageId); ("userId", userId')]))
      | (s', Throw e) => (s', Throw (Wrapped "Failed to initialize session" e))
      | (s', OutOfModel) => (s', OutOfModel)
      end
  | Throw e => (s, Throw (Wrapped "Failed to initialize session" e))
  | OutOfModel => (s, OutOfModel)
  end.

(** ** [getSessionsByPackage], [getSessionsByUser] *)

Definition getSessionsByPackage (packageId : string) : call (list session) :=
  query (fun d => stmt_getSessionsByPackage d packageId).

Definition getSessionsByUser (userId : value) : call (list session) :=
  fun d =>
    (d, bind (bind_text userId) (fun uid => Ok (stmt_getSessionsByUser d uid))).

Section WithRuntime.
Context {RT : Runtime}.
Local Open Scope call_scope.

(** ** [getInteractions] *)

(** [interaction.correct_responses
      ? JSON.parse(interaction.correct_responses) : null] *)
Definition parse_responses (column : sqlval) : result value :=
  match column with
  | SNull => Ok null
  | SText text =>
      if truthy (str text) then
        match JSON_parse text with
        | Some v => Ok v
        | None => Throw SyntaxError
        end
      else Ok null
  | SNum _ => OutOfModel
  end.

(** [interactions.map(interaction => ({...interaction,
      correct_responses: ...}))]: each row with the value that
    takes the place of its [correct_responses]. *)
Fixpoint parse_each (rows : list interaction_row)
  : result (list (interaction_row * value)) :=
  match rows with
  | [] => Ok []
  | row :: rest =>
      bind (parse_responses (correct_responses row)) (fun v =>
      bind (parse_each rest) (fun l => Ok ((row, v) :: l)))
  end.

Definition getInteractions (sessionId : string)
  : call (list (interaction_row * value)) :=
  fun d => (d, parse_each (stmt_getInteractions d sessionId)).

(** ** [loadInitialData] *)

Record initial_data : Type := {
  initial_session : session;
  initial_cmi : value;
  initial_interactions : list (interaction_row * value)
}.

Definition loadInitialData (sessionId : string) : call (option initial_data) :=
  session_ <- getSession sessionId ;;
  match session_ with
  | None => ret None
  | Some row =>
      cmiData <- getCmiData sessionId None ;;
      interactions_ <- getInteractions sessionId ;;
      ret (Some {| initial_session := row; initial_cmi := cmiData;
                   initial_interactions := interactions_ |})
  end.

End WithRuntime.

End Sessions.

(* ================================================================== *)
(** * [PackageHandler.getPackage]                                      *)
(* ================================================================== *)

Module PackageHandler.
Import JS Db Call ScormApi Store.

Section WithRuntime.
Context {RT : Runtime}.

(** The row with its [metadata] parsed; a NULL column reads as
    [null], which parses to [null]. *)
Definition getPackage (packageId : string) (s : store)
  : result (option (package * value)) :=
  match stmt_getPackage s packageId with
  | None => Ok None
  | Some pkg =>
      match (match metadata pkg with
             | None => Some null
             | Some text => JSON_parse text
             end) with
      | Some parsed => Ok (Some (pkg, parsed))
      | None => Throw SyntaxError
      end
  end.

End WithRuntime.

End PackageHandler.

(* ================================================================== *)
(** * The request handlers                                             *)
(* ================================================================== *)

Module Http.
Import JS Db Call.

(** What a handler sends: [res.json(body)], a refusal
    [res.status(status).json({success: false, error})] with a fixed
    message, or the answer of a [catch] block,
    [res.status(500).json({success: false, error: error.message})],
    with the [errorCode] the commit handler adds. *)
Inductive reply (A : Type) : Type :=
| Json (body : A)
| Refused (status : Z) (error : string)
| Failed (e : js_error) (errorCode : option Z).
Arguments Json {A} body.
Arguments Refused {A} status error.
Arguments Failed {A} e errorCode.

(** [try { ... } catch (error) { res.status(500).json(...) }] *)
Definition caught {S A : Type} (errorCode : option Z)
           (m : S -> S * result (reply A)) : S -> S * result (reply A) :=
  fun s =>
    match m s with
    | (s', Throw e) => (s', Ok (Failed e errorCode))
    | other => other
    end.

(** A session id taken from a request: [None] when it is falsy;
    a truthy one that is not a string leaves the embedding. *)
Definition session_id_of (v : value) : result (option string) :=
  if truthy v then
    match v with
    | VPrim (PStr s) => Ok (Some s)
    | _ => OutOfModel
    end
  else Ok None.

End Http.

Module ScormController.
Import JS Db Call ScormApi Store Sessions Http.

Section WithRuntime.
Context {RT : Runtime}.
Local Open Scope call_scope.

(** The body of the answer of [initializeSession]: the result of the
    service spread, with [initialData]. *)
Record initialized : Type := {
  result_ : value;
  initialData : option initial_data
}.

(** ** [initializeSession]; [packageId] is [req.params.packageId],
    [body] is [req.body]. *)
Definition initializeSession (fresh packageId : string) (body : value)
  : store -> store * result (reply initialized) :=
  caught None
    (fun s =>
       match field body "userId" with
       | Ok userId =>
           match PackageHandler.getPackage packageId s with
           | Ok None => (s, Ok (Refused 404 "Package not found"))
           | Ok (Some _) =>
               match Sessions.initializeSession fresh packageId userId s with
               | (s1, Ok r) =>
                   match field body "resume" with
                   | Ok resume =>
                       if truthy resume then
                         match on_tables (loadInitialData fresh) s1 with
                         | (s2, Ok loaded) =>
                             (s2, Ok (Json {| result_ := r; initialData := loaded |}))
                         | (s2, Throw e) => (s2, Throw e)
                         | (s2, OutOfModel) => (s2, OutOfModel)
                         end
                       else (s1, Ok (Json {| result_ := r; initialData := None |}))
                   | Throw e => (s1, Throw e)
                   | OutOfModel => (s1, OutOfModel)
                   end
               | (s1, Throw e) => (s1, Throw e)
               | (s1, OutOfModel) => (s1, OutOfModel)
               end
           | Throw e => (s, Throw e)
           | OutOfModel => (s, OutOfModel)
           end
       | Throw e => (s, Throw e)
       | OutOfModel => (s, OutOfModel)
       end).

(** ** [getValue]; [element] is [req.params.element], [sessionId] is
    [req.query.sessionId]. *)
Definition getValue (element : string) (sessionId : value) : call (reply value) :=
  caught None
    (id_ <- lift (session_id_of sessionId) ;;
     match id_ with
     | None => ret (Refused 400 "Session ID required")
     | Some sid =>
         v <- getCmiData sid (Some element) ;;
         ret (Json (obj [("success", boolean true); ("element", str element);
                         ("value", v)]))
     end).

(** A value bound to the TEXT column [cmi_data.value]: a string is
    stored as it is and a boolean is refused by the driver; the
    other values are left out. *)
Definition bind_cmi_value (v : value) : result string :=
  match v with
  | VPrim (PStr s) => Ok s
  | VPrim (PBool _) => Throw (Wrapped "Failed to set CMI data" TypeError)
  | _ => OutOfModel
  end.

(** ** [setValue]; [body] is [req.body]. *)
Definition setValue (element : string) (body : value) : call (reply value) :=
  caught None
    (sessionId <- lift (field body "sessionId") ;;
     v <- lift (field body "value") ;;
     id_ <- lift (session_id_of sessionId) ;;
     match id_ with
     | None => ret (Refused 400 "Session ID required")
     | Some sid =>
         text <- lift (bind_cmi_value v) ;;
         setCmiData sid element text ;;;
         ret (Json (obj [("success", boolean true); ("element", str element);
                         ("value", v)]))
     end).

(** ** [commit] *)
Definition commit (body : value) : call (reply value) :=
  caught (Some 101)
    (sessionId <- lift (field body "sessionId") ;;
     data_ <- lift (field body "data") ;;
     id_ <- lift (session_id_of sessionId) ;;
     match id_ with
     | None => ret (Refused 400 "Session ID required")
     | Some sid =>
         r <- commitSession sid (or_else data_ empty_object) ;;
         ret (Json r)
     end).

(** ** [terminateSession] *)
Definition terminateSession (body : value) : call (reply value) :=
  caught None
    (sessionId <- lift (field body "sessionId") ;;
     data_ <- lift (field body "data") ;;
     id_ <- lift (session_id_of sessionId) ;;
     match id_ with
     | None => ret (Refused 400 "Session ID required")
     | Some sid =>
         r <- ScormApi.terminateSession sid (or_else data_ empty_object) ;;
         ret (Json r)
     end).

(** ** [getSession]; [sessionId] is [req.params.sessionId].  The
    body sent is [{success: true, session, cmi, interactions}]. *)
Definition getSession (sessionId : string) : call (reply initial_data) :=
  caught None
    (session_ <- ScormApi.getSession sessionId ;;
     match session_ with
     | None => ret (Refused 404 "Session not found")
     | Some row =>
         cmiData <- getCmiData sessionId None ;;
         interactions_ <- getInteractions sessionId ;;
         ret (Json {| initial_session := row; initial_cmi := cmiData;
                      initial_interactions := interactions_ |})
     end).

(** ** [getPackageSessions], [getUserSessions]: the sessions with
    their [count]. *)
Definition getPackageSessions (packageId : string)
  : call (reply (list session * Z)) :=
  caught None
    (sessions_ <- getSessionsByPackage packageId ;;
     ret (Json (sessions_, Z.of_nat (List.length sessions_)))).

Definition getUserSessions (userId : string) : call (reply (list session * Z)) :=
  caught None
    (sessions_ <- getSessionsByUser (str userId) ;;
     ret (Json (sessions_, Z.of_nat (List.length sessions_)))).

End WithRuntime.

End ScormController.

Module SyncController.
Import JS Db Call ScormApi OfflineSync Http.

Section WithRuntime.
Context {RT : Runtime}.

(** An action of an uploaded batch: an object whose [type] is a
    string; anything else leaves the embedding. *)
Definition action_of (v : value) : result offline_action :=
  match v with
  | VObj _ props =>
      match get_own "type" props with
      | VPrim (PStr t) => Ok {| type_ := t; data_ := get_own "data" props |}
      | _ => OutOfModel
      end
  | VPrim _ => OutOfModel
  end.

Fixpoint actions_of (l : list value) : result (list offline_action) :=
  match l with
  | [] => Ok []
  | v :: rest =>
      bind (action_of v) (fun a =>
      bind (actions_of rest) (fun l' => Ok (a :: l')))
  end.

(** The three fields of [req.body] once they are known to be truthy:
    two strings and an array of actions. *)
Definition batch_of (sessionId_ packageId_ actions_ : value) : result offline_data :=
  match sessionId_, packageId_, actions_ with
  | VPrim (PStr sid), VPrim (PStr pid), VObj Array props =>
      bind (actions_of (array_items props)) (fun l =>
      Ok {| sessionId := sid; packageId := pid; actions := l |})
  | _, _, _ => OutOfModel
  end.

(** ** [uploadOfflineData] *)
Definition uploadOfflineData (body : value) : state -> state * result (reply value) :=
  caught None
    (fun st =>
       match field body "sessionId", field body "packageId", field body "actions" with
       | Ok sessionId_, Ok packageId_, Ok actions_ =>
           if negb (truthy sessionId_) || negb (truthy packageId_)
              || negb (truthy actions_)
           then (st, Ok (Refused 400
                   "Missing required fields: sessionId, packageId, actions"))
           else
             match batch_of sessionId_ packageId_ actions_ with
             | Ok batch =>
                 match uploadOfflineSession batch st with
                 | (st', Ok r) => (st', Ok (Json r))
                 | (st', Throw e) => (st', Throw e)
                 | (st', OutOfModel) => (st', OutOfModel)
                 end
             | Throw e => (st, Throw e)
             | OutOfModel => (st, OutOfModel)
             end
       | Throw e, _, _ => (st, Throw e)
       | _, Throw e, _ => (st, Throw e)
       | _, _, Throw e => (st, Throw e)
       | _, _, _ => (st, OutOfModel)
       end).

(** ** [getSyncStatus], [triggerSync] *)
Definition getSyncStatus (st : state) : state * result (reply status) :=
  caught None (fun st => (st, bind (OfflineSync.getSyncStatus st)
                                   (fun s => Ok (Json s)))) st.

Definition triggerSync (st : state) : state * result (reply report) :=
  let '(st', r) := OfflineSync.triggerSync st in (st', Ok (Json r)).

(** ** [startAutoSync], [stopAutoSync]; [interval] is
    [req.body.interval]: a number, or [undefined] for the default of
    a minute. *)
Definition startAutoSync (body : value) : state -> state * result (reply string) :=
  caught None
    (fun st =>
       match field body "interval" with
       | Ok (VPrim (PNum n)) => (OfflineSync.startAutoSync n st, Ok (Json "Auto-sync started"))
       | Ok (VPrim PUndefined) =>
           (OfflineSync.startAutoSync 60000 st, Ok (Json "Auto-sync started"))
       | Ok _ => (st, OutOfModel)
       | Throw e => (st, Throw e)
       | OutOfModel => (st, OutOfModel)
       end).

Definition stopAutoSync (st : state) : state * result (reply string) :=
  (OfflineSync.stopAutoSync st, Ok (Json "Auto-sync stopped")).

End WithRuntime.

End SyncController.

(* ================================================================== *)
(** * Vocabulary of the further properties                              *)
(* ================================================================== *)

Module PassNotions.
Import JS Db Call ScormApi OfflineSync Props.

Section WithRuntime.
Context {RT : Runtime}.

(** Whether processing an entry resolves. *)
Definition resolves (it : sync_item) : bool :=
  match processSyncItem it with
  | None => true
  | Some _ => false
  end.

(** What a pass over [batch] at the clock [t] leaves of a row of the
    queue. *)
Definition settled (batch : list sync_item) (t : Z) (r : sync_item) : sync_item :=
  if existsb (fun it => id it =? id r) batch
  then (if resolves r then mark_row t r else retry_row r)
  else r.

(** Lines of the error log about one entry. *)
Definition is_failure (i : Z) (l : error_line) : bool :=
  match l with
  | FailedToSync j _ => j =? i
  | MaxRetriesExceeded _ => false
  end.

Definition is_exhausted (i : Z) (l : error_line) : bool :=
  match l with
  | FailedToSync _ _ => false
  | MaxRetriesExceeded j => j =? i
  end.

Definition count_lines (f : error_line -> bool) (st : state) : Z :=
  Z.of_nat (List.length (filter f (console_error st))).

(** What holds of a queue whose oldest hundred entries all reject. *)
Definition blocked (st : state) (blockers rest : list sync_item) : Prop :=
  syncing st = false
  /\ sync_queue (database st) = blockers ++ rest
  /\ NoDup (map id (blockers ++ rest))
  /\ (100 <= List.length blockers)%nat
  /\ (forall b, In b blockers -> synced b = 0 /\ resolves b = false)
  /\ (forall b r, In b blockers -> In r rest -> created_at b <= created_at r).

End WithRuntime.
End PassNotions.

Module HistoryNotions.
Import JS Db Call ScormApi OfflineSync Props.

(** ** What a commit may change *)

(** [d'] is [d] after writes on behalf of the session [sid]: CMI
    records and interactions of that session were appended, the
    records stamped with the clock, and only if the session exists;
    the row of that session may have been rewritten, under the same
    id and package; nothing was removed or changed otherwise. *)
Definition extends (sid : string) (d d' : db) : Prop :=
  now d' = now d
  /\ sync_queue d' = sync_queue d
  /\ (exists rows,
         cmi_data d' = cmi_data d ++ rows
         /\ Forall (fun r => cmi_session r = sid /\ timestamp r = now d) rows
         /\ (rows <> [] -> stmt_getSession d sid <> None))
  /\ (exists rows,
         interactions d' = interactions d ++ rows
         /\ Forall (fun r => int_session r = sid) rows
         /\ (rows <> [] -> stmt_getSession d sid <> None))
  /\ map session_id (sessions d') = map session_id (sessions d)
  /\ map session_package (sessions d') = map session_package (sessions d)
  /\ (forall other, other <> sid -> stmt_getSession d' other = stmt_getSession d other).

(** A call that only appends CMI records of the session, *)
Definition writes_records (sid : string) {A : Type} (m : call A) : Prop :=
  forall d, exists rows,
    fst (m d) = with_cmi_data d (cmi_data d ++ rows)
    /\ Forall (fun r => cmi_session r = sid /\ timestamp r = now d) rows
    /\ (rows <> [] -> stmt_getSession d sid <> None).

(** and one that only appends interactions of the session. *)
Definition writes_interactions (sid : string) {A : Type} (m : call A) : Prop :=
  forall d, exists rows,
    fst (m d) = with_interactions d (interactions d ++ rows)
    /\ Forall (fun r => int_session r = sid) rows
    /\ (rows <> [] -> stmt_getSession d sid <> None).

(** An interaction the loop of [storeInteractions] stores. *)
Definition identified (interaction : value) : bool :=
  truthy (opt_field interaction "id").

(** The interactions a commit goes through. *)
Definition listed (cmi : value) : list value :=
  if truthy (opt_field cmi "interactions")
  then interaction_list (opt_field cmi "interactions")
  else [].

(** A value a TEXT column keeps as it is bound: a string, or NULL. *)
Definition textual (v : value) : bool :=
  match v with
  | VPrim (PStr _) | VPrim PNull | VPrim PUndefined => true
  | _ => false
  end.

(** A value a REAL column keeps as it is bound: a number, or NULL. *)
Definition numeric (v : value) : bool :=
  match v with
  | VPrim (PNum _) | VPrim PNull | VPrim PUndefined => true
  | _ => false
  end.

(** The five extracted fields are kept by their columns as they are
    bound: [score_raw] is REAL, the other four are TEXT. *)
Definition summary_plain (f : summary) : bool :=
  textual (successStatus f) && numeric (scoreRaw f)
  && textual (sessionTime f) && textual (totalTime f)
  && textual (suspendData f).

(** The database when the clock reads [t]. *)
Definition at_clock (t : Z) (d : db) : db :=
  {| sessions := sessions d; cmi_data := cmi_data d; sync_queue := sync_queue d;
     interactions := interactions d; now := t |}.

End HistoryNotions.

Module IntegrityNotions.
Import JS Db Call ScormApi OfflineSync Props Store Sessions.

(** ** Integrity of the database file *)

(** Keys are unique and every foreign key points at a row: each
    session at its package, each CMI record and each interaction at
    its session. *)
Definition consistent (s : store) : Prop :=
  let d := tables s in
  NoDup (map package_id (packages s))
  /\ NoDup (map session_id (sessions d))
  /\ (forall x, In x (sessions d) -> stmt_getPackage s (session_package x) <> None)
  /\ (forall r, In r (cmi_data d) -> stmt_getSession d (cmi_session r) <> None)
  /\ (forall r, In r (interactions d) -> stmt_getSession d (int_session r) <> None).

(** The row [insertSession] creates. *)
Definition new_session (d : db) (sid pid : string) (uid : option string) : session :=
  {| session_id := sid; session_package := pid;
     user_id := match uid with Some u => SText u | None => SNull end;
     started_at := now d; last_accessed := now d;
     completed := SNum 0; success_status := SNull;
     score_raw := SNull; score_min := SNull; score_max := SNull;
     session_time := SNull; total_time := SNull; suspend_data := SNull |}.

End IntegrityNotions.

Module ShapeNotions.
Import JS Db Call ScormApi OfflineSync Props.

(** Two trees of the same shape: the same containers with the same
    keys in the same order, and a leaf where the other has a leaf. *)
Section Members.
Variable shape : value -> value -> bool.

Fixpoint same_members (la lb : list (string * value)) : bool :=
  match la, lb with
  | [], [] => true
  | (k1, x1) :: la', (k2, x2) :: lb' =>
      String.eqb k1 k2 && shape x1 x2 && same_members la' lb'
  | _, _ => false
  end.

End Members.

Fixpoint same_shape (a b : value) {struct a} : bool :=
  match a, b with
  | VPrim _, VPrim _ => true
  | VObj Plain pa, VObj Plain pb => same_members same_shape pa pb
  | VObj Array pa, VObj Array pb => same_members same_shape pa pb
  | _, _ => false
  end.

End ShapeNotions.

(* ================================================================== *)
(** * Further samples                                                   *)
(* ================================================================== *)

Module Samples.
Import JS Db Call ScormApi OfflineSync Props Examples.

(** A queue with an entry that resolves, one that rejects and one of
    an unknown kind. *)
Definition mixed : state :=
  service_with [entry 1 "commit" (Some "null"); entry 2 "commit" (Some "{");
                entry 3 "other" None].

(** A hundred entries that reject, and one queued a minute later
    that would resolve. *)
Definition rejects : list sync_item :=
  map (fun i => entry (Z.of_nat i) "commit" (Some "{")) (seq 1 100).

Definition late : sync_item :=
  {| id := 101; item_session := "s1"; item_package := "p1"; action := "commit";
     data := Some "null"; created_at := 60; synced := 0; synced_at := None;
     retry_count := 0 |}.

Definition jammed : state := service_with (rejects ++ [late]).

(** An upload of two actions. *)
Definition two_actions : offline_data :=
  {| sessionId := "s1"; packageId := "p1";
     actions := [ {| type_ := "initialize"; data_ := undefined |};
                  {| type_ := "commit"; data_ := obj [("cmi", empty_object)] |} ] |}.

(** A service with one entry synced earlier and one pending. *)
Definition half_done : system :=
  {| service := service_with [mark_row 50 (entry 1 "commit" (Some "null"));
                              entry 2 "commit" (Some "null")];
     suspended := []; marked := [] |}.

(** Two writes to [cmi.location] within one second. *)
Definition same_second : db :=
  {| sessions := [sample_session];
     cmi_data :=
       [ {| cmi_id := 1; cmi_session := "s1"; element := "cmi.location";
            value_ := "page-1"; timestamp := 100 |};
         {| cmi_id := 2; cmi_session := "s1"; element := "cmi.location";
            value_ := "page-2"; timestamp := 100 |} ];
     sync_queue := []; interactions := []; now := 200 |}.

(** A commit whose summary is stored and whose tree is refused. *)
Definition broken_commit : value :=
  obj [("cmi", obj [("suspend_data", str "page-3");
                    ("objectives", arr [("0", null)])])].

(** A commit that lists two interactions, one without an id. *)
Definition answered : value :=
  obj [("cmi", obj [("interactions",
                     arr [("0", obj [("id", str "q1"); ("result", str "correct")]);
                          ("1", obj [("result", str "wrong")])])])].

(** An interaction with an empty list of correct responses. *)
Definition question : value :=
  obj [("id", str "q1"); ("type", str "choice");
       ("correct_responses", empty_array); ("result", str "correct")].

End Samples.

Module StoreSamples.
Import JS Db Call ScormApi OfflineSync Props Examples Store Sessions Samples.

(** A runtime that knows the JSON texts of [null] and of the empty
    array. *)
Definition literal_runtime : Runtime :=
  {| JSON_stringify := fun v => match v with
                                | VPrim PNull => Some "null"
                                | VObj Array [] => Some "[]"
                                | _ => None
                                end;
     JSON_parse := fun s => if String.eqb s "null" then Some null
                            else if String.eqb s "[]" then Some empty_array
                            else None;
     Date_getTime := fun _ => None |}.

Definition sample_package : package :=
  {| package_id := "p1"; title := "Course"; version := None;
     scorm_version := "1.2"; identifier := None; launch_path := "index.html";
     metadata := Some "null"; file_path := "packages/p1"; file_size := None;
     uploaded_at := 0; updated_at := 0 |}.

(** The sample database with the package of its session. *)
Definition sample_store : store :=
  {| packages := [sample_package]; tables := sample_db |}.

(** Two packages, a session on each, and a record, an interaction
    and a queued entry for the session of the first. *)
Definition library : store :=
  {| packages :=
       [sample_package;
        {| package_id := "p2"; title := "Other"; version := None;
           scorm_version := "2004"; identifier := None; launch_path := "index.html";
           metadata := Some "null"; file_path := "packages/p2"; file_size := None;
           uploaded_at := 0; updated_at := 0 |}];
     tables :=
       {| sessions :=
            [sample_session;
             {| session_id := "s2"; session_package := "p2"; user_id := SText "u1";
                started_at := 0; last_accessed := 0; completed := SNum 0;
                success_status := SNull; score_raw := SNull; score_min := SNull;
                score_max := SNull; session_time := SNull; total_time := SNull;
                suspend_data := SNull |}];
          cmi_data :=
            [{| cmi_id := 1; cmi_session := "s1"; element := "cmi.location";
                value_ := "page-1"; timestamp := 50 |};
             {| cmi_id := 2; cmi_session := "s2"; element := "cmi.location";
                value_ := "page-7"; timestamp := 60 |}];
          sync_queue := [entry 1 "commit" (Some "null")];
          interactions :=
            [{| int_id := 1; int_session := "s1"; interaction_id := SText "q1";
                int_type := SNull; int_timestamp := SNull; correct_responses := SNull;
                learner_response := SNull; int_result := SText "correct";
                latency := SNull; description := SNull |}];
          now := 100 |} |}.

End StoreSamples.

(* ================================================================== *)
(** * Facts about the JavaScript fragment                              *)
(* ================================================================== *)

Module JSFacts.
Import JS Notions.

Lemma size_member k x kd props :
  In (k, x) props -> (size x < size (VObj kd props))%nat.
Proof.
  simpl. induction props as [|[k' x'] ps IH]; simpl; intros H.
  - contradiction.
  - destruct H as [H|H].
    + inversion H; subst. lia.
    + specialize (IH H). lia.
Qed.

Lemma string_eqb_refl s : String.eqb s s = true.
Proof. apply String.eqb_eq. reflexivity. Qed.

Lemma is_string_truthy v s :
  ScormApi.is_string v s = true -> s <> "" -> truthy v = true.
Proof.
  destruct v as [[| |b|n|t]|]; simpl; try discriminate.
  intros H Hs. apply String.eqb_eq in H. subst t.
  destruct s; [contradiction|reflexivity].
Qed.

Lemma bind_ok {A B} (r : result A) (f : A -> result B) b :
  bind r f = Ok b -> exists a, r = Ok a /\ f a = Ok b.
Proof. destruct r; simpl; try discriminate. eauto. Qed.

End JSFacts.

(* ================================================================== *)
(** * Completion derived from a commit                                 *)
(* ================================================================== *)

Module CompletionFacts.
Import JS Db Call ScormApi Props JSFacts Notions.

(** C2, as stated, fails: a truthy newer field decides alone, so a
    payload whose newer field is ["incomplete"] and whose older field is
    ["passed"] derives [false] where the stated disjunction is true. *)
Lemma C2_counterexample :
  let payload :=
    obj [("cmi", obj [("completion_status", str "incomplete");
                      ("core", obj [("lesson_status", str "passed")])])] in
  spec_completion payload = true
  /\ determineCompletion payload = Ok false.
Proof. split; reflexivity. Qed.

(** C2, amended: the derived completion flag is true exactly when
    [cmi.completion_status] equals ["completed"], or
    [cmi.completion_status] is absent or falsy and
    [cmi.core.lesson_status] equals ["completed"] or ["passed"]; the
    legacy commit [{cmi: {core: {lesson_status: "passed"}}}] derives
    [true]. *)
Theorem C2_completion_prefers_newer_field :
  forall commitData c,
    field commitData "cmi" = Ok c ->
    let cmi := or_else c empty_object in
    let newer := opt_field cmi "completion_status" in
    let older := opt_field (opt_field cmi "core") "lesson_status" in
    (exists b,
        determineCompletion commitData = Ok b
        /\ (b = true <->
            is_string newer "completed" = true
            \/ (truthy newer = false
                /\ (is_string older "completed" = true
                    \/ is_string older "passed" = true))))
    /\ determineCompletion
         (obj [("cmi", obj [("core", obj [("lesson_status", str "passed")])])])
       = Ok true.
Proof.
  intros commitData c Hc cmi newer older.
  split; [|reflexivity].
  unfold determineCompletion. rewrite Hc. simpl bind.
  fold cmi. fold newer. fold older.
  destruct (truthy newer) eqn:Hn.
  - exists (is_string newer "completed"). split; [reflexivity|].
    split; [intros H; left; exact H|].
    intros [H|[H _]]; [exact H|discriminate].
  - assert (Hneq : is_string newer "completed" = false).
    { destruct (is_string newer "completed") eqn:E; [|reflexivity].
      apply is_string_truthy in E; [congruence|discriminate]. }
    destruct (truthy older) eqn:Ho.
    + exists (is_string older "completed" || is_string older "passed").
      split; [reflexivity|]. rewrite Hneq. split.
      * intros H. right. split; [reflexivity|].
        apply orb_true_iff in H. exact H.
      * intros [H|[_ H]]; [discriminate|]. apply orb_true_iff. exact H.
    + exists false. split; [reflexivity|]. rewrite Hneq. split.
      * discriminate.
      * intros [H|[_ [H|H]]]; [discriminate| |];
          apply is_string_truthy in H; congruence || discriminate.
Qed.

Lemma C2_completion_prefers_newer_field_witness :
  exists b,
    determineCompletion
      (obj [("cmi", obj [("completion_status", str "completed")])]) = Ok b
    /\ b = true.
Proof.
  destruct (C2_completion_prefers_newer_field
              (obj [("cmi", obj [("completion_status", str "completed")])])
              (obj [("completion_status", str "completed")])
              eq_refl) as [[b [Hb Hiff]] _].
  exists b. split; [exact Hb|].
  apply Hiff. left. reflexivity.
Defined.

End CompletionFacts.

(* ================================================================== *)
(** * Commit and terminate                                             *)
(* ================================================================== *)

Module SessionFacts.
Import JS Db Call ScormApi Props Examples JSFacts Notions HistoryNotions Samples.

Lemma keeps_and_then {A B} (m : call A) (f : A -> call B) :
  keeps_sessions m -> (forall a, keeps_sessions (f a)) ->
  keeps_sessions (and_then m f).
Proof.
  intros Hm Hf d. unfold and_then. specialize (Hm d).
  destruct (m d) as [d1 [a|e|]]; simpl in *; try assumption.
  rewrite Hf. exact Hm.
Qed.

Lemma keeps_rethrow {A} p (m : call A) :
  keeps_sessions m -> keeps_sessions (rethrow p m).
Proof.
  intros Hm d. unfold rethrow. specialize (Hm d).
  destruct (m d) as [d1 [a|e|]]; simpl in *; assumption.
Qed.

Lemma keeps_ret {A} (a : A) : keeps_sessions (ret a).
Proof. intros d. reflexivity. Qed.

Lemma keeps_raise {A} e : keeps_sessions (@raise A e).
Proof. intros d. reflexivity. Qed.

Lemma keeps_lift {A} (r : result A) : keeps_sessions (lift r).
Proof. intros d. reflexivity. Qed.

Lemma keeps_setCmiData sid el v : keeps_sessions (setCmiData sid el v).
Proof.
  apply keeps_rethrow. intros d. unfold stmt_insertCmiData.
  destruct (stmt_getSession d sid); reflexivity.
Qed.

Lemma keeps_store_chars sid pre s : forall i, keeps_sessions (store_chars sid pre i s).
Proof.
  induction s as [|c s IH]; intros i d; simpl.
  - reflexivity.
  - pose proof (keeps_setCmiData sid (element_name pre (Z_to_string i))
                                 (String c EmptyString) d) as H.
    destruct (setCmiData _ _ _ d) as [d1 [u|e|]]; simpl in *; try assumption.
    rewrite IH. exact H.
Qed.

Lemma keeps_forEach recur sid el items :
  (forall k x pre, In (k, x) items -> keeps_sessions (recur x pre)) ->
  keeps_sessions (forEach_item recur sid el items).
Proof.
  induction items as [|[index item] its IH]; intros Hrec; simpl.
  - apply keeps_ret.
  - assert (Hits : keeps_sessions (forEach_item recur sid el its)).
    { apply IH. intros k x pre Hin. apply (Hrec k). right. exact Hin. }
    destruct (array_index index); [|exact Hits].
    apply keeps_and_then; [|intros _; exact Hits].
    destruct item as [[| |b|n|t]|kd ps];
      try apply keeps_setCmiData; try apply keeps_raise.
    apply (Hrec index). left. reflexivity.
Qed.

Lemma keeps_storeCmiData sid :
  forall n v pre, (size v < n)%nat -> keeps_sessions (storeCmiData sid v pre).
Proof.
  induction n as [|n IH]; intros v pre Hn; [lia|].
  destruct v as [[| |b|z|t]|kd props]; simpl;
    try apply keeps_raise; try apply keeps_ret; try apply keeps_store_chars.
  assert (Hall : forall ps, incl ps props ->
                   keeps_sessions (each_entry (storeCmiData sid) sid pre ps)).
  { induction ps as [|[key x] ps IHps]; intros Hincl; simpl.
    - apply keeps_ret.
    - apply keeps_and_then.
      + assert (Hx : In (key, x) props) by (apply Hincl; left; reflexivity).
        pose proof (size_member _ _ kd _ Hx) as Hsz.
        unfold store_entry. destruct x as [p|[|] items].
        * apply keeps_setCmiData.
        * apply IH. lia.
        * apply keeps_forEach. intros k y pre' Hy. apply IH.
          pose proof (size_member _ _ Array _ Hy). lia.
      + intros _. apply IHps. intros y Hy. apply Hincl. right. exact Hy. }
  apply Hall. apply incl_refl.
Qed.

Section WithRuntime.
Context {RT : Runtime}.

Lemma keeps_insertInteraction sid x : keeps_sessions (insertInteraction_run sid x).
Proof.
  unfold insertInteraction_run.
  repeat (apply keeps_and_then; [first [apply keeps_lift | apply keeps_ret]|intros ?]).
  intros d. unfold stmt_insertInteraction.
  destruct (stmt_getSession d sid); reflexivity.
Qed.

Lemma keeps_each_interaction sid l : keeps_sessions (each_interaction sid l).
Proof.
  induction l as [|x l IH]; simpl.
  - apply keeps_ret.
  - apply keeps_and_then; [apply keeps_lift|]. intros ident.
    destruct (negb (truthy ident)); [exact IH|].
    apply keeps_and_then; [apply keeps_insertInteraction|intros _; exact IH].
Qed.

Lemma determineCompletion_defined commitData c :
  field commitData "cmi" = Ok c -> exists b, determineCompletion commitData = Ok b.
Proof.
  intros H. unfold determineCompletion. rewrite H. simpl.
  destruct (truthy (opt_field (or_else c empty_object) "completion_status")); eauto.
  destruct (truthy (opt_field (opt_field (or_else c empty_object) "core")
                              "lesson_status")); eauto.
Qed.

Lemma bindable_stored v : bindable v = true -> bind_value v = Ok (stored v).
Proof.
  unfold bindable, stored. destruct (bind_value v); simpl; congruence.
Qed.

Lemma getSession_after_update d sid s c ss sr st tt sd :
  stmt_getSession d sid = Some s ->
  stmt_getSession (stmt_updateSession d c ss sr st tt sd sid) sid
  = Some (update_row (now d) c ss sr st tt sd s).
Proof.
  unfold stmt_getSession, stmt_updateSession. simpl.
  generalize (now d). intros t.
  induction (sessions d) as [|x l IH]; simpl; [discriminate|].
  destruct (String.eqb (session_id x) sid) eqn:E.
  - intros H. inversion H; subst. simpl. rewrite E. reflexivity.
  - intros H. simpl. rewrite E. apply IH. exact H.
Qed.

(** The session row a commit leaves behind, whatever happens after
    the update statement has run. *)
Lemma commit_session_row d sid s commitData cmi b :
  stmt_getSession d sid = Some s ->
  field commitData "cmi" = Ok cmi ->
  determineCompletion commitData = Ok b ->
  summary_bindable (extract_summary cmi) = true ->
  let f := extract_summary cmi in
  stmt_getSession (fst (commitSession sid commitData d)) sid
  = Some (update_row (now d) (SNum (if b then 1 else 0))
            (stored (successStatus f)) (stored (scoreRaw f))
            (stored (sessionTime f)) (stored (totalTime f))
            (stored (suspendData f)) s).
Proof.
  intros Hs Hc Hb Hbind f.
  unfold summary_bindable in Hbind. fold f in Hbind.
  repeat (apply andb_true_iff in Hbind; destruct Hbind as [Hbind ?]).
  set (d1 := stmt_updateSession d (SNum (if b then 1 else 0))
               (stored (successStatus f)) (stored (scoreRaw f))
               (stored (sessionTime f)) (stored (totalTime f))
               (stored (suspendData f)) sid).
  assert (Hrest : forall (m : call value), keeps_sessions m ->
            stmt_getSession (fst (m d1)) sid
            = Some (update_row (now d) (SNum (if b then 1 else 0))
                      (stored (successStatus f)) (stored (scoreRaw f))
                      (stored (sessionTime f)) (stored (totalTime f))
                      (stored (suspendData f)) s)).
  { intros m Hm. unfold stmt_getSession. rewrite Hm.
    apply getSession_after_update. exact Hs. }
  unfold commitSession, rethrow, and_then at 1, getSession, query.
  rewrite Hs. unfold and_then at 1, lift. rewrite Hb.
  unfold and_then at 1. rewrite Hc.
  unfold and_then at 1, updateSession_run. fold f.
  unfold and_then at 1, lift.
  rewrite (bindable_stored _ Hbind).
  unfold and_then at 1. rewrite (bindable_stored _ H2).
  unfold and_then at 1. rewrite (bindable_stored _ H1).
  unfold and_then at 1. rewrite (bindable_stored _ H0).
  unfold and_then at 1. rewrite (bindable_stored _ H).
  unfold exec. fold d1.
  match goal with
  | |- context [and_then ?m ?k d1] =>
      specialize (Hrest (fun d => match and_then m k d with
                                  | (d', Throw e) =>
                                      (d', Throw (Wrapped "Failed to commit session" e))
                                  | other => other
                                  end))
  end.
  simpl in Hrest. apply Hrest.
  apply (keeps_rethrow "Failed to commit session").
  apply keeps_and_then.
  - apply (keeps_storeCmiData sid (S (size (or_else cmi empty_object)))). lia.
  - intros _. apply keeps_and_then.
    + destruct (truthy (opt_field cmi "interactions"));
        [apply keeps_each_interaction|apply keeps_ret].
    + intros _. apply keeps_ret.
Qed.

(** The completion flag a commit stores is the derived one. *)
Lemma commit_stores_completion d sid s commitData cmi b :
  stmt_getSession d sid = Some s ->
  field commitData "cmi" = Ok cmi ->
  determineCompletion commitData = Ok b ->
  summary_bindable (extract_summary cmi) = true ->
  exists s',
    stmt_getSession (fst (commitSession sid commitData d)) sid = Some s'
    /\ completed s' = SNum (if b then 1 else 0).
Proof.
  intros Hs Hc Hb Hbind. eexists. split.
  - apply (commit_session_row d sid s commitData cmi b Hs Hc Hb Hbind).
  - reflexivity.
Qed.

Lemma commit_unknown_session d sid commitData :
  stmt_getSession d sid = None ->
  commitSession sid commitData d
  = (d, Throw (Wrapped "Failed to commit session" (Error "Session not found"))).
Proof.
  intros H. unfold commitSession, rethrow, and_then, getSession, query.
  rewrite H. reflexivity.
Qed.

Lemma commit_throws_wrapped d sid commitData e :
  snd (commitSession sid commitData d) = Throw e ->
  exists e', e = Wrapped "Failed to commit session" e'.
Proof.
  unfold commitSession, rethrow.
  match goal with |- context [match ?m d with _ => _ end] => destruct (m d) as [d1 [a|e1|]] end;
    simpl; intros H; inversion H. eauto.
Qed.

(** C9: when the newer-shape field of a commit is falsy (a score of
    [0], an empty string), what the update statement is given for
    the column is the legacy-shape value, or [null] when that is falsy
    too, not the value given, and the session row stores it;
    committing [{cmi: {score: {raw: 0}}}] stores a NULL [score_raw].
    The value of a column is stated where the column keeps what is
    bound to it: a number or nothing for the REAL column [score_raw],
    a string or nothing for the three TEXT columns. *)
Theorem C9_falsy_newer_field_falls_back :
  forall d sid s commitData cmi,
    stmt_getSession d sid = Some s ->
    field commitData "cmi" = Ok cmi ->
    summary_bindable (extract_summary cmi) = true ->
    let core := opt_field cmi "core" in
    let f := extract_summary cmi in
    let legacy_score := or_else (opt_field (opt_field core "score") "raw") null in
    let legacy_session_time := or_else (opt_field core "session_time") null in
    let legacy_total_time := or_else (opt_field core "total_time") null in
    let legacy_suspend_data := or_else (opt_field core "suspend_data") null in
    ((truthy (opt_field (opt_field cmi "score") "raw") = false ->
      scoreRaw f = legacy_score)
     /\ (truthy (opt_field cmi "session_time") = false ->
         sessionTime f = legacy_session_time)
     /\ (truthy (opt_field cmi "total_time") = false ->
         totalTime f = legacy_total_time)
     /\ (truthy (opt_field cmi "suspend_data") = false ->
         suspendData f = legacy_suspend_data))
    /\ (exists s',
           stmt_getSession (fst (commitSession sid commitData d)) sid = Some s'
           /\ (truthy (opt_field (opt_field cmi "score") "raw") = false ->
               numeric legacy_score = true ->
               score_raw s' = stored legacy_score)
           /\ (truthy (opt_field cmi "session_time") = false ->
               textual legacy_session_time = true ->
               session_time s' = stored legacy_session_time)
           /\ (truthy (opt_field cmi "total_time") = false ->
               textual legacy_total_time = true ->
               total_time s' = stored legacy_total_time)
           /\ (truthy (opt_field cmi "suspend_data") = false ->
               textual legacy_suspend_data = true ->
               suspend_data s' = stored legacy_suspend_data))
    /\ (exists s0,
           stmt_getSession
             (fst (commitSession sid
                     (obj [("cmi", obj [("score", obj [("raw", num 0)])])]) d)) sid
           = Some s0
           /\ score_raw s0 = SNull).
Proof.
  intros d sid s commitData cmi Hs Hc Hb core f l1 l2 l3 l4.
  assert (Hparams :
            (truthy (opt_field (opt_field cmi "score") "raw") = false ->
             scoreRaw f = l1)
            /\ (truthy (opt_field cmi "session_time") = false -> sessionTime f = l2)
            /\ (truthy (opt_field cmi "total_time") = false -> totalTime f = l3)
            /\ (truthy (opt_field cmi "suspend_data") = false -> suspendData f = l4)).
  { subst f l1 l2 l3 l4. cbn [extract_summary scoreRaw sessionTime totalTime suspendData].
    fold core.
    repeat split; intros H;
      match goal with
      | |- or_else (or_else ?a ?b) _ = _ => unfold or_else at 2; rewrite H; reflexivity
      end. }
  split; [exact Hparams|]. destruct Hparams as [P1 [P2 [P3 P4]]]. split.
  - destruct (determineCompletion_defined _ _ Hc) as [b Hd].
    eexists. split; [apply (commit_session_row d sid s commitData cmi b Hs Hc Hd Hb)|].
    cbn [score_raw session_time total_time suspend_data update_row]. fold f.
    repeat split; intros H _.
    + rewrite (P1 H). reflexivity.
    + rewrite (P2 H). reflexivity.
    + rewrite (P3 H). reflexivity.
    + rewrite (P4 H). reflexivity.
  - eexists. split.
    + apply (commit_session_row d sid s _ (obj [("score", obj [("raw", num 0)])]) false Hs);
        reflexivity.
    + reflexivity.
Qed.

(** C10, amended: [terminateSession] with a final payload that has
    no keys, [{}] or none at all among them, returns success for every
    session id and leaves the database as it was, whether or not the
    session exists.  It fails on the payload [null], in [Object.keys],
    and otherwise only on a payload with at least one key, with the
    error of the embedded commit; that commit fails for every unknown
    session id, with [Session not found], and whatever it wrote is
    all that a terminate with such a payload leaves behind. *)
Theorem C10_terminate_checks_nothing_itself :
  (forall d sid,
      terminateSession sid empty_object d
      = (d, Ok (obj [("success", boolean true); ("sessionId", str sid);
                     ("terminated", boolean true)])))
  /\ (forall d sid finalData,
         keys_length (default_object finalData) = Ok 0 ->
         terminateSession sid finalData d
         = (d, Ok (obj [("success", boolean true); ("sessionId", str sid);
                        ("terminated", boolean true)])))
  /\ (forall d sid finalData e,
         snd (terminateSession sid finalData d) = Throw e ->
         (finalData = null /\ e = Wrapped "Failed to terminate session" TypeError)
         \/ (exists n e',
                keys_length finalData = Ok n /\ 0 < n
                /\ snd (commitSession sid finalData d)
                   = Throw (Wrapped "Failed to commit session" e')
                /\ e = Wrapped "Failed to terminate session"
                         (Wrapped "Failed to commit session" e')))
  /\ (forall d sid finalData n,
         stmt_getSession d sid = None ->
         keys_length finalData = Ok n -> 0 < n ->
         terminateSession sid finalData d
         = (d, Throw (Wrapped "Failed to terminate session"
                        (Wrapped "Failed to commit session"
                           (Error "Session not found")))))
  /\ (forall d sid finalData n,
         keys_length finalData = Ok n -> 0 < n ->
         fst (terminateSession sid finalData d) = fst (commitSession sid finalData d)).
Proof.
  assert (Hdef : forall finalData n,
            keys_length finalData = Ok n -> default_object finalData = finalData).
  { intros finalData n Hk.
    destruct finalData as [[| |b|z|t]|kd ps]; simpl in *; try reflexivity.
    discriminate. }
  split; [|split; [|split; [|split]]].
  - intros d sid. reflexivity.
  - intros d sid finalData Hk.
    unfold terminateSession, rethrow, and_then at 1, lift. rewrite Hk. reflexivity.
  - intros d sid finalData e H.
    unfold terminateSession, rethrow, and_then at 1, lift in H.
    destruct (keys_length (default_object finalData)) as [n|e0|] eqn:Hk.
    + right. unfold and_then at 1 in H. destruct (0 <? n) eqn:Hn.
      * unfold and_then at 1 in H.
        destruct (commitSession sid (default_object finalData) d) as [d1 r] eqn:Hcm.
        destruct r as [a|e1|]; simpl in H; try discriminate.
        inversion H; subst e.
        destruct (commit_throws_wrapped d sid (default_object finalData) e1) as [e' He'].
        { rewrite Hcm. reflexivity. }
        assert (Hsame : default_object finalData = finalData).
        { destruct finalData as [[| |b|z|t]|kd ps]; simpl in *; try reflexivity.
          inversion Hk; subst n. discriminate. }
        rewrite Hsame in *.
        exists n, e'. subst e1. rewrite Hcm.
        repeat split; [exact Hk|apply Z.ltb_lt; exact Hn].
      * simpl in H. discriminate.
    + left. destruct finalData as [[| |b|z|t]|kd ps]; simpl in Hk; try discriminate.
      inversion Hk; subst e0. simpl in H. inversion H. split; reflexivity.
    + destruct finalData as [[| |b|z|t]|kd ps]; simpl in Hk; discriminate.
  - intros d sid finalData n Hs Hk Hn.
    unfold terminateSession, rethrow, and_then at 1, lift.
    rewrite (Hdef _ _ Hk), Hk. unfold and_then at 1.
    apply Z.ltb_lt in Hn. rewrite Hn. unfold and_then at 1.
    rewrite (commit_unknown_session d sid finalData Hs). reflexivity.
  - intros d sid finalData n Hk Hn.
    unfold terminateSession, rethrow, and_then at 1, lift.
    rewrite (Hdef _ _ Hk), Hk. unfold and_then at 1.
    apply Z.ltb_lt in Hn. rewrite Hn. unfold and_then at 1.
    destruct (commitSession sid finalData d) as [d1 [r|e|]]; reflexivity.
Qed.

End WithRuntime.

#[local] Existing Instance sample_runtime.

Lemma C9_falsy_newer_field_falls_back_witness :
  exists s',
    stmt_getSession
      (fst (commitSession "s1"
              (obj [("cmi", obj [("score", obj [("raw", num 0)]);
                                 ("suspend_data", str "");
                                 ("core", obj [("score", obj [("raw", num 70)]);
                                               ("suspend_data", str "page-3")])])])
              sample_db)) "s1" = Some s'
    /\ score_raw s' = SNum 70
    /\ suspend_data s' = SText "page-3"
    /\ session_time s' = SNull.
Proof.
  destruct (C9_falsy_newer_field_falls_back sample_db "s1" sample_session
              (obj [("cmi", obj [("score", obj [("raw", num 0)]);
                                 ("suspend_data", str "");
                                 ("core", obj [("score", obj [("raw", num 70)]);
                                               ("suspend_data", str "page-3")])])])
              (obj [("score", obj [("raw", num 0)]);
                    ("suspend_data", str "");
                    ("core", obj [("score", obj [("raw", num 70)]);
                                  ("suspend_data", str "page-3")])])
              eq_refl eq_refl eq_refl) as [_ [[s' [Hs' [Hraw [Hst [_ Hsd]]]]] _]].
  exists s'. split; [exact Hs'|].
  split; [apply Hraw; reflexivity|]. split; [apply Hsd; reflexivity|].
  apply Hst; reflexivity.
Defined.

(** C10, as stated, fails in its last clause: [terminateSession]
    fails on the payload [null], which has no key at all, and, for a
    session that exists, on a payload the embedded commit cannot
    store, where the session lookup has succeeded. *)
Lemma C10_counterexample :
  stmt_getSession sample_db "s1" = Some sample_session
  /\ keys_length null = Throw TypeError
  /\ terminateSession "s1" null sample_db
     = (sample_db, Throw (Wrapped "Failed to terminate session" TypeError))
  /\ snd (terminateSession "s1" broken_commit sample_db)
     = Throw (Wrapped "Failed to terminate session"
                (Wrapped "Failed to commit session" TypeError)).
Proof. repeat split. Qed.

Lemma C10_terminate_checks_nothing_itself_witness :
  terminateSession "nobody" (obj [("cmi", empty_object)]) sample_db
  = (sample_db,
     Throw (Wrapped "Failed to terminate session"
              (Wrapped "Failed to commit session" (Error "Session not found"))))
  /\ terminateSession "nobody" undefined sample_db
     = (sample_db, Ok (obj [("success", boolean true); ("sessionId", str "nobody");
                            ("terminated", boolean true)])).
Proof.
  destruct C10_terminate_checks_nothing_itself as [_ [H0 [_ [H _]]]].
  split.
  - apply (H sample_db "nobody" (obj [("cmi", empty_object)]) 1).
    + reflexivity.
    + reflexivity.
    + lia.
  - apply H0. reflexivity.
Defined.

End SessionFacts.

(* ================================================================== *)
(** * The record store                                                 *)
(* ================================================================== *)

Module StoreFacts.
Import JS Db Call ScormApi Props Examples JSFacts Notions.

Lemma insert_sorted_last {A} (le : A -> A -> bool) x l :
  (forall y, In y l -> le x y = false) -> insert_sorted le x l = l ++ [x].
Proof.
  induction l as [|y l IH]; intros H; simpl.
  - reflexivity.
  - rewrite (H y (or_introl eq_refl)). f_equal. apply IH.
    intros z Hz. apply H. right. exact Hz.
Qed.

Lemma insert_sorted_first {A} (le : A -> A -> bool) x l :
  (forall y, hd_error l = Some y -> le x y = true) -> insert_sorted le x l = x :: l.
Proof.
  destruct l as [|y l]; intros H; simpl.
  - reflexivity.
  - rewrite (H y eq_refl). reflexivity.
Qed.

Lemma order_by_cons {A} (le : A -> A -> bool) x l :
  order_by le (x :: l) = insert_sorted le x (order_by le l).
Proof. reflexivity. Qed.

Lemma increasing_head_below t ts :
  increasing (t :: ts) = true -> forall u, In u ts -> t < u.
Proof.
  revert t. induction ts as [|t2 ts IH]; intros t H u Hu.
  - contradiction.
  - simpl in H. apply andb_true_iff in H. destruct H as [Hlt Hrest].
    apply Z.ltb_lt in Hlt. destruct Hu as [Hu|Hu].
    + subst. exact Hlt.
    + specialize (IH t2 Hrest u Hu). lia.
Qed.

Lemma increasing_tail t ts : increasing (t :: ts) = true -> increasing ts = true.
Proof.
  destruct ts as [|t2 ts]; simpl; intros H; [reflexivity|].
  apply andb_true_iff in H. apply H.
Qed.

(** Newest first is the write order reversed, when timestamps grow. *)
Lemma newest_first_is_rev (l : list cmi_row) :
  increasing (map timestamp l) = true ->
  order_by (fun a b => timestamp b <=? timestamp a) l = rev l.
Proof.
  induction l as [|x l IH]; intros H.
  - reflexivity.
  - rewrite order_by_cons, (IH (increasing_tail _ _ H)).
    apply insert_sorted_last. intros y Hy.
    apply Z.leb_gt. apply (increasing_head_below _ _ H).
    apply in_map. apply in_rev. exact Hy.
Qed.

(** Rows that carry one timestamp come back in the order written. *)
Lemma oldest_first_same_time (l : list cmi_row) t :
  (forall r, In r l -> timestamp r = t) ->
  order_by (fun a b => timestamp a <=? timestamp b) l = l.
Proof.
  induction l as [|x l IH]; intros H.
  - reflexivity.
  - rewrite order_by_cons, IH.
    + apply insert_sorted_first. intros y Hy.
      rewrite (H x (or_introl eq_refl)).
      rewrite (H y); [apply Z.leb_refl|].
      right. destruct l; inversion Hy. left. reflexivity.
    + intros r Hr. apply H. right. exact Hr.
Qed.

Lemma hd_error_limit_1 {A} (l : list A) : hd_error (limit 1 l) = hd_error l.
Proof. destruct l; reflexivity. Qed.

(** The single-element read, on records whose timestamps grow. *)
Lemma read_latest d sid el :
  increasing (map timestamp (records_of d sid el)) = true ->
  stmt_getCmiData d sid el = hd_error (rev (records_of d sid el))
  /\ (truthy (str el) = true ->
      getCmiData sid (Some el) d
      = (d, Ok (match rev (records_of d sid el) with
                | last_write :: _ => str (value_ last_write)
                | [] => null
                end))).
Proof.
  intros H.
  assert (Hstmt : stmt_getCmiData d sid el = hd_error (rev (records_of d sid el))).
  { unfold stmt_getCmiData. rewrite hd_error_limit_1.
    fold (records_of d sid el). rewrite (newest_first_is_rev _ H). reflexivity. }
  split; [exact Hstmt|].
  intros Hel. unfold getCmiData. rewrite Hel. unfold query. rewrite Hstmt.
  destruct (rev (records_of d sid el)); reflexivity.
Qed.

Lemma increasing_snoc ts t :
  increasing ts = true -> (forall u, In u ts -> u < t) -> increasing (ts ++ [t]) = true.
Proof.
  induction ts as [|a ts IH]; intros H Hlt; [reflexivity|].
  destruct ts as [|b ts].
  - simpl. rewrite andb_true_r. apply Z.ltb_lt. apply Hlt. left. reflexivity.
  - cbn [app increasing] in *. apply andb_true_iff in H. destruct H as [Hab Hrest].
    rewrite Hab. apply IH; [exact Hrest|].
    intros u Hu. apply Hlt. right. exact Hu.
Qed.

(** A write is a new record stamped with the clock; read back, it is
    the latest when the clock has moved past the earlier records of
    the path. *)
Lemma read_after_write d sid s el v :
  stmt_getSession d sid = Some s ->
  truthy (str el) = true ->
  increasing (map timestamp (records_of d sid el)) = true ->
  (forall r, In r (records_of d sid el) -> timestamp r < now d) ->
  snd (setCmiData sid el v d) = Ok tt
  /\ snd (getCmiData sid (Some el) (fst (setCmiData sid el v d))) = Ok (str v).
Proof.
  intros Hs Hel Hinc Hpast.
  unfold setCmiData, rethrow, stmt_insertCmiData. rewrite Hs. cbn [fst snd].
  split; [reflexivity|].
  set (row := {| cmi_id := next_id (map cmi_id (cmi_data d)); cmi_session := sid;
                 element := el; value_ := v; timestamp := now d |}).
  assert (Hrec : records_of (with_cmi_data d (cmi_data d ++ [row])) sid el
                 = records_of d sid el ++ [row]).
  { unfold records_of. cbn [cmi_data with_cmi_data]. rewrite filter_app.
    cbn [filter cmi_session element row]. rewrite !string_eqb_refl. reflexivity. }
  destruct (read_latest (with_cmi_data d (cmi_data d ++ [row])) sid el) as [_ H].
  - rewrite Hrec, map_app. apply increasing_snoc; [exact Hinc|].
    intros u Hu. apply in_map_iff in Hu. destruct Hu as [r [<- Hr]].
    apply Hpast. exact Hr.
  - rewrite (H Hel), Hrec, rev_app_distr. reflexivity.
Qed.

(** C5: when the records of a path of a session carry strictly
    increasing timestamps in the order they were written, the
    single-element read returns the value of the last of them, and
    nothing when there is none. *)
Theorem C5_read_latest_is_last_write :
  forall d sid el,
    increasing (map timestamp (records_of d sid el)) = true ->
    stmt_getCmiData d sid el = hd_error (rev (records_of d sid el))
    /\ (truthy (str el) = true ->
        getCmiData sid (Some el) d
        = (d, Ok (match rev (records_of d sid el) with
                  | last_write :: _ => str (value_ last_write)
                  | [] => null
                  end))).
Proof. exact read_latest. Qed.

Lemma C5_read_latest_is_last_write_witness :
  getCmiData "s1" (Some "cmi.location") two_writes = (two_writes, Ok (str "page-2")).
Proof.
  destruct (C5_read_latest_is_last_write two_writes "s1" "cmi.location" eq_refl)
    as [_ H].
  apply (H eq_refl).
Defined.

End StoreFacts.

(* ================================================================== *)
(** * Rebuilding the tree                                              *)
(* ================================================================== *)

Module CodecFacts.
Import JS Db Call ScormApi Props JSFacts Notions.

Lemma modelled_not_inherited k : modelled_key k = true -> inherited_name k = false.
Proof.
  unfold modelled_key. intros H. apply andb_true_iff in H.
  destruct H as [H _]. apply negb_true_iff in H. exact H.
Qed.

Lemma not_inherited_not_proto k : inherited_name k = false -> String.eqb k "__proto__" = false.
Proof.
  unfold inherited_name, object_prototype_names. simpl. intros H.
  destruct (String.eqb k "__proto__"); [|reflexivity].
  rewrite orb_true_r in H. discriminate.
Qed.

Lemma modelled_index k :
  modelled_key k = true -> exists ik, index_key (parseInt k) = Ok ik.
Proof.
  unfold modelled_key, index_key. intros H. apply andb_true_iff in H.
  destruct H as [_ H]. destruct (parseInt k) as [n|]; [|eauto].
  rewrite H. eauto.
Qed.

(** One turn of the loop of [setNestedValue], case by case. *)
Lemma set_at_skip c key next rest v :
  isNaN key = false -> isArray c = false ->
  set_at c (key :: next :: rest) v = Ok c.
Proof. intros Hk Hc. cbn [set_at]. rewrite Hk, Hc. reflexivity. Qed.

Lemma set_at_index props key next rest v ik :
  isNaN key = false -> index_key (parseInt key) = Ok ik ->
  set_at (VObj Array props) (key :: next :: rest) v
  = bind (set_at (if negb (truthy (get_own ik props)) then empty_object
                  else get_own ik props) (next :: rest) v)
         (fun child => Ok (VObj Array (define_prop ik child props))).
Proof. intros Hk Hik. cbn [set_at]. rewrite Hk, Hik. reflexivity. Qed.

Lemma set_at_name props key next rest v :
  isNaN key = true ->
  inherited_name key = false ->
  set_at (VObj Plain props) (key :: next :: rest) v
  = bind (set_at (if negb (truthy (get_own key props))
                  then (if negb (isNaN next) then empty_array else empty_object)
                  else get_own key props) (next :: rest) v)
         (fun child => Ok (VObj Plain (define_prop key child props))).
Proof.
  intros Hk Hin. cbn [set_at]. rewrite Hk. cbn [negb read_prop].
  unfold get_own. destruct (lookup key props); [reflexivity|].
  rewrite Hin. reflexivity.
Qed.

Lemma set_at_last kd props key v :
  inherited_name key = false ->
  (kd = Array -> String.eqb key "length" = false) ->
  set_at (VObj kd props) [key] v = Ok (VObj kd (define_prop key v props)).
Proof.
  intros Hin Hlen. cbn [set_at assign_prop].
  rewrite (not_inherited_not_proto _ Hin).
  destruct kd; cbn [isArray andb]; [reflexivity|].
  rewrite (Hlen eq_refl). reflexivity.
Qed.

(** From a container that was just created, no path is refused. *)
Lemma set_at_fresh keys : forall c v,
  forallb modelled_key keys = true ->
  c = empty_object \/ (c = empty_array /\ isNaN (hd "" keys) = false) ->
  exists t, set_at c keys v = Ok t.
Proof.
  induction keys as [|key rest IH]; intros c v Hk Hc.
  - simpl. eauto.
  - simpl in Hk. apply andb_true_iff in Hk. destruct Hk as [Hkey Hrest].
    pose proof (modelled_not_inherited _ Hkey) as Hin.
    destruct rest as [|next rest'].
    + destruct Hc as [Hc|[Hc Hnum]]; subst c; unfold empty_object, empty_array;
        rewrite set_at_last; eauto; try discriminate.
      intros _. destruct (String.eqb key "length") eqn:E; [|reflexivity].
      apply String.eqb_eq in E. subst key. simpl in Hnum. discriminate.
    + destruct (isNaN key) eqn:Hnum.
      * destruct Hc as [Hc|[Hc Hn]]; [|simpl in Hn; congruence]. subst c.
        unfold empty_object. rewrite set_at_name by assumption.
        cbn [get_own lookup truthy undefined truthy_prim negb].
        destruct (negb (isNaN next)) eqn:Hnext.
        -- destruct (IH empty_array v Hrest) as [t Ht].
           { right. split; [reflexivity|]. simpl. apply negb_true_iff. exact Hnext. }
           rewrite Ht. simpl. eauto.
        -- destruct (IH empty_object v Hrest (or_introl eq_refl)) as [t Ht].
           rewrite Ht. simpl. eauto.
      * destruct Hc as [Hc|[Hc _]]; subst c.
        -- rewrite set_at_skip by (assumption || reflexivity). eauto.
        -- destruct (modelled_index _ Hkey) as [ik Hik].
           unfold empty_array. rewrite (set_at_index _ _ _ _ _ ik) by assumption.
           cbn [get_own lookup truthy undefined truthy_prim negb].
           destruct (IH empty_object v Hrest (or_introl eq_refl)) as [t Ht].
           rewrite Ht. simpl. eauto.
Qed.

(** C8, as stated, fails: a path that starts with an empty segment is
    dropped without any error, and one that ends with an empty
    segment is applied under the empty key. *)
Lemma C8_counterexample :
  setNestedValue empty_object ".score" (str "85") = Ok empty_object
  /\ setNestedValue empty_object "score." (str "85")
     = Ok (obj [("score", arr [("", str "85")])]).
Proof. split; reflexivity. Qed.

(** C8, amended: a path with an empty segment is never rejected.
    Applied to the empty object reconstruction starts from, it returns
    normally; when its first segment is the empty one and others
    follow, the write is dropped and the tree (any value that is not
    an array) is left as it was; and the path that is one empty
    segment is applied under the empty key. *)
Theorem C8_empty_segment_is_not_rejected :
  forall path v,
    In "" (split dot path) ->
    forallb modelled_key (split dot path) = true ->
    (exists t, setNestedValue empty_object path v = Ok t)
    /\ (forall root next rest,
           isArray root = false ->
           split dot path = "" :: next :: rest ->
           setNestedValue root path v = Ok root)
    /\ (forall kd props,
           path = "" ->
           setNestedValue (VObj kd props) path v
           = Ok (VObj kd (define_prop "" v props))).
Proof.
  intros path v _ Hk. split; [|split].
  - apply set_at_fresh; [exact Hk|left; reflexivity].
  - intros root next rest Hroot Hsplit. unfold setNestedValue. rewrite Hsplit.
    apply set_at_skip; [reflexivity|exact Hroot].
  - intros kd props ->. unfold setNestedValue. cbn [split].
    apply set_at_last; [reflexivity|intros _; reflexivity].
Qed.

Lemma C8_empty_segment_is_not_rejected_witness :
  (exists t, setNestedValue empty_object "cmi..raw" (str "85") = Ok t)
  /\ setNestedValue (obj [("cmi", empty_object)]) ".raw" (str "85")
     = Ok (obj [("cmi", empty_object)]).
Proof.
  split.
  - apply (C8_empty_segment_is_not_rejected "cmi..raw" (str "85")).
    + simpl. right. left. reflexivity.
    + reflexivity.
  - destruct (C8_empty_segment_is_not_rejected ".raw" (str "85")
                (or_introl eq_refl) eq_refl) as [_ [H _]].
    apply (H (obj [("cmi", empty_object)]) "raw" []); reflexivity.
Defined.

End CodecFacts.

(* ================================================================== *)
(** * The sync queue and its processor                                 *)
(* ================================================================== *)

Module QueueFacts.
Import JS Db Call ScormApi OfflineSync Props Examples JSFacts Notions.

(** ** Own properties *)

Lemma lookup_replace_same k v ps :
  has_key k ps = true -> lookup k (replace_prop k v ps) = Some v.
Proof.
  unfold has_key. induction ps as [|[k' v'] ps IH]; simpl; [discriminate|].
  destruct (String.eqb k k') eqn:E; simpl.
  - rewrite string_eqb_refl. reflexivity.
  - rewrite E. exact IH.
Qed.

Lemma lookup_replace_other k k' v ps :
  k' <> k -> lookup k' (replace_prop k v ps) = lookup k' ps.
Proof.
  intros Hne. induction ps as [|[k2 v2] ps IH]; simpl; [reflexivity|].
  destruct (String.eqb k k2) eqn:E; simpl.
  - apply String.eqb_eq in E. subst k2.
    destruct (String.eqb k' k) eqn:E'; [|reflexivity].
    apply String.eqb_eq in E'. contradiction.
  - destruct (String.eqb k' k2); [reflexivity|exact IH].
Qed.

Lemma lookup_insert_index n k k' v ps :
  lookup k ps = None ->
  lookup k' (insert_index n k v ps)
  = if String.eqb k' k then Some v else lookup k' ps.
Proof.
  induction ps as [|[k2 v2] ps IH]; simpl; intros Hk.
  - reflexivity.
  - destruct (String.eqb k k2) eqn:Ek; [discriminate|].
    destruct (array_index k2) as [m|]; [destruct (m <? n)|]; simpl;
      try reflexivity.
    rewrite (IH Hk). destruct (String.eqb k' k2) eqn:E2; [|reflexivity].
    destruct (String.eqb k' k) eqn:E; [|reflexivity].
    apply String.eqb_eq in E2. apply String.eqb_eq in E. subst.
    rewrite string_eqb_refl in Ek. discriminate.
Qed.

Lemma lookup_app_absent k' k v ps :
  lookup k ps = None ->
  lookup k' (ps ++ [(k, v)]) = if String.eqb k' k then Some v else lookup k' ps.
Proof.
  induction ps as [|[k2 v2] ps IH]; simpl; intros Hk.
  - reflexivity.
  - destruct (String.eqb k k2) eqn:Ek; [discriminate|].
    destruct (String.eqb k' k2) eqn:E2; [|exact (IH Hk)].
    destruct (String.eqb k' k) eqn:E; [|reflexivity].
    apply String.eqb_eq in E2. apply String.eqb_eq in E. subst.
    rewrite string_eqb_refl in Ek. discriminate.
Qed.

(** Reading back what [o[k] = v] wrote, and what it left alone. *)
Lemma lookup_define k k' v ps :
  lookup k' (define_prop k v ps)
  = if String.eqb k' k then Some v else lookup k' ps.
Proof.
  unfold define_prop. destruct (has_key k ps) eqn:Hk.
  - destruct (String.eqb k' k) eqn:E.
    + apply String.eqb_eq in E. subst. apply lookup_replace_same. exact Hk.
    + apply lookup_replace_other. intros ->. rewrite string_eqb_refl in E. discriminate.
  - assert (Hnone : lookup k ps = None).
    { unfold has_key in Hk. destruct (lookup k ps); [discriminate|reflexivity]. }
    destruct (array_index k).
    + apply lookup_insert_index. exact Hnone.
    + apply lookup_app_absent. exact Hnone.
Qed.

(** ** Statements on the queue *)

Lemma length_insert_sorted {A} (le : A -> A -> bool) x l :
  List.length (insert_sorted le x l) = S (List.length l).
Proof.
  induction l as [|y l IH]; simpl; [reflexivity|].
  destruct (le x y); simpl; [reflexivity|]. rewrite IH. reflexivity.
Qed.

Lemma length_order_by {A} (le : A -> A -> bool) l :
  List.length (order_by le l) = List.length l.
Proof.
  induction l as [|x l IH]; [reflexivity|].
  rewrite StoreFacts.order_by_cons, length_insert_sorted, IH. reflexivity.
Qed.

Lemma in_insert_sorted {A} (le : A -> A -> bool) x y l :
  In y (insert_sorted le x l) <-> y = x \/ In y l.
Proof.
  induction l as [|z l IH]; simpl.
  - intuition.
  - destruct (le x z); simpl; [intuition|]. rewrite IH. intuition.
Qed.

Lemma in_order_by {A} (le : A -> A -> bool) y l :
  In y (order_by le l) <-> In y l.
Proof.
  induction l as [|x l IH]; [reflexivity|].
  rewrite StoreFacts.order_by_cons, in_insert_sorted, IH. simpl. intuition.
Qed.

Lemma in_firstn {A} n y (l : list A) : In y (firstn n l) -> In y l.
Proof.
  revert l. induction n as [|n IH]; intros [|x l]; simpl; try contradiction.
  intros [H|H]; [left; exact H|right; apply IH; exact H].
Qed.

Lemma in_limit {A} n y (l : list A) : In y (limit n l) -> In y l.
Proof.
  unfold limit. destruct (n <? 0); [auto|]. apply in_firstn.
Qed.

Lemma length_limit {A} n (l : list A) :
  0 <= n -> Z.of_nat (List.length (limit n l)) = Z.min n (Z.of_nat (List.length l)).
Proof.
  intros Hn. unfold limit.
  destruct (n <? 0) eqn:E; [apply Z.ltb_lt in E; lia|].
  rewrite length_firstn. lia.
Qed.

Lemma pending_batch_in d n it :
  In it (stmt_getPendingSync d n) -> In it (sync_queue d) /\ synced it = 0.
Proof.
  unfold stmt_getPendingSync. intros H. apply in_limit in H.
  apply in_order_by in H. apply filter_In in H. destruct H as [H1 H2].
  split; [exact H1|]. apply Z.eqb_eq. exact H2.
Qed.

(** ** [next_id] *)

Lemma max_ids_nonneg l : 0 <= fold_right Z.max 0 l.
Proof. induction l; simpl; lia. Qed.

Lemma max_ids_bound l i : In i l -> i <= fold_right Z.max 0 l.
Proof.
  induction l as [|x l IH]; simpl; [contradiction|].
  intros [H|H]; [subst; lia|]. specialize (IH H). lia.
Qed.

Lemma next_id_fresh l : ~ In (next_id l) l.
Proof.
  intros H. apply max_ids_bound in H. unfold next_id in H. lia.
Qed.

Lemma next_id_snoc l : next_id (l ++ [next_id l]) = next_id l + 1.
Proof.
  unfold next_id. rewrite fold_right_app. cbn [fold_right].
  assert (H : forall (m : Z) l, 0 <= m -> fold_right Z.max m l = Z.max m (fold_right Z.max 0 l)).
  { intros m l0 Hm. induction l0 as [|x l0 IH]; cbn [fold_right]; [lia|]. rewrite IH. lia. }
  rewrite H by (pose proof (max_ids_nonneg l); lia).
  pose proof (max_ids_nonneg l). lia.
Qed.

Section WithRuntime.
Context {RT : Runtime}.

(** ** Uploads *)

Lemma with_sync_queue_twice d q1 q2 :
  with_sync_queue (with_sync_queue d q1) q2 = with_sync_queue d q2.
Proof. reflexivity. Qed.

(** What the loop over the actions of an upload leaves in the queue. *)
Lemma create_items_appends sid pid l : forall d,
  create_items sid pid l d
  = (with_sync_queue d
       (sync_queue d
        ++ enqueued (next_id (map id (sync_queue d))) (now d) sid pid l),
     Ok tt).
Proof.
  induction l as [|a l IH]; intros d.
  - simpl. unfold ret. rewrite app_nil_r. destruct d; reflexivity.
  - cbn [create_items enqueued].
    unfold createSyncItem, rethrow, exec, ret, and_then.
    rewrite IH. unfold stmt_insertSyncItem.
    cbn [sync_queue with_sync_queue now].
    rewrite map_app. cbn [map id].
    rewrite next_id_snoc, <- app_assoc. reflexivity.
Qed.

Lemma enqueued_length a t sid pid l :
  List.length (enqueued a t sid pid l) = List.length l.
Proof.
  revert a. induction l as [|x l IH]; intros a; simpl; [reflexivity|].
  rewrite IH. reflexivity.
Qed.

Lemma enqueued_pending a t sid pid l :
  Forall (fun it => synced it = 0 /\ retry_count it = 0
                    /\ item_session it = sid /\ item_package it = pid)
         (enqueued a t sid pid l).
Proof.
  revert a. induction l as [|x l IH]; intros a; simpl; constructor; auto.
Qed.

Lemma enqueued_actions a t sid pid l :
  map (fun it => (action it, data it)) (enqueued a t sid pid l)
  = map (fun x => (type_ x, JSON_stringify (data_ x))) l.
Proof.
  revert a. induction l as [|x l IH]; intros a; simpl; [reflexivity|].
  rewrite IH. reflexivity.
Qed.

(** C7: an upload adds to the queue exactly one pending entry per
    action of the batch, in order and carrying the session, the
    package, the kind and the serialized payload of its action,
    changes nothing else, and then runs a sync pass on the queue so
    extended before it returns success. *)
Theorem C7_upload_queues_each_action_then_syncs :
  forall st offlineData,
    let d := database st in
    let added :=
      enqueued (next_id (map id (sync_queue d))) (now d)
               (sessionId offlineData) (packageId offlineData)
               (actions offlineData) in
    uploadOfflineSession offlineData st
    = (fst (processSyncQueue
              (with_database st (with_sync_queue d (sync_queue d ++ added)))),
       Ok (obj [("success", boolean true);
                ("message",
                 str "Offline session data queued for synchronization")]))
    /\ List.length added = List.length (actions offlineData)
    /\ Forall (fun it => synced it = 0 /\ retry_count it = 0
                         /\ item_session it = sessionId offlineData
                         /\ item_package it = packageId offlineData) added
    /\ map (fun it => (action it, data it)) added
       = map (fun x => (type_ x, JSON_stringify (data_ x))) (actions offlineData).
Proof.
  intros st offlineData d added. split; [|split; [|split]].
  - unfold uploadOfflineSession, run. fold d.
    rewrite create_items_appends. fold added.
    destruct (processSyncQueue _) as [st2 r]. reflexivity.
  - apply enqueued_length.
  - apply enqueued_pending.
  - apply enqueued_actions.
Qed.

(** ** The status query *)

Lemma count_action_step props a :
  inherited_name a = false -> counters props ->
  count_action (Ok (VObj Plain props)) a
  = Ok (VObj Plain (define_prop a (num (tally a props + 1)) props)).
Proof.
  intros Hin Hc. unfold count_action, tally. cbn [bind read_prop].
  destruct (lookup a props) as [x|] eqn:Hl.
  - destruct (Hc a x Hl) as [n [-> Hn]].
    unfold or_else, num. cbn [bind truthy truthy_prim].
    assert (E : (n =? 0) = false) by (apply Z.eqb_neq; lia). rewrite E.
    cbn [negb assign_prop isArray andb].
    rewrite (CodecFacts.not_inherited_not_proto _ Hin). reflexivity.
  - rewrite Hin. unfold or_else, num, undefined.
    cbn [bind truthy truthy_prim assign_prop isArray andb].
    rewrite (CodecFacts.not_inherited_not_proto _ Hin). reflexivity.
Qed.

Lemma counters_define props a n :
  counters props -> 0 < n -> counters (define_prop a (num n) props).
Proof.
  intros Hc Hn b x. rewrite lookup_define.
  destruct (String.eqb b a).
  - intros H. inversion H; subst. eauto.
  - apply Hc.
Qed.

Lemma tally_nonneg props a : counters props -> 0 <= tally a props.
Proof.
  intros Hc. unfold tally. destruct (lookup a props) as [x|] eqn:Hl; [|lia].
  destruct (Hc a x Hl) as [n [-> Hn]]. simpl. lia.
Qed.

Lemma count_fold items : forall props,
  forallb (fun it => negb (inherited_name (action it))) items = true ->
  counters props ->
  exists props',
    fold_left count_action (map action items) (Ok (VObj Plain props))
    = Ok (VObj Plain props')
    /\ counters props'
    /\ forall a, tally a props' = tally a props + count_action_in a items.
Proof.
  induction items as [|it items IH]; intros props Hall Hc.
  - exists props. repeat split; [exact Hc|]. intros a. unfold count_action_in. simpl. lia.
  - simpl in Hall. apply andb_true_iff in Hall. destruct Hall as [Hit Hall].
    apply negb_true_iff in Hit. cbn [map fold_left].
    rewrite (count_action_step _ _ Hit Hc).
    pose proof (tally_nonneg props (action it) Hc) as Hpos.
    assert (Hnext : 0 < tally (action it) props + 1) by lia.
    destruct (IH _ Hall (counters_define props (action it) _ Hc Hnext))
      as [props' [Hfold [Hc' Ht]]].
    exists props'. split; [exact Hfold|]. split; [exact Hc'|].
    intros a. rewrite Ht. unfold tally at 1. rewrite lookup_define.
    unfold count_action_in. cbn [filter]. rewrite (String.eqb_sym (action it) a).
    destruct (String.eqb a (action it)) eqn:E.
    + apply String.eqb_eq in E. subst a. cbn [List.length num]. lia.
    + fold (tally a props). lia.
Qed.

(** C6, as stated, fails: the status query reads at most 1000 pending
    entries, so with 1001 pending it reports 1000. *)
Lemma C6_counterexample :
  queue_depth (database crowded) = 1001
  /\ exists s, getSyncStatus crowded = Ok s /\ pending s = 1000.
Proof.
  split; [vm_compute; reflexivity|].
  eexists. split; [vm_compute; reflexivity|reflexivity].
Qed.

(** C6, amended: the status query reports the number of pending
    entries (synced = 0) up to 1000, their breakdown by action kind
    over the at most 1000 oldest of them, and the flag that says
    whether a pass is running; it is the true queue depth whenever no
    more than 1000 entries are pending. *)
Theorem C6_status_counts_up_to_a_thousand :
  forall st,
    let batch := stmt_getPendingSync (database st) 1000 in
    forallb (fun it => negb (inherited_name (action it))) batch = true ->
    exists s,
      getSyncStatus st = Ok s
      /\ pending s = Z.min 1000 (queue_depth (database st))
      /\ status_syncing s = syncing st
      /\ (forall a,
             lookup a (byAction s)
             = if 0 <? count_action_in a batch
               then Some (num (count_action_in a batch)) else None).
Proof.
  intros st batch Hall.
  destruct (count_fold batch [] Hall) as [props [Hfold [Hc Ht]]].
  { intros a x H. discriminate. }
  unfold getSyncStatus, empty_object. fold batch. rewrite Hfold. cbn [bind].
  eexists. split; [reflexivity|]. cbn [pending status_syncing byAction].
  split; [|split; [reflexivity|]].
  - unfold batch, stmt_getPendingSync. rewrite length_limit by lia.
    rewrite length_order_by. reflexivity.
  - intros a. specialize (Ht a). unfold tally in Ht at 2. simpl in Ht.
    unfold tally in Ht. destruct (lookup a props) as [x|] eqn:Hl.
    + destruct (Hc a x Hl) as [n [-> Hn]]. simpl in Ht. rewrite <- Ht.
      assert (E : (0 <? n) = true) by (apply Z.ltb_lt; exact Hn).
      rewrite E. reflexivity.
    + rewrite <- Ht. reflexivity.
Qed.

(** ** Passes over an entry that always fails *)

Lemma pass_over_failing_entry st it e :
  syncing st = false ->
  sync_queue (database st) = [it] ->
  synced it = 0 ->
  processSyncItem it = Some e ->
  exists st',
    processSyncQueue st = (st', completed_ 0 1 1)
    /\ syncing st' = false
    /\ sync_queue (database st') = [retry_row it].
Proof.
  intros Hs Hq Hp He. unfold processSyncQueue. rewrite Hs.
  unfold stmt_getPendingSync. cbn [database with_syncing].
  rewrite Hq. cbn [filter]. rewrite Hp. cbn [Z.eqb].
  cbn [order_by fold_right insert_sorted limit Config.batchSize Z.ltb Z.compare
       Z.to_nat Pos.to_nat Pos.iter_op Nat.add firstn drain].
  change (firstn (Pos.to_nat 100) [it]) with [it].
  cbn [drain List.length]. unfold settle. rewrite He.
  unfold run, incrementSyncRetry, rethrow, and_then, exec, ret.
  cbn [database log_error with_database fst snd].
  assert (Hrow : sync_queue (stmt_incrementRetry (database st) (id it))
                 = [retry_row it]).
  { unfold stmt_incrementRetry. cbn [sync_queue with_sync_queue].
    rewrite Hq. cbn [map]. rewrite Z.eqb_refl. reflexivity. }
  destruct (Config.maxRetries <=? retry_count it);
    eexists; (split; [reflexivity|split; [reflexivity|exact Hrow]]).
Qed.

(** C3 does not hold of the code: an entry whose processing always
    fails is retried on every pass, so after [n] passes its retry
    count has grown by [n], past any maximum, and it is still
    pending. *)
Theorem C3_retries_are_not_bounded :
  forall n st it e,
    syncing st = false ->
    sync_queue (database st) = [it] ->
    synced it = 0 ->
    processSyncItem it = Some e ->
    exists it',
      sync_queue (database (passes n st)) = [it']
      /\ id it' = id it
      /\ retry_count it' = retry_count it + Z.of_nat n
      /\ synced it' = 0.
Proof.
  induction n as [|n IH]; intros st it e Hs Hq Hp He.
  - exists it. cbn [passes]. rewrite Hq.
    split; [reflexivity|]. split; [reflexivity|]. split; [simpl; lia|exact Hp].
  - destruct (pass_over_failing_entry st it e Hs Hq Hp He) as [st' [Hrun [Hs' Hq']]].
    cbn [passes]. rewrite Hrun. cbn [fst].
    destruct (IH st' (retry_row it) e Hs' Hq' Hp He) as [it' [H1 [H2 [H3 H4]]]].
    exists it'. split; [exact H1|]. split; [exact H2|]. split; [|exact H4].
    rewrite H3. cbn [retry_count retry_row]. lia.
Qed.

End WithRuntime.

#[local] Existing Instance sample_runtime.

Lemma C6_status_counts_up_to_a_thousand_witness :
  exists s,
    getSyncStatus (service_with [entry 1 "commit" None; entry 2 "terminate" None;
                                 entry 3 "commit" None]) = Ok s
    /\ pending s = 3
    /\ lookup "commit" (byAction s) = Some (num 2).
Proof.
  destruct (C6_status_counts_up_to_a_thousand
              (service_with [entry 1 "commit" None; entry 2 "terminate" None;
                             entry 3 "commit" None]) eq_refl)
    as [s [Hs [Hp [_ Hby]]]].
  exists s. split; [exact Hs|]. split; [exact Hp|]. apply (Hby "commit").
Defined.

(** With a maximum of 3, four passes leave a retry count of 4. *)
Lemma C3_retries_are_not_bounded_witness :
  exists it',
    sync_queue (database (passes 4 stuck)) = [it']
    /\ id it' = 1
    /\ retry_count it' = 4
    /\ synced it' = 0.
Proof.
  apply (C3_retries_are_not_bounded 4 stuck (entry 1 "commit" (Some "{")) SyntaxError);
    reflexivity.
Defined.

End QueueFacts.

(* ================================================================== *)
(** * One pass at a time                                               *)
(* ================================================================== *)

Module FlightFacts.
Import JS Db Call ScormApi OfflineSync Props Examples JSFacts QueueFacts Notions.

Lemma unique_row (q : list sync_item) r1 r2 :
  NoDup (map id q) -> In r1 q -> In r2 q -> id r1 = id r2 -> r1 = r2.
Proof.
  induction q as [|x q IH]; simpl; intros Hnd H1 H2 Hid; [contradiction|].
  inversion Hnd as [|? ? Hx Hq]; subst.
  destruct H1 as [H1|H1], H2 as [H2|H2]; subst.
  - reflexivity.
  - exfalso. apply Hx. rewrite Hid. apply in_map. exact H2.
  - exfalso. apply Hx. rewrite <- Hid. apply in_map. exact H1.
  - apply IH; assumption.
Qed.

Lemma row_is_one_state q i :
  NoDup (map id q) -> has_row q i true -> has_row q i false -> False.
Proof.
  intros Hnd [r1 [H1 [Hi1 Hp1]]] [r2 [H2 [Hi2 Hp2]]].
  assert (r1 = r2) by (apply (unique_row q); congruence). subst. congruence.
Qed.

(** *** What the two updates do to the rows *)

Lemma ids_after_update (f : sync_item -> sync_item) i q :
  (forall it, id (f it) = id it) ->
  map id (map (fun it => if id it =? i then f it else it) q) = map id q.
Proof.
  intros Hf. rewrite map_map. apply map_ext. intros it.
  destruct (id it =? i); [apply Hf|reflexivity].
Qed.

Lemma row_after_mark q i t j b :
  has_row q j b -> j <> i ->
  has_row (map (fun it => if id it =? i then mark_row t it else it) q) j b.
Proof.
  intros [r [Hr [Hi Hp]]] Hne. exists r. split; [|split; assumption].
  apply in_map_iff. exists r. split; [|exact Hr].
  destruct (id r =? i) eqn:E; [|reflexivity].
  apply Z.eqb_eq in E. congruence.
Qed.

Lemma marked_row_after_mark q i t b :
  has_row q i b ->
  has_row (map (fun it => if id it =? i then mark_row t it else it) q) i false.
Proof.
  intros [r [Hr [Hi Hp]]]. exists (mark_row t r). split; [|split; [exact Hi|reflexivity]].
  apply in_map_iff. exists r. split; [|exact Hr].
  rewrite Hi, Z.eqb_refl. reflexivity.
Qed.

Lemma done_row_after_mark q i t j :
  has_row q j false ->
  has_row (map (fun it => if id it =? i then mark_row t it else it) q) j false.
Proof.
  intros H. destruct (Z.eq_dec j i) as [->|Hne].
  - apply (marked_row_after_mark q i t false H).
  - apply row_after_mark; assumption.
Qed.

Lemma row_after_retry q i j b :
  has_row q j b ->
  has_row (map (fun it => if id it =? i then retry_row it else it) q) j b.
Proof.
  intros [r [Hr [Hi Hp]]].
  exists (if id r =? i then retry_row r else r). split.
  - apply in_map_iff. exists r. split; [reflexivity|exact Hr].
  - destruct (id r =? i); split; assumption.
Qed.

Lemma row_after_append q l j b : has_row q j b -> has_row (q ++ l) j b.
Proof.
  intros [r [Hr H]]. exists r. split; [apply in_or_app; left; exact Hr|exact H].
Qed.

(** *** The batch a pass fetches *)

Lemma insert_sorted_permutation {A} (le : A -> A -> bool) x l :
  Permutation (insert_sorted le x l) (x :: l).
Proof.
  induction l as [|y l IH]; simpl; [reflexivity|].
  destruct (le x y); [reflexivity|].
  rewrite IH. apply perm_swap.
Qed.

Lemma order_by_permutation {A} (le : A -> A -> bool) l :
  Permutation (order_by le l) l.
Proof.
  induction l as [|x l IH]; [reflexivity|].
  rewrite StoreFacts.order_by_cons, insert_sorted_permutation, IH. reflexivity.
Qed.

Lemma nodup_ids_filter (f : sync_item -> bool) q :
  NoDup (map id q) -> NoDup (map id (filter f q)).
Proof.
  induction q as [|x q IH]; simpl; intros H; [constructor|].
  inversion H as [|? ? Hx Hq]; subst.
  destruct (f x); simpl; [|apply IH; exact Hq].
  constructor; [|apply IH; exact Hq].
  intros Hin. apply Hx. apply in_map_iff in Hin. destruct Hin as [y [Hy Hin]].
  apply filter_In in Hin. rewrite <- Hy. apply in_map. apply Hin.
Qed.

Lemma nodup_ids_firstn n (q : list sync_item) :
  NoDup (map id q) -> NoDup (map id (firstn n q)).
Proof.
  revert q. induction n as [|n IH]; intros [|x q]; simpl; intros H;
    try constructor.
  - inversion H as [|? ? Hx Hq]; subst. intros Hin. apply Hx.
    apply in_map_iff in Hin. destruct Hin as [y [Hy Hin]].
    rewrite <- Hy. apply in_map. apply (in_firstn n). exact Hin.
  - inversion H; subst. apply IH. assumption.
Qed.

Lemma pending_batch_nodup d n :
  NoDup (map id (sync_queue d)) -> NoDup (map id (stmt_getPendingSync d n)).
Proof.
  intros H. unfold stmt_getPendingSync, limit.
  assert (Hs : NoDup (map id (order_by (fun a b => created_at a <=? created_at b)
                                (filter (fun it => synced it =? 0) (sync_queue d))))).
  { apply (Permutation_NoDup
             (l := map id (filter (fun it => synced it =? 0) (sync_queue d)))).
    - apply Permutation_map. symmetry. apply order_by_permutation.
    - apply nodup_ids_filter. exact H. }
  destruct (n <? 0); [exact Hs|]. apply nodup_ids_firstn. exact Hs.
Qed.

Lemma pending_batch_rows d n it :
  In it (stmt_getPendingSync d n) -> has_row (sync_queue d) (id it) true.
Proof.
  intros H. apply pending_batch_in in H. destruct H as [Hin Hs].
  exists it. split; [exact Hin|]. split; [reflexivity|].
  unfold is_pending. rewrite Hs. reflexivity.
Qed.

Section WithRuntime.
Context {RT : Runtime}.

(** *** What settling an item does to the service *)

Lemma settle_syncing it st ok bad :
  syncing (fst (fst (settle it st ok bad))) = syncing st.
Proof.
  unfold settle, run, markSyncItemSynced, incrementSyncRetry, rethrow,
    and_then, exec, ret.
  destruct (processSyncItem it); cbn [fst snd database log_error with_database];
    [destruct (Config.maxRetries <=? retry_count it)|]; reflexivity.
Qed.

Lemma settle_queue it st ok bad :
  sync_queue (database (fst (fst (settle it st ok bad))))
  = match processSyncItem it with
    | None =>
        map (fun r => if id r =? id it then mark_row (now (database st)) r else r)
            (sync_queue (database st))
    | Some _ =>
        map (fun r => if id r =? id it then retry_row r else r)
            (sync_queue (database st))
    end.
Proof.
  unfold settle, run, markSyncItemSynced, incrementSyncRetry, rethrow,
    and_then, exec, ret.
  destruct (processSyncItem it); cbn [fst snd database log_error with_database];
    [destruct (Config.maxRetries <=? retry_count it)|]; reflexivity.
Qed.

Lemma idle_invariant sys : idle sys -> invariant sys.
Proof.
  intros [Hs [Hp [Hm Hq]]]. unfold invariant.
  split; [exact Hq|]. rewrite Hm. split; [intros i []|]. split; [constructor|].
  left. split; assumption.
Qed.

Lemma step_invariant sys sys' : invariant sys -> step sys sys' -> invariant sys'.
Proof.
  intros [Hq [Hm [Hnd Hrun]]] Hstep. unfold invariant.
  destruct Hstep as [sys st' out Hb|sys before p after st' out Hsusp Hres
                    |sys sid pid act dat|sys d' interval Hsame];
    cbn [service suspended marked].
  - (* a call of processSyncQueue *)
    unfold begin in Hb. destruct (syncing (service sys)) eqn:Hs.
    + inversion Hb; subst. cbn [continues app].
      repeat split; try assumption.
      destruct Hrun as [[Hf _]|Hrun]; [congruence|]. right. rewrite Hs. exact Hrun.
    + destruct Hrun as [[_ Hnone]|[Ht _]]; [|congruence].
      cbn [database with_syncing] in Hb.
      destruct (stmt_getPendingSync (database (service sys)) Config.batchSize)
        as [|first rest] eqn:Hbatch; inversion Hb; subst;
        cbn [continues app database with_syncing syncing].
      * repeat split; try assumption. left. split; [reflexivity|exact Hnone].
      * repeat split; try assumption. right. split; [reflexivity|].
        rewrite Hnone. eexists. split; [reflexivity|]. cbn [item later].
        split.
        -- rewrite <- Hbatch. apply pending_batch_nodup. exact Hq.
        -- intros it Hit. apply (pending_batch_rows _ Config.batchSize).
           rewrite Hbatch. exact Hit.
  - (* a suspended pass resumes *)
    destruct Hrun as [[_ Hnone]|[Ht [p0 [Hone [Hids Hrows]]]]].
    { rewrite Hnone in Hsusp. destruct before; discriminate. }
    assert (Hp : before = [] /\ p = p0 /\ after = []).
    { rewrite Hone in Hsusp. destruct before as [|b before].
      - inversion Hsusp. auto.
      - inversion Hsusp as [[Hb Hrest]]. destruct before; discriminate. }
    destruct Hp as [-> [-> ->]]. cbn [app].
    unfold resume in Hres.
    pose proof (settle_syncing (item p0) (service sys) (successCount p0)
                               (errorCount p0)) as Hsync.
    pose proof (settle_queue (item p0) (service sys) (successCount p0)
                             (errorCount p0)) as Hqueue.
    destruct (settle (item p0) (service sys) (successCount p0) (errorCount p0))
      as [[st1 ok] bad]. cbn [fst] in Hsync, Hqueue.
    assert (Hq' : sync_queue (database st') = sync_queue (database st1)
                  /\ (later p0 = [] -> syncing st' = false /\ out = inl (completed_ ok bad (total_ p0)))
                  /\ (forall next rest, later p0 = next :: rest ->
                        syncing st' = true
                        /\ exists p', out = inr p' /\ item p' = next /\ later p' = rest)).
    { destruct (later p0) as [|next rest]; inversion Hres; subst.
      - split; [reflexivity|]. split; [intros _; split; reflexivity|].
        intros n r Hnr. discriminate.
      - split; [reflexivity|]. split; [intros Hnr; discriminate|].
        intros n r Hnr. inversion Hnr; subst. split; [rewrite Hsync; exact Ht|].
        eexists. split; [reflexivity|]. split; reflexivity. }
    destruct Hq' as [Hsameq [Hlast Hmore]]. rewrite Hsameq, Hqueue.
    inversion Hids as [|? ? Hfirst Hlater]; subst.
    assert (Hitem : has_row (sync_queue (database (service sys))) (id (item p0)) true).
    { apply Hrows. left. reflexivity. }
    assert (Hothers : forall it, In it (later p0) -> id it <> id (item p0)).
    { intros it Hit Heq. apply Hfirst. rewrite <- Heq. apply in_map. exact Hit. }
    unfold marks. destruct (processSyncItem (item p0)) as [e|] eqn:Hproc.
    + (* rejected: the retry count goes up *)
      rewrite app_nil_r.
      split; [rewrite ids_after_update; [exact Hq|reflexivity]|].
      split; [intros i Hi; apply row_after_retry; apply Hm; exact Hi|].
      split; [exact Hnd|].
      destruct (later p0) as [|next rest] eqn:Hl.
      * left. destruct (Hlast eq_refl) as [H1 H2]. subst out. split; [exact H1|reflexivity].
      * right. destruct (Hmore next rest eq_refl) as [H1 [p' [H2 [H3 H4]]]].
        subst out. split; [exact H1|]. exists p'. split; [reflexivity|].
        rewrite H3, H4. split; [exact Hlater|].
        intros it Hit. apply row_after_retry. apply Hrows. right. exact Hit.
    + (* resolved: the item is marked synced *)
      split; [rewrite ids_after_update; [exact Hq|reflexivity]|].
      split.
      { intros i Hi. apply in_app_or in Hi. destruct Hi as [Hi|[Hi|[]]].
        - apply done_row_after_mark. apply Hm. exact Hi.
        - subst i. apply (marked_row_after_mark _ _ _ true). exact Hitem. }
      split.
      { apply NoDup_app.
        - exact Hnd.
        - constructor; [intros []|constructor].
        - intros i Hi [Hi'|[]]. subst i.
          apply (row_is_one_state _ _ Hq Hitem). apply Hm. exact Hi. }
      destruct (later p0) as [|next rest] eqn:Hl.
      * left. destruct (Hlast eq_refl) as [H1 H2]. subst out. split; [exact H1|reflexivity].
      * right. destruct (Hmore next rest eq_refl) as [H1 [p' [H2 [H3 H4]]]].
        subst out. split; [exact H1|]. exists p'. split; [reflexivity|].
        rewrite H3, H4. split; [exact Hlater|].
        intros it Hit. apply row_after_mark.
        -- apply Hrows. right. exact Hit.
        -- apply Hothers. exact Hit.
  - (* another request queues an action *)
    unfold run, createSyncItem, rethrow, and_then, exec, ret.
    cbn [fst snd database with_database syncing].
    unfold stmt_insertSyncItem. cbn [sync_queue with_sync_queue].
    split.
    { rewrite map_app. cbn [map id]. apply NoDup_app.
      - exact Hq.
      - constructor; [intros []|constructor].
      - intros i Hi [Hi'|[]]. subst i. apply (next_id_fresh _ Hi). }
    split; [intros i Hi; apply row_after_append; apply Hm; exact Hi|].
    split; [exact Hnd|].
    destruct Hrun as [Hrun|[Ht [p [Hone [Hids Hrows]]]]]; [left; exact Hrun|].
    right. split; [exact Ht|]. exists p. split; [exact Hone|]. split; [exact Hids|].
    intros it Hit. apply row_after_append. apply Hrows. exact Hit.
  - (* something that leaves the queue alone *)
    cbn [database with_database with_interval syncing]. rewrite Hsame.
    repeat split; assumption.
Qed.

Lemma reachable_invariant sys0 sys :
  idle sys0 -> reachable sys0 sys -> invariant sys.
Proof.
  intros Hidle Hreach. induction Hreach as [|sys sys' _ IH Hstep].
  - apply idle_invariant. exact Hidle.
  - apply (step_invariant sys); assumption.
Qed.

(** C4: from an idle service, however calls, resumptions and other
    requests interleave, at most one pass is in progress; while one is,
    [processSyncQueue] and [triggerSync] return [already_syncing]
    at once and leave the service as it was; and no queue entry is
    handed to [markSyncItemSynced] twice. *)
Theorem C4_single_flight :
  forall sys0 sys,
    idle sys0 -> reachable sys0 sys ->
    (List.length (suspended sys) <= 1)%nat
    /\ (suspended sys <> [] ->
        triggerSync (service sys) = (service sys, already_syncing)
        /\ begin (service sys) = (service sys, inl already_syncing))
    /\ NoDup (marked sys).
Proof.
  intros sys0 sys Hidle Hreach.
  destruct (reachable_invariant sys0 sys Hidle Hreach) as [_ [_ [Hnd Hrun]]].
  split; [|split; [|exact Hnd]].
  - destruct Hrun as [[_ ->]|[_ [p [-> _]]]]; simpl; lia.
  - intros Hbusy. destruct Hrun as [[_ Hnone]|[Ht _]]; [contradiction|].
    unfold triggerSync, processSyncQueue, begin. rewrite Ht. split; reflexivity.
Qed.

End WithRuntime.

#[local] Existing Instance sample_runtime.

(** A pass over the stuck entry, suspended at its first [await]. *)
Lemma C4_single_flight_witness :
  triggerSync (service in_flight) = (service in_flight, already_syncing)
  /\ NoDup (marked in_flight).
Proof.
  destruct (C4_single_flight waiting in_flight) as [_ [H1 H2]].
  - repeat split. simpl. constructor; [intros []|constructor].
  - apply (reach_step waiting waiting in_flight (reach_start _)).
    apply (step_call waiting (fst (begin stuck)) (snd (begin stuck))).
    reflexivity.
  - split; [apply H1; discriminate|exact H2].
Defined.

End FlightFacts.

(* ================================================================== *)
(** * Decimal index keys                                               *)
(* ================================================================== *)

Module DigitFacts.
Import JS Notions.

Lemma all_digits_chars d : all_digits (uint_chars d) = true.
Proof. induction d; simpl; try reflexivity; exact IHd. Qed.

Lemma digits_prefix_chars d : forall a,
  digits_prefix 10 (Some a) (uint_chars d) = Some (uval a d).
Proof.
  induction d; intros a; try reflexivity;
    unfold uint_chars; cbn [NilEmpty.string_of_uint list_ascii_of_string digits_prefix];
    match goal with
    | |- context [digit_value 10 ?c] =>
        let v := eval vm_compute in (digit_value 10 c) in
        change (digit_value 10 c) with v
    end; cbv iota beta; apply IHd.
Qed.

Lemma uval_of_uint_acc d : forall acc,
  Z.pos (Pos.of_uint_acc d acc) = uval (Z.pos acc) d.
Proof.
  induction d; intros acc; cbn [Pos.of_uint_acc uval]; try reflexivity;
    rewrite IHd; f_equal; lia.
Qed.

Lemma uval_of_uint d : Z.of_N (Pos.of_uint d) = uval 0 d.
Proof.
  induction d; cbn [Pos.of_uint uval]; try reflexivity; try exact IHd;
    cbn [Z.of_N]; rewrite uval_of_uint_acc; reflexivity.
Qed.

Lemma digits_prefix_start d :
  d <> Decimal.Nil ->
  digits_prefix 10 None (uint_chars d) = Some (uval 0 d).
Proof.
  intros Hd. destruct d; [contradiction| | | | | | | | | |];
    unfold uint_chars; cbn [NilEmpty.string_of_uint list_ascii_of_string digits_prefix];
    match goal with
    | |- context [digit_value 10 ?c] =>
        let v := eval vm_compute in (digit_value 10 c) in
        change (digit_value 10 c) with v
    end; cbv iota beta; exact (digits_prefix_chars d _).
Qed.

Lemma nzhead_no_zero d d' : Decimal.nzhead d <> Decimal.D0 d'.
Proof. induction d; simpl; try discriminate. exact IHd. Qed.

(** The digits of a positive number do not start with a zero. *)
Lemma to_uint_head p d' : Pos.to_uint p <> Decimal.D0 d'.
Proof.
  intros H.
  assert (Hn : Decimal.unorm (Pos.to_uint p) = Pos.to_uint p).
  { rewrite <- (DecimalPos.Unsigned.to_of (Pos.to_uint p)).
    rewrite DecimalPos.Unsigned.of_to. reflexivity. }
  rewrite H in Hn. unfold Decimal.unorm in Hn. cbn [Decimal.nzhead] in Hn.
  destruct (Decimal.nzhead d') eqn:E; try discriminate Hn.
  - inversion Hn; subst. apply (DecimalPos.Unsigned.to_uint_nonzero p). exact H.
  - exact (nzhead_no_zero _ _ E).
Qed.

(** *** Strings of digits are numeric *)

Lemma digit_char c :
  is_digit c = true ->
  is_ws c = false /\ is_sign c = false
  /\ Ascii.eqb c "x" = false /\ Ascii.eqb c "X" = false
  /\ Ascii.eqb c "o" = false /\ Ascii.eqb c "O" = false
  /\ Ascii.eqb c "b" = false /\ Ascii.eqb c "B" = false
  /\ Ascii.eqb c "I" = false /\ Ascii.eqb c "-" = false
  /\ Ascii.eqb c dot = false.
Proof.
  destruct c as [b0 b1 b2 b3 b4 b5 b6 b7].
  destruct b0, b1, b2, b3, b4, b5, b6, b7; vm_compute; intros H;
    try discriminate H; repeat split.
Qed.

Lemma all_digits_forall l :
  all_digits l = true <-> (forall c, In c l -> is_digit c = true).
Proof.
  induction l as [|x l IH]; simpl.
  - split; [intros _ c []|reflexivity].
  - rewrite andb_true_iff, IH. split.
    + intros [Hx Hl] c [<-|Hc]; auto.
    + intros H. split; [apply H; left; reflexivity|intros c Hc; apply H; right; exact Hc].
Qed.

Lemma drop_ws_digit l : starts_with_digit l = true -> drop_ws l = l.
Proof.
  destruct l as [|c l]; simpl; [reflexivity|]. intros H.
  destruct (digit_char c H) as [Hws _]. rewrite Hws. reflexivity.
Qed.

Lemma drop_sign_digit l : starts_with_digit l = true -> drop_sign l = l.
Proof.
  destruct l as [|c l]; simpl; [reflexivity|]. intros H.
  destruct (digit_char c H) as [_ [Hs _]]. rewrite Hs. reflexivity.
Qed.

Lemma drop_digits_all l : all_digits l = true -> drop_digits l = [].
Proof.
  induction l as [|c l IH]; simpl; [reflexivity|]. intros H.
  apply andb_true_iff in H. destruct H as [Hc Hl]. rewrite Hc. apply IH. exact Hl.
Qed.

Lemma starts_with_digit_all l :
  all_digits l = true -> l <> [] -> starts_with_digit l = true.
Proof.
  destruct l as [|c l]; simpl; [contradiction|]. intros H _.
  apply andb_true_iff in H. apply H.
Qed.

Lemma all_digits_rev l : all_digits l = true -> all_digits (rev l) = true.
Proof.
  rewrite !all_digits_forall. intros H c Hc. apply H. apply in_rev. exact Hc.
Qed.

Lemma trim_digits l : all_digits l = true -> l <> [] -> trim l = l.
Proof.
  intros H Hne. unfold trim.
  rewrite (drop_ws_digit l) by (apply starts_with_digit_all; assumption).
  rewrite drop_ws_digit; [apply rev_involutive|].
  apply starts_with_digit_all; [apply all_digits_rev; exact H|].
  intros E. apply Hne. rewrite <- (rev_involutive l), E. reflexivity.
Qed.

Lemma radix_literal_digits l : all_digits l = true -> radix_literal l = false.
Proof.
  destruct l as [|z [|x [|y l]]]; try reflexivity. intros H.
  cbn [all_digits] in H. apply andb_true_iff in H. destruct H as [_ H].
  apply andb_true_iff in H. destruct H as [Hx _].
  destruct (digit_char x Hx) as [_ [_ [H1 [H2 [H3 [H4 [H5 [H6 _]]]]]]]].
  cbn [radix_literal]. rewrite H1, H2, H3, H4, H5, H6. cbn [orb].
  apply andb_false_r.
Qed.

Lemma unsigned_decimal_digits l :
  all_digits l = true -> l <> [] -> unsigned_decimal l = true.
Proof.
  intros H Hne. unfold unsigned_decimal.
  rewrite (starts_with_digit_all l H Hne), (drop_digits_all l H).
  destruct l as [|c l]; [contradiction|].
  cbn [all_digits] in H. apply andb_true_iff in H. destruct H as [Hc _].
  destruct (digit_char c Hc) as [_ [_ [_ [_ [_ [_ [_ [_ [HI _]]]]]]]]].
  cbn [string_of_list_ascii String.eqb]. rewrite HI. reflexivity.
Qed.

(** A non-empty string of decimal digits is numeric. *)
Lemma digits_are_numeric s :
  all_digits (list_ascii_of_string s) = true -> s <> "" -> isNaN s = false.
Proof.
  intros H Hs. unfold isNaN.
  assert (Hne : list_ascii_of_string s <> []).
  { destruct s; [contradiction|discriminate]. }
  rewrite (trim_digits _ H Hne).
  destruct (list_ascii_of_string s) as [|c l] eqn:E; [contradiction|].
  cbn [is_nil]. rewrite (radix_literal_digits _ H).
  rewrite (drop_sign_digit _ (starts_with_digit_all _ H Hne)).
  rewrite (unsigned_decimal_digits _ H Hne). reflexivity.
Qed.

(** [parseInt] reads a string of decimal digits as the number they
    denote. *)
Lemma digits_parseInt s n :
  all_digits (list_ascii_of_string s) = true -> s <> "" ->
  digits_prefix 10 None (list_ascii_of_string s) = Some n ->
  parseInt s = Some n.
Proof.
  intros H Hs Hn. unfold parseInt.
  assert (Hne : list_ascii_of_string s <> []).
  { destruct s; [contradiction|discriminate]. }
  pose proof (starts_with_digit_all _ H Hne) as Hd.
  rewrite (drop_ws_digit _ Hd), (drop_sign_digit _ Hd).
  destruct (list_ascii_of_string s) as [|c l] eqn:E; [contradiction|].
  cbn [starts_with_digit] in Hd.
  destruct (digit_char c Hd) as [_ [_ [_ [_ [_ [_ [_ [_ [_ [Hm _]]]]]]]]]].
  rewrite Hm.
  assert (Hhex : match c :: l with
                 | z :: x :: _ =>
                     Ascii.eqb z "0" && (Ascii.eqb x "x" || Ascii.eqb x "X")
                 | _ => false
                 end = false).
  { destruct l as [|x l']; [reflexivity|].
    cbn [all_digits] in H. apply andb_true_iff in H. destruct H as [_ H].
    apply andb_true_iff in H. destruct H as [Hx _].
    destruct (digit_char x Hx) as [_ [_ [H1 [H2 _]]]].
    rewrite H1, H2. apply andb_false_r. }
  rewrite Hhex, Hn. reflexivity.
Qed.

(** An array index is numeric. *)
Lemma array_index_numeric k n : array_index k = Some n -> isNaN k = false.
Proof.
  unfold array_index. destruct (list_ascii_of_string k) as [|c l] eqn:E;
    [discriminate|].
  destruct (all_digits (c :: l)) eqn:Hd; cbn [andb]; [|discriminate].
  intros _. apply digits_are_numeric.
  - rewrite E. exact Hd.
  - intros ->. discriminate.
Qed.

(** *** The key of position [j] in an array *)

Lemma Z_to_string_pos p :
  Z_to_string (Z.pos p) = NilEmpty.string_of_uint (Pos.to_uint p).
Proof.
  unfold Z_to_string. cbn [Z.to_int NilZero.string_of_int NilZero.string_of_uint].
  destruct (Pos.to_uint p) eqn:E; try reflexivity.
  exfalso. apply (DecimalPos.Unsigned.to_uint_nonnil p). exact E.
Qed.

Lemma index_string_digits j :
  0 <= j ->
  let l := list_ascii_of_string (Z_to_string j) in
  all_digits l = true
  /\ digits_prefix 10 None l = Some j
  /\ exists c l', l = c :: l' /\ (negb (Ascii.eqb c "0") || is_nil l') = true.
Proof.
  intros Hj. destruct j as [|p|p]; [| |lia].
  - vm_compute. repeat split. eauto.
  - rewrite Z_to_string_pos. fold (uint_chars (Pos.to_uint p)).
    pose proof (DecimalPos.Unsigned.to_uint_nonnil p) as Hnil.
    split; [apply all_digits_chars|]. split.
    + rewrite (digits_prefix_start _ Hnil), <- uval_of_uint.
      rewrite DecimalPos.Unsigned.of_to. reflexivity.
    + pose proof (to_uint_head p) as Hhead. unfold uint_chars.
      destruct (Pos.to_uint p); [contradiction|exfalso; apply (Hhead u); reflexivity
                                 | | | | | | | | |];
        cbn [NilEmpty.string_of_uint list_ascii_of_string];
        eexists; eexists; (split; [reflexivity|reflexivity]).
Qed.

(** What [setNestedValue] and [Object.entries] make of the key of
    position [j]: it is numeric, [parseInt] and [ToString] give it
    back, and it is the array index [j]. *)
Lemma index_key_facts j :
  0 <= j < 4294967295 ->
  isNaN (Z_to_string j) = false
  /\ index_key (parseInt (Z_to_string j)) = Ok (Z_to_string j)
  /\ array_index (Z_to_string j) = Some j.
Proof.
  intros Hj. destruct (index_string_digits j (proj1 Hj)) as [Hd [Hv [c [l' [Hl Hz]]]]].
  assert (Hs : Z_to_string j <> "").
  { intros E. rewrite E in Hl. discriminate. }
  split; [apply digits_are_numeric; assumption|]. split.
  - rewrite (digits_parseInt _ j Hd Hs Hv). unfold index_key.
    assert (E : (Z.abs j <=? max_safe) = true).
    { apply Z.leb_le. unfold max_safe. lia. }
    rewrite E. reflexivity.
  - unfold array_index. rewrite Hl. rewrite <- Hl, Hd. cbn [andb]. rewrite Hz, Hv.
    assert (E : (j <? 4294967295) = true) by (apply Z.ltb_lt; lia).
    rewrite E. reflexivity.
Qed.

End DigitFacts.

(* ================================================================== *)
(** * Flattening a tree and rebuilding it                              *)
(* ================================================================== *)

Module TreeFacts.
Import JS Db Call ScormApi Props Examples JSFacts CodecFacts QueueFacts DigitFacts Notions.

(** ** Dotted paths *)

Lemma split_nonempty sep s : split sep s <> [].
Proof.
  destruct s as [|c s]; simpl; [discriminate|].
  destruct (Ascii.eqb c sep); [discriminate|].
  destruct (split sep s); discriminate.
Qed.

Lemma split_no_dot b : contains dot b = false -> split dot b = [b].
Proof.
  induction b as [|c b IH]; simpl; [reflexivity|]. intros H.
  apply orb_false_iff in H. destruct H as [Hc Hb].
  rewrite Hc, (IH Hb). reflexivity.
Qed.

Lemma split_dotted a b :
  contains dot b = false -> split dot (dotted a b) = split dot a ++ [b].
Proof.
  intros Hb. unfold dotted. induction a as [|c a IH]; simpl.
  - rewrite ?Ascii.eqb_refl, (split_no_dot b Hb). reflexivity.
  - destruct (Ascii.eqb c dot); [rewrite IH; reflexivity|].
    rewrite IH. destruct (split dot a) as [|w ws] eqn:E.
    + exfalso. apply (split_nonempty dot a). exact E.
    + reflexivity.
Qed.

Lemma element_name_nonempty pre k : k <> "" -> element_name pre k <> "".
Proof.
  intros Hk. unfold element_name, truthy, str, truthy_prim, dotted.
  destruct pre; simpl; [exact Hk|discriminate].
Qed.

Lemma element_name_dotted el k : el <> "" -> element_name el k = dotted el k.
Proof.
  intros H. unfold element_name, truthy, str, truthy_prim.
  destruct el; [contradiction|reflexivity].
Qed.

Lemma element_name_keys pre k :
  segment k -> prefix_keys (element_name pre k) = prefix_keys pre ++ [k].
Proof.
  intros [Hdot Hk]. unfold prefix_keys.
  destruct (String.eqb (element_name pre k) "") eqn:E.
  { apply String.eqb_eq in E. exfalso. apply (element_name_nonempty pre k Hk E). }
  destruct pre as [|c pre].
  - simpl. apply split_no_dot. exact Hdot.
  - cbn [String.eqb]. rewrite element_name_dotted by discriminate.
    apply split_dotted. exact Hdot.
Qed.

Lemma path_keys ks : forall pre,
  Forall segment ks -> prefix_keys (path pre ks) = prefix_keys pre ++ ks.
Proof.
  induction ks as [|k ks IH]; intros pre H.
  - simpl. rewrite List.app_nil_r. reflexivity.
  - inversion H; subst. cbn [path fold_left]. fold (path (element_name pre k) ks).
    rewrite IH by assumption. rewrite element_name_keys by assumption.
    rewrite <- List.app_assoc. reflexivity.
Qed.

Lemma split_path pre ks :
  Forall segment ks -> ks <> [] -> split dot (path pre ks) = prefix_keys pre ++ ks.
Proof.
  intros H Hne. rewrite <- (path_keys ks pre H). unfold prefix_keys.
  destruct (String.eqb (path pre ks) "") eqn:E; [|reflexivity].
  exfalso. apply String.eqb_eq in E.
  pose proof (path_keys ks pre H) as Hk. unfold prefix_keys at 1 in Hk.
  rewrite E in Hk. simpl in Hk. destruct (prefix_keys pre); destruct ks; try discriminate.
  contradiction.
Qed.

(** ** Keys of well-formed trees *)

Lemma plain_key_facts k :
  plain_key k = true ->
  isNaN k = true /\ inherited_name k = false /\ array_index k = None /\ segment k.
Proof.
  unfold plain_key. intros H.
  apply andb_true_iff in H. destruct H as [H Hin].
  apply andb_true_iff in H. destruct H as [Hnum Hdot].
  apply negb_true_iff in Hin. apply negb_true_iff in Hdot.
  split; [exact Hnum|]. split; [exact Hin|]. split.
  - destruct (array_index k) eqn:E; [|reflexivity].
    apply array_index_numeric in E. congruence.
  - split; [exact Hdot|]. intros ->. discriminate.
Qed.

Lemma contains_dot_digits s :
  all_digits (list_ascii_of_string s) = true -> contains dot s = false.
Proof.
  induction s as [|c s IH]; simpl; [reflexivity|]. intros H.
  apply andb_true_iff in H. destruct H as [Hc Hs].
  destruct (digit_char c Hc) as [_ [_ [_ [_ [_ [_ [_ [_ [_ [_ Hd]]]]]]]]]].
  rewrite Hd. apply IH. exact Hs.
Qed.

Lemma numeric_not_named k :
  isNaN k = false -> inherited_name k = false /\ String.eqb k "length" = false.
Proof.
  intros H. split.
  - unfold inherited_name, object_prototype_names. cbn [existsb].
    repeat match goal with
           | |- context [String.eqb k ?n] =>
               let E := fresh "E" in
               destruct (String.eqb k n) eqn:E;
               [apply String.eqb_eq in E; subst k; vm_compute in H; discriminate H|]
           end.
    reflexivity.
  - destruct (String.eqb k "length") eqn:E; [|reflexivity].
    apply String.eqb_eq in E. subst k. vm_compute in H. discriminate H.
Qed.

Lemma index_segment j : 0 <= j -> segment (Z_to_string j).
Proof.
  intros Hj. destruct (index_string_digits j Hj) as [Hd [_ [c [l [Hl _]]]]].
  split; [apply contains_dot_digits; exact Hd|].
  intros E. rewrite E in Hl. discriminate.
Qed.

Lemma set_at_descend kd props k next rest v :
  step_key kd k ->
  set_at (VObj kd props) (k :: next :: rest) v
  = bind (set_at (if negb (truthy (get_own k props)) then fresh_child kd next
                  else get_own k props) (next :: rest) v)
         (fun child => Ok (VObj kd (define_prop k child props))).
Proof.
  intros [Hin Hk]. destruct kd.
  - apply set_at_name; assumption.
  - destruct Hk as [Hnum [Hik _]]. apply set_at_index; assumption.
Qed.

Lemma set_at_leaf kd props k v :
  step_key kd k ->
  set_at (VObj kd props) [k] v = Ok (VObj kd (define_prop k v props)).
Proof.
  intros [Hin Hk]. apply set_at_last; [exact Hin|].
  intros ->. apply Hk.
Qed.

Lemma set_at_container kd props ks v c :
  set_at (VObj kd props) ks v = Ok c -> exists props', c = VObj kd props'.
Proof.
  destruct ks as [|k [|next rest]].
  - simpl. intros H. inversion H. eauto.
  - cbn [set_at assign_prop].
    destruct (String.eqb k "__proto__"); [discriminate|].
    destruct (isArray (VObj kd props) && String.eqb k "length"); [discriminate|].
    intros H. inversion H. eauto.
  - cbn [set_at]. destruct (negb (isNaN k)).
    + destruct (negb (isArray (VObj kd props))).
      * intros H. inversion H. eauto.
      * intros H. apply bind_ok in H. destruct H as [ik [_ H]].
        apply bind_ok in H. destruct H as [child [_ H]].
        inversion H. simpl. eauto.
    + intros H. apply bind_ok in H. destruct H as [existing [_ H]].
      apply bind_ok in H. destruct H as [child [_ H]].
      inversion H. simpl. eauto.
Qed.

(** ** Own properties at the end of the list *)

Lemma lookup_none_keys k (D : list (string * value)) :
  lookup k D = None <-> ~ In k (map fst D).
Proof.
  induction D as [|[k' v] D IH]; simpl.
  - split; [intros _ []|reflexivity].
  - destruct (String.eqb k k') eqn:E.
    + apply String.eqb_eq in E. subst. split; [discriminate|].
      intros H. exfalso. apply H. left. reflexivity.
    + rewrite IH. split.
      * intros H [H1|H1]; [subst; rewrite string_eqb_refl in E; discriminate|auto].
      * intros H H1. apply H. right. exact H1.
Qed.

Lemma get_own_last k c D : lookup k D = None -> get_own k (D ++ [(k, c)]) = c.
Proof.
  intros H. unfold get_own. rewrite (lookup_app_absent k k c D H), string_eqb_refl.
  reflexivity.
Qed.

Lemma define_last k c c' D :
  lookup k D = None -> define_prop k c' (D ++ [(k, c)]) = D ++ [(k, c')].
Proof.
  intros H. unfold define_prop, has_key.
  rewrite (lookup_app_absent k k c D H), string_eqb_refl.
  induction D as [|[k2 v2] D IH]; simpl.
  - rewrite string_eqb_refl. reflexivity.
  - simpl in H. destruct (String.eqb k k2); [discriminate|].
    rewrite (IH H). reflexivity.
Qed.

Lemma define_new_named k c D :
  lookup k D = None -> array_index k = None -> define_prop k c D = D ++ [(k, c)].
Proof.
  intros H Hi. unfold define_prop, has_key. rewrite H, Hi. reflexivity.
Qed.

Lemma insert_index_end j k c D :
  (forall k', In k' (map fst D) -> exists m, array_index k' = Some m /\ m < j) ->
  insert_index j k c D = D ++ [(k, c)].
Proof.
  induction D as [|[k2 v2] D IH]; simpl; intros H; [reflexivity|].
  destruct (H k2 (or_introl eq_refl)) as [m [Hm Hlt]]. rewrite Hm.
  apply Z.ltb_lt in Hlt. rewrite Hlt. rewrite IH; [reflexivity|].
  intros k' Hk'. apply H. right. exact Hk'.
Qed.

Lemma define_new_index j k c D :
  lookup k D = None -> array_index k = Some j ->
  (forall k', In k' (map fst D) -> exists m, array_index k' = Some m /\ m < j) ->
  define_prop k c D = D ++ [(k, c)].
Proof.
  intros H Hi HD. unfold define_prop, has_key. rewrite H, Hi.
  apply insert_index_end. exact HD.
Qed.

(** ** Replaying records *)

Lemma replay_throw recs e : replay recs (Throw e) = Throw e.
Proof. induction recs; simpl; [reflexivity|assumption]. Qed.

Lemma replay_out recs : replay recs OutOfModel = OutOfModel.
Proof. induction recs; simpl; [reflexivity|assumption]. Qed.

Lemma replay_app l1 l2 acc : replay (l1 ++ l2) acc = replay l2 (replay l1 acc).
Proof. apply fold_left_app. Qed.

(** Records that go through a child already in place change the
    child and nothing else. *)
Lemma replay_lifted kd k D recs : forall kc cps,
  step_key kd k ->
  lookup k D = None ->
  (forall r, In r recs -> fst r <> []) ->
  replay (map (under k) recs) (Ok (VObj kd (D ++ [(k, VObj kc cps)])))
  = bind (replay recs (Ok (VObj kc cps)))
         (fun c => Ok (VObj kd (D ++ [(k, c)]))).
Proof.
  induction recs as [|[ks v] recs IH]; intros kc cps Hk HD Hne.
  - reflexivity.
  - assert (Hks : ks <> []) by (apply (Hne (ks, v)); left; reflexivity).
    destruct ks as [|next rest]; [contradiction|].
    cbn [map replay fold_left]. unfold replay_step at 2 4.
    cbn [bind fst snd under].
    rewrite (set_at_descend kd _ k next rest _ Hk).
    rewrite (get_own_last k _ D HD). cbn [truthy negb].
    destruct (set_at (VObj kc cps) (next :: rest) (str v)) as [c|e|] eqn:Hset;
      cbn [bind].
    + destruct (set_at_container _ _ _ _ _ Hset) as [cps' ->].
      rewrite (define_last k _ _ D HD).
      apply (IH kc cps' Hk HD). intros r Hr. apply Hne. right. exact Hr.
    + fold (replay (map (under k) recs) (Throw e)). fold (replay recs (Throw e)).
      rewrite !replay_throw. reflexivity.
    + fold (replay (map (under k) recs) (@OutOfModel value)).
      fold (replay recs (@OutOfModel value)).
      rewrite !replay_out. reflexivity.
Qed.

(** The first record under a new key creates the child. *)
Lemma replay_created kd k D next rest v recs :
  step_key kd k ->
  lookup k D = None ->
  (forall c, define_prop k c D = D ++ [(k, c)]) ->
  (forall r, In r recs -> fst r <> []) ->
  replay (map (under k) ((next :: rest, v) :: recs)) (Ok (VObj kd D))
  = bind (replay ((next :: rest, v) :: recs) (Ok (fresh_child kd next)))
         (fun c => Ok (VObj kd (D ++ [(k, c)]))).
Proof.
  intros Hk HD Happ Hne.
  cbn [map replay fold_left]. unfold replay_step at 2 4.
  cbn [bind fst snd under].
  rewrite (set_at_descend kd _ k next rest _ Hk).
  assert (Hget : get_own k D = undefined) by (unfold get_own; rewrite HD; reflexivity).
  rewrite Hget. cbn [truthy undefined truthy_prim negb].
  assert (Hfresh : exists kc, fresh_child kd next = VObj kc []).
  { unfold fresh_child, empty_array, empty_object.
    destruct kd; [destruct (negb (isNaN next))|]; eauto. }
  destruct Hfresh as [kc Hfresh]. rewrite Hfresh.
  destruct (set_at (VObj kc []) (next :: rest) (str v)) as [c|e|] eqn:Hset;
    cbn [bind].
  - destruct (set_at_container _ _ _ _ _ Hset) as [cps' ->].
    rewrite Happ. apply (replay_lifted kd k D recs kc cps' Hk HD Hne).
  - fold (replay (map (under k) recs) (Throw e)). fold (replay recs (Throw e)).
    rewrite !replay_throw. reflexivity.
  - fold (replay (map (under k) recs) (@OutOfModel value)).
    fold (replay recs (@OutOfModel value)).
    rewrite !replay_out. reflexivity.
Qed.

(** ** Well-formed containers *)

Lemma coerce_container kd props : coerce (VObj kd props) = VObj kd (cmap props).
Proof. reflexivity. Qed.

Lemma keys_cmap props : map fst (cmap props) = map fst props.
Proof. unfold cmap. rewrite map_map. reflexivity. Qed.

Lemma wf_object pos props :
  well_formed pos (VObj Plain props) = true ->
  props <> []
  /\ forallb plain_key (map fst props) = true
  /\ distinct (map fst props) = true
  /\ forallb (fun kv => well_formed Member (snd kv)) props = true.
Proof.
  cbn [well_formed]. intros H.
  repeat (apply andb_true_iff in H; destruct H as [H ?]).
  repeat split; try assumption. intros ->. discriminate.
Qed.

Lemma wf_array pos props :
  well_formed pos (VObj Array props) = true ->
  pos = Member
  /\ props <> []
  /\ index_keys_from 0 (map fst props) = true
  /\ Z.of_nat (List.length props) < 4294967295
  /\ forallb (fun kv => well_formed Element (snd kv)) props = true.
Proof.
  cbn [well_formed]. destruct pos; try discriminate. intros H.
  repeat (apply andb_true_iff in H; destruct H as [H ?]).
  repeat split; try assumption.
  - intros ->. discriminate.
  - apply Z.ltb_lt. assumption.
Qed.

Lemma distinct_middle l1 k l2 : distinct (l1 ++ k :: l2) = true -> ~ In k l1.
Proof.
  induction l1 as [|a l1 IH]; simpl; intros H; [intros []|].
  apply andb_true_iff in H. destruct H as [Ha Hd].
  intros [->|Hin]; [|exact (IH Hd Hin)].
  apply negb_true_iff in Ha. rewrite existsb_app in Ha. simpl in Ha.
  rewrite string_eqb_refl in Ha. simpl in Ha. rewrite orb_true_r in Ha. discriminate.
Qed.

Lemma index_keys_middle l1 : forall a k l2,
  index_keys_from a (l1 ++ k :: l2) = true ->
  k = Z_to_string (a + Z.of_nat (List.length l1))
  /\ forall k', In k' l1 ->
       exists i, a <= i < a + Z.of_nat (List.length l1) /\ k' = Z_to_string i.
Proof.
  induction l1 as [|b l1 IH]; intros a k l2 H.
  - simpl in H. apply andb_true_iff in H. destruct H as [H _].
    apply String.eqb_eq in H. split; [rewrite H; f_equal; simpl; lia|intros k' []].
  - cbn [app index_keys_from] in H. apply andb_true_iff in H. destruct H as [Hb H].
    apply String.eqb_eq in Hb. destruct (IH (a + 1) k l2 H) as [Hk Hl].
    split; [rewrite Hk; f_equal; cbn [List.length]; lia|].
    intros k' [<-|Hin].
    + exists a. split; [cbn [List.length]; lia|exact Hb].
    + destruct (Hl k' Hin) as [i [Hi Hki]]. exists i.
      split; [cbn [List.length]; lia|exact Hki].
Qed.

(** What a container's well-formedness says of one of its members,
    once those before it are in place. *)
Lemma member_env kd pos done k x todo :
  well_formed pos (VObj kd (done ++ (k, x) :: todo)) = true ->
  step_key kd k
  /\ segment k
  /\ lookup k (cmap done) = None
  /\ (forall c, define_prop k c (cmap done) = cmap done ++ [(k, c)])
  /\ well_formed (child_pos kd) x = true
  /\ (array_index k = None <-> kd = Plain)
  /\ isNaN k = match kd with Plain => true | Array => false end.
Proof.
  intros H. destruct kd.
  - destruct (wf_object _ _ H) as [_ [Hkeys [Hdist Hmem]]].
    rewrite map_app in Hkeys, Hdist. cbn [map fst] in Hkeys, Hdist.
    rewrite forallb_app in Hkeys. apply andb_true_iff in Hkeys.
    destruct Hkeys as [_ Hkeys]. cbn [forallb] in Hkeys.
    apply andb_true_iff in Hkeys. destruct Hkeys as [Hk _].
    destruct (plain_key_facts k Hk) as [Hnum [Hin [Hidx Hseg]]].
    assert (Hnone : lookup k (cmap done) = None).
    { apply lookup_none_keys. rewrite keys_cmap. apply (distinct_middle _ _ _ Hdist). }
    rewrite forallb_app in Hmem. apply andb_true_iff in Hmem.
    destruct Hmem as [_ Hmem]. cbn [forallb snd] in Hmem.
    apply andb_true_iff in Hmem. destruct Hmem as [Hx _].
    split; [split; assumption|]. split; [exact Hseg|]. split; [exact Hnone|].
    split; [intros c; apply define_new_named; assumption|].
    split; [exact Hx|]. split; [|exact Hnum].
    split; [reflexivity|intros _; exact Hidx].
  - destruct (wf_array _ _ H) as [_ [_ [Hkeys [Hlen Hmem]]]].
    rewrite map_app in Hkeys. cbn [map fst] in Hkeys.
    destruct (index_keys_middle _ _ _ _ Hkeys) as [Hk Hdone].
    rewrite length_map in Hk, Hdone. cbn [Z.add] in Hk.
    rewrite length_app in Hlen. cbn [List.length] in Hlen.
    set (j := Z.of_nat (List.length done)) in *.
    assert (Hj : 0 <= j < 4294967295) by (unfold j; lia).
    destruct (index_key_facts j Hj) as [Hnum [Hik Hidx]]. rewrite <- Hk in *.
    destruct (numeric_not_named k Hnum) as [Hin Hlength].
    assert (Hbefore : forall k', In k' (map fst (cmap done)) ->
                        exists m, array_index k' = Some m /\ m < j).
    { intros k' Hk'. rewrite keys_cmap in Hk'. destruct (Hdone k' Hk') as [i [Hi ->]].
      exists i. split; [apply index_key_facts; lia|lia]. }
    assert (Hnone : lookup k (cmap done) = None).
    { apply lookup_none_keys. intros Hin'. destruct (Hbefore k Hin') as [m [Hm Hlt]].
      rewrite Hidx in Hm. inversion Hm. lia. }
    rewrite forallb_app in Hmem. apply andb_true_iff in Hmem.
    destruct Hmem as [_ Hmem]. cbn [forallb snd] in Hmem.
    apply andb_true_iff in Hmem. destruct Hmem as [Hx _].
    split; [split; [exact Hin|repeat split; assumption]|].
    split; [rewrite Hk; apply index_segment; lia|].
    split; [exact Hnone|].
    split; [intros c; apply (define_new_index j); assumption|].
    split; [exact Hx|]. split; [|exact Hnum].
    rewrite Hidx. split; discriminate.
Qed.

Lemma leaves_keys_nonempty kd props r :
  In r (leaves (VObj kd props)) -> fst r <> [].
Proof.
  cbn [leaves]. intros H. apply in_flat_map in H. destruct H as [kv [_ H]].
  apply in_map_iff in H. destruct H as [r' [<- _]]. discriminate.
Qed.

Lemma leaves_nonempty n : forall v pos,
  (size v < n)%nat -> well_formed pos v = true -> leaves v <> [].
Proof.
  induction n as [|n IH]; intros v pos Hn Hwf; [lia|].
  destruct v as [p|kd props]; [discriminate|].
  assert (Hne : props <> []).
  { destruct kd; [apply (wf_object _ _ Hwf)|apply (wf_array _ _ Hwf)]. }
  destruct props as [|[k x] props]; [contradiction|].
  destruct (member_env kd pos [] k x props Hwf) as [_ [_ [_ [_ [Hx _]]]]].
  cbn [leaves flat_map fst snd].
  assert (Hlx : leaves x <> []).
  { apply (IH x (child_pos kd)); [|exact Hx].
    pose proof (size_member k x kd ((k, x) :: props) (or_introl eq_refl)). lia. }
  destruct (leaves x); [contradiction|discriminate].
Qed.

(** The first record of a container tells its kind. *)
Lemma leaves_first pos kc cps :
  well_formed pos (VObj kc cps) = true ->
  exists k1 ks1 v1 more,
    leaves (VObj kc cps) = (k1 :: ks1, v1) :: more
    /\ isNaN k1 = match kc with Plain => true | Array => false end.
Proof.
  intros Hwf.
  assert (Hne : cps <> []).
  { destruct kc; [apply (wf_object _ _ Hwf)|apply (wf_array _ _ Hwf)]. }
  destruct cps as [|[k x] cps]; [contradiction|].
  destruct (member_env kc pos [] k x cps Hwf) as [_ [_ [_ [_ [Hx [_ Hnum]]]]]].
  pose proof (leaves_nonempty (S (size x)) x (child_pos kc) (Nat.lt_succ_diag_r _) Hx)
    as Hlx.
  cbn [leaves flat_map fst snd]. destruct (leaves x) as [|[ks v] rs]; [contradiction|].
  exists k, ks, v, (map (under k) rs ++
                    flat_map (fun kv => map (under (fst kv)) (leaves (snd kv))) cps).
  split; [reflexivity|exact Hnum].
Qed.

(** Replaying the records of a well-formed container into an empty
    container of its kind rebuilds it, leaves coerced. *)
Lemma rebuild n : forall kd props pos,
  (size (VObj kd props) < n)%nat ->
  well_formed pos (VObj kd props) = true ->
  replay (leaves (VObj kd props)) (Ok (VObj kd [])) = Ok (coerce (VObj kd props)).
Proof.
  induction n as [|n IH]; intros kd props pos Hn Hwf; [lia|].
  assert (Hall : forall todo done,
             props = done ++ todo ->
             replay (flat_map (fun kv => map (under (fst kv)) (leaves (snd kv))) todo)
                    (Ok (VObj kd (cmap done)))
             = Ok (VObj kd (cmap (done ++ todo)))).
  { induction todo as [|[k x] todo IHt]; intros done Heq.
    - rewrite List.app_nil_r. reflexivity.
    - subst props.
      destruct (member_env kd pos done k x todo Hwf)
        as [Hkey [_ [Hnone [Happ [Hx [Hidx Hnum]]]]]].
      cbn [flat_map fst snd]. rewrite replay_app.
      assert (Hstep : replay (map (under k) (leaves x)) (Ok (VObj kd (cmap done)))
                      = Ok (VObj kd (cmap done ++ [(k, coerce x)]))).
      { destruct x as [p|kc cps].
        - cbn [leaves map under fst snd replay fold_left]. unfold replay_step.
          cbn [bind fst snd]. rewrite (set_at_leaf kd _ k _ Hkey), Happ. reflexivity.
        - destruct (leaves_first _ kc cps Hx) as [k1 [ks1 [v1 [more [Hl Hk1]]]]].
          rewrite Hl.
          rewrite (replay_created kd k (cmap done) k1 ks1 v1 more Hkey Hnone Happ).
          + rewrite <- Hl.
            assert (Hfresh : fresh_child kd k1 = VObj kc []).
            { unfold fresh_child. destruct kd.
              - rewrite Hk1. destruct kc; reflexivity.
              - destruct kc; [reflexivity|].
                cbn [child_pos] in Hx. apply wf_array in Hx. destruct Hx as [Hx _].
                discriminate. }
            rewrite Hfresh.
            rewrite (IH kc cps (child_pos kd)); [reflexivity| |exact Hx].
            assert (Hin : In (k, VObj kc cps) (done ++ (k, VObj kc cps) :: todo)).
            { apply in_or_app. right. left. reflexivity. }
            pose proof (size_member _ _ kd _ Hin). lia.
          + intros r Hr. apply (leaves_keys_nonempty kc cps). rewrite Hl.
            right. exact Hr. }
      rewrite Hstep.
      replace (cmap done ++ [(k, coerce x)]) with (cmap (done ++ [(k, x)]))
        by (unfold cmap; rewrite map_app; reflexivity).
      rewrite (IHt (done ++ [(k, x)])).
      + rewrite <- List.app_assoc. reflexivity.
      + rewrite <- List.app_assoc. reflexivity. }
  apply (Hall props []). reflexivity.
Qed.

Lemma leaves_segments n : forall v pos r,
  (size v < n)%nat -> well_formed pos v = true ->
  In r (leaves v) -> Forall segment (fst r).
Proof.
  induction n as [|n IH]; intros v pos r Hn Hwf Hr; [lia|].
  destruct v as [p|kd props].
  - destruct Hr as [<-|[]]. constructor.
  - cbn [leaves] in Hr. apply in_flat_map in Hr. destruct Hr as [[k x] [Hkx Hr]].
    apply in_map_iff in Hr. destruct Hr as [r' [<- Hr']]. cbn [fst snd] in *.
    destruct (in_split _ _ Hkx) as [done [todo ->]].
    destruct (member_env kd pos done k x todo Hwf) as [_ [Hseg [_ [_ [Hx _]]]]].
    constructor; [exact Hseg|].
    apply (IH x (child_pos kd)); [|exact Hx|exact Hr'].
    pose proof (size_member _ _ kd _ Hkx). lia.
Qed.

(** ** Under a prefix *)

Lemma rebuild_prefixed pk : forall props pos,
  forallb plain_key pk = true ->
  well_formed pos (VObj Plain props) = true ->
  replay (map (prefixed pk) (leaves (VObj Plain props))) (Ok empty_object)
  = Ok (nest pk (coerce (VObj Plain props))).
Proof.
  induction pk as [|k pk IH]; intros props pos Hpk Hwf.
  - replace (map (prefixed []) (leaves (VObj Plain props)))
      with (leaves (VObj Plain props)).
    + apply (rebuild (S (size (VObj Plain props))) Plain props pos); [lia|exact Hwf].
    + rewrite <- (map_id (leaves (VObj Plain props))) at 1.
      apply map_ext. intros [ks v]. reflexivity.
  - cbn [forallb] in Hpk. apply andb_true_iff in Hpk. destruct Hpk as [Hk Hpk].
    destruct (plain_key_facts k Hk) as [Hnum [Hin [Hidx _]]].
    destruct (leaves_first pos Plain props Hwf) as [k1 [ks1 [v1 [more [Hl Hk1]]]]].
    replace (map (prefixed (k :: pk)) (leaves (VObj Plain props)))
      with (map (under k) (map (prefixed pk) (leaves (VObj Plain props))))
      by (rewrite map_map; reflexivity).
    specialize (IH props pos Hpk Hwf). rewrite Hl in *. cbn [map] in *.
    assert (Hhead : exists next rest,
               prefixed pk (k1 :: ks1, v1) = (next :: rest, v1)
               /\ isNaN next = true).
    { unfold prefixed. cbn [fst snd]. destruct pk as [|k2 pk'].
      - exists k1, ks1. split; [reflexivity|exact Hk1].
      - exists k2, (pk' ++ k1 :: ks1). split; [reflexivity|].
        cbn [forallb] in Hpk. apply andb_true_iff in Hpk.
        apply (plain_key_facts k2). apply Hpk. }
    destruct Hhead as [next [rest [Hfirst Hnext]]]. rewrite Hfirst in *.
    unfold empty_object in *.
    change (under k (next :: rest, v1) :: map (under k) (map (prefixed pk) more))
      with (map (under k) ((next :: rest, v1) :: map (prefixed pk) more)).
    rewrite (replay_created Plain k [] next rest v1 (map (prefixed pk) more)).
    + unfold fresh_child. rewrite Hnext. cbn [negb]. unfold empty_object.
      rewrite IH. reflexivity.
    + split; assumption.
    + reflexivity.
    + intros c. apply define_new_named; [reflexivity|exact Hidx].
    + intros r Hr. apply in_map_iff in Hr. destruct Hr as [r' [<- Hr']].
      unfold prefixed. cbn [fst].
      assert (fst r' <> []).
      { apply (leaves_keys_nonempty Plain props). rewrite Hl. right. exact Hr'. }
      destruct pk; [assumption|discriminate].
Qed.

(** ** What [storeCmiData] writes *)

Lemma setCmiData_present d sid s el v :
  stmt_getSession d sid = Some s ->
  setCmiData sid el v d = (write_one sid d (el, v), Ok tt).
Proof.
  intros H. unfold setCmiData, rethrow, write_one, stmt_insertCmiData.
  cbn [fst snd]. rewrite H. reflexivity.
Qed.

Lemma write_one_session sid d r sid' :
  stmt_getSession (write_one sid d r) sid' = stmt_getSession d sid'.
Proof.
  unfold write_one, stmt_insertCmiData. destruct (stmt_getSession d sid); reflexivity.
Qed.

Lemma write_all_session sid recs : forall d sid',
  stmt_getSession (write_all sid recs d) sid' = stmt_getSession d sid'.
Proof.
  induction recs as [|r recs IH]; intros d sid'; [reflexivity|].
  cbn [write_all fold_left]. fold (write_all sid recs (write_one sid d r)).
  rewrite IH. apply write_one_session.
Qed.

Lemma write_all_app sid l1 l2 d :
  write_all sid (l1 ++ l2) d = write_all sid l2 (write_all sid l1 d).
Proof. apply fold_left_app. Qed.

Lemma named_under pre k r : named pre (under k r) = named (element_name pre k) r.
Proof. reflexivity. Qed.

(** On a well-formed object, with the session in place,
    [storeCmiData] writes one record per leaf, in order, and
    returns. *)
Lemma store_object sid n : forall props pos pre d s,
  (size (VObj Plain props) < n)%nat ->
  well_formed pos (VObj Plain props) = true ->
  stmt_getSession d sid = Some s ->
  storeCmiData sid (VObj Plain props) pre d
  = (write_all sid (map (named pre) (leaves (VObj Plain props))) d, Ok tt).
Proof.
  induction n as [|n IH]; intros props pos pre d s Hn Hwf Hs; [lia|].
  cbn [storeCmiData leaves].
  assert (Hall : forall todo done d,
             props = done ++ todo ->
             stmt_getSession d sid = Some s ->
             each_entry (storeCmiData sid) sid pre todo d
             = (write_all sid
                  (map (named pre)
                     (flat_map (fun kv => map (under (fst kv)) (leaves (snd kv))) todo))
                  d, Ok tt)).
  { clear d Hs. induction todo as [|[k x] todo IHt]; intros done d Heq Hs.
    - reflexivity.
    - subst props.
      destruct (member_env Plain pos done k x todo Hwf)
        as [_ [[_ Hk] [_ [_ [Hx _]]]]].
      assert (Hin : In (k, x) (done ++ (k, x) :: todo)).
      { apply in_or_app. right. left. reflexivity. }
      pose proof (size_member _ _ Plain _ Hin) as Hsz.
      assert (Hel : element_name pre k <> "") by (apply element_name_nonempty; exact Hk).
      assert (Hentry : store_entry (storeCmiData sid) sid pre k x d
                       = (write_all sid (map (named pre) (map (under k) (leaves x))) d,
                          Ok tt)).
      { unfold store_entry. destruct x as [p|[|] cps].
        - apply (setCmiData_present d sid s). exact Hs.
        - rewrite (IH cps Member (element_name pre k) d s); [|lia|exact Hx|exact Hs].
          rewrite map_map. reflexivity.
        - (* an array: [forEach] over its elements *)
          cbn [leaves]. set (el := element_name pre k) in *.
          assert (Hitems : forall todo' done' d,
                     cps = done' ++ todo' ->
                     stmt_getSession d sid = Some s ->
                     forEach_item (storeCmiData sid) sid el todo' d
                     = (write_all sid
                          (map (named el)
                             (flat_map (fun kv => map (under (fst kv)) (leaves (snd kv)))
                                       todo'))
                          d, Ok tt)).
          { clear d Hs. induction todo' as [|[idx item] todo' IHi]; intros done' d Heq Hs.
            - reflexivity.
            - subst cps.
              destruct (member_env Array Member done' idx item todo' Hx)
                as [_ [_ [_ [_ [Hitem [Hidx _]]]]]].
              assert (Hin' : In (idx, item) (done' ++ (idx, item) :: todo')).
              { apply in_or_app. right. left. reflexivity. }
              pose proof (size_member _ _ Array _ Hin') as Hsz'.
              cbn [forEach_item flat_map fst snd].
              destruct (array_index idx) eqn:Eidx.
              2:{ exfalso. assert (Array = Plain) by (apply Hidx; reflexivity).
                  discriminate. }
              assert (Hone : (match item with
                              | VObj _ _ => storeCmiData sid item (dotted el idx)
                              | VPrim PNull => raise TypeError
                              | VPrim p => setCmiData sid (dotted el idx) (String_ p)
                              end) d
                             = (write_all sid
                                  (map (named el) (map (under idx) (leaves item))) d,
                                Ok tt)).
              { destruct item as [p|kc ips].
                - assert (Hname : named el (under idx ([], String_ p))
                                  = (dotted el idx, String_ p)).
                  { unfold named, under, path. cbn [fst snd fold_left].
                    rewrite element_name_dotted by exact Hel. reflexivity. }
                  cbn [leaves map]. rewrite Hname.
                  destruct p; try discriminate Hitem;
                    apply (setCmiData_present d sid s); exact Hs.
                - destruct kc.
                  + rewrite (IH ips Element (dotted el idx) d s);
                      [|lia|exact Hitem|exact Hs].
                    rewrite map_map. f_equal. f_equal. apply map_ext. intros r.
                    rewrite named_under, element_name_dotted by exact Hel.
                    reflexivity.
                  + discriminate Hitem. }
              unfold and_then. rewrite Hone.
              rewrite (IHi (done' ++ [(idx, item)]));
                [|rewrite <- List.app_assoc; reflexivity
                 |rewrite write_all_session; exact Hs].
              rewrite map_app, write_all_app. reflexivity. }
          rewrite (Hitems cps [] d eq_refl Hs). rewrite map_map.
          reflexivity. }
      cbn [each_entry flat_map fst snd]. unfold and_then. rewrite Hentry.
      rewrite (IHt (done ++ [(k, x)]));
        [|rewrite <- List.app_assoc; reflexivity|rewrite write_all_session; exact Hs].
      rewrite map_app, write_all_app. reflexivity. }
  apply (Hall props [] d eq_refl Hs).
Qed.

(** ** Reading the records back *)

Lemma write_all_rows sid recs : forall d s,
  stmt_getSession d sid = Some s ->
  exists rows,
    cmi_data (write_all sid recs d) = cmi_data d ++ rows
    /\ map (fun r => (element r, value_ r)) rows = recs
    /\ (forall r, In r rows -> cmi_session r = sid /\ timestamp r = now d).
Proof.
  induction recs as [|[el v] recs IH]; intros d s Hs.
  - exists []. rewrite List.app_nil_r.
    split; [reflexivity|]. split; [reflexivity|]. intros row [].
  - cbn [write_all fold_left]. fold (write_all sid recs (write_one sid d (el, v))).
    assert (Hs1 : stmt_getSession (write_one sid d (el, v)) sid = Some s).
    { rewrite write_one_session. exact Hs. }
    destruct (IH _ s Hs1) as [rows [Hrows [Hmap Hall]]].
    assert (Hw : write_one sid d (el, v)
                 = with_cmi_data d
                     (cmi_data d ++
                      [{| cmi_id := next_id (map cmi_id (cmi_data d));
                          cmi_session := sid; element := el; value_ := v;
                          timestamp := now d |}])).
    { unfold write_one, stmt_insertCmiData. cbn [fst snd]. rewrite Hs. reflexivity. }
    rewrite Hw in *. cbn [cmi_data with_cmi_data now] in Hrows, Hall.
    eexists (_ :: rows). split; [rewrite Hrows, <- List.app_assoc; reflexivity|].
    split; [cbn [map element value_]; rewrite Hmap; reflexivity|].
    intros r [<-|Hr]; [split; reflexivity|apply Hall; exact Hr].
Qed.

Lemma filter_all {A} (f : A -> bool) l :
  (forall x, In x l -> f x = true) -> filter f l = l.
Proof.
  induction l as [|x l IH]; simpl; intros H; [reflexivity|].
  rewrite (H x (or_introl eq_refl)), IH; [reflexivity|].
  intros y Hy. apply H. right. exact Hy.
Qed.

Lemma filter_none {A} (f : A -> bool) l :
  (forall x, In x l -> f x = false) -> filter f l = [].
Proof.
  induction l as [|x l IH]; simpl; intros H; [reflexivity|].
  rewrite (H x (or_introl eq_refl)). apply IH.
  intros y Hy. apply H. right. exact Hy.
Qed.

Lemma fold_left_through {A B C} (f : A -> B -> A) (h : C -> B) l a :
  fold_left (fun acc x => f acc (h x)) l a = fold_left f (map h l) a.
Proof.
  revert a. induction l as [|x l IH]; intros a; [reflexivity|]. simpl. apply IH.
Qed.

(** Stored under [pre] in a session that had no record, a
    well-formed object comes back under the segments of [pre], leaves
    coerced. *)
Lemma stored_then_read d sid s props pre :
  well_formed Root (VObj Plain props) = true ->
  stmt_getSession d sid = Some s ->
  (forall r, In r (cmi_data d) -> cmi_session r <> sid) ->
  forallb plain_key (prefix_keys pre) = true ->
  let stored_ := fst (storeCmiData sid (VObj Plain props) pre d) in
  snd (storeCmiData sid (VObj Plain props) pre d) = Ok tt
  /\ getCmiData sid None stored_
     = (stored_, Ok (nest (prefix_keys pre) (coerce (VObj Plain props)))).
Proof.
  intros Hwf Hs Hfresh Hpre.
  rewrite (store_object sid (S (size (VObj Plain props))) props Root pre d s
             (Nat.lt_succ_diag_r _) Hwf Hs).
  cbn [fst snd]. split; [reflexivity|].
  set (recs := map (named pre) (leaves (VObj Plain props))).
  destruct (write_all_rows sid recs d s Hs) as [rows [Hrows [Hmap Hall]]].
  unfold getCmiData, build_cmi. f_equal.
  assert (Hsel : stmt_getAllCmiData (write_all sid recs d) sid = rows).
  { unfold stmt_getAllCmiData. rewrite Hrows, filter_app.
    rewrite (filter_none _ (cmi_data d)), (filter_all _ rows).
    - apply (StoreFacts.oldest_first_same_time rows (now d)).
      intros r Hr. apply Hall. exact Hr.
    - intros r Hr. apply String.eqb_eq. apply Hall. exact Hr.
    - intros r Hr. apply String.eqb_neq. apply Hfresh. exact Hr. }
  rewrite Hsel.
  rewrite (fold_left_through replay_step
             (fun item => (split dot (element item), value_ item)) rows).
  fold (replay (map (fun item => (split dot (element item), value_ item)) rows)
               (Ok empty_object)).
  replace (map (fun item => (split dot (element item), value_ item)) rows)
    with (map (prefixed (prefix_keys pre)) (leaves (VObj Plain props))).
  - apply (rebuild_prefixed _ props Root Hpre Hwf).
  - replace (map (fun item => (split dot (element item), value_ item)) rows)
      with (map (fun r => (split dot (fst r), snd r))
                (map (fun r => (element r, value_ r)) rows))
      by (rewrite map_map; reflexivity).
    rewrite Hmap. unfold recs. rewrite map_map. apply map_ext_in.
    intros r Hr. unfold prefixed, named. cbn [fst snd]. f_equal.
    symmetry. apply split_path.
    + apply (leaves_segments (S (size (VObj Plain props))) _ Root r
               (Nat.lt_succ_diag_r _) Hwf Hr).
    + apply (leaves_keys_nonempty Plain props). exact Hr.
Qed.

(** C1, as stated, fails: an empty object has no leaf, so it leaves
    no record and is missing from the rebuilt tree.  So is an empty
    array; a numeric key under an object key turns the object into an
    array; a key with a dot becomes two levels; an array inside an
    array comes back as an object; and [null] inside an array makes
    the flattening raise. *)
Lemma C1_counterexample :
  (round_trip "s1" "" (obj [("score", empty_object)]) sample_db = Ok empty_object
   /\ coerce (obj [("score", empty_object)]) <> empty_object)
  /\ round_trip "s1" "" (obj [("tags", empty_array)]) sample_db = Ok empty_object
  /\ round_trip "s1" "" (obj [("a", obj [("0", str "x")])]) sample_db
     = Ok (obj [("a", arr [("0", str "x")])])
  /\ round_trip "s1" "" (obj [("a.b", str "x")]) sample_db
     = Ok (obj [("a", obj [("b", str "x")])])
  /\ round_trip "s1" "" (obj [("a", arr [("0", arr [("0", num 1)])])]) sample_db
     = Ok (obj [("a", arr [("0", obj [("0", str "1")])])])
  /\ snd (storeCmiData "s1" (obj [("a", arr [("0", null)])]) "" sample_db)
     = Throw TypeError.
Proof. repeat split. discriminate. Qed.

(** C1, amended: for every tree made of non-empty objects whose keys
    are distinct, not numeric, free of dots and not members of
    [Object.prototype], with non-empty dense arrays only under
    object keys, holding such objects and scalars other than [null],
    and with string, number, boolean or [null] leaves: flattening it
    into a session that has no record yet and rebuilding the tree
    from the records yields the tree with every leaf coerced to its
    string form, under the key [cmi] with the prefix a commit uses,
    and as it is with the empty prefix. *)
Theorem C1_round_trip_of_well_formed_trees :
  forall d sid T,
    well_formed Root T = true ->
    stmt_getSession d sid <> None ->
    (forall r, In r (cmi_data d) -> cmi_session r <> sid) ->
    (let stored_ := fst (storeCmiData sid T "cmi" d) in
     snd (storeCmiData sid T "cmi" d) = Ok tt
     /\ getCmiData sid None stored_ = (stored_, Ok (obj [("cmi", coerce T)])))
    /\ (let stored_ := fst (storeCmiData sid T "" d) in
        snd (storeCmiData sid T "" d) = Ok tt
        /\ getCmiData sid None stored_ = (stored_, Ok (coerce T))).
Proof.
  intros d sid T Hwf Hs Hfresh.
  destruct (stmt_getSession d sid) as [s|] eqn:Hsession; [clear Hs|contradiction].
  destruct T as [p|[|] props]; try discriminate Hwf.
  split.
  - apply (stored_then_read d sid s props "cmi" Hwf Hsession Hfresh). reflexivity.
  - apply (stored_then_read d sid s props "" Hwf Hsession Hfresh). reflexivity.
Qed.

Lemma C1_round_trip_of_well_formed_trees_witness :
  let T := obj [("completion_status", str "completed");
                ("score", obj [("raw", num 85)]);
                ("objectives", arr [("0", obj [("id", str "o1")]);
                                    ("1", obj [("id", str "o2");
                                               ("done", boolean true)])]);
                ("comments", null)] in
  snd (getCmiData "s1" None (fst (storeCmiData "s1" T "cmi" sample_db)))
  = Ok (obj [("cmi",
              obj [("completion_status", str "completed");
                   ("score", obj [("raw", str "85")]);
                   ("objectives", arr [("0", obj [("id", str "o1")]);
                                       ("1", obj [("id", str "o2");
                                                  ("done", str "true")])]);
                   ("comments", str "null")])]).
Proof.
  intros T.
  destruct (C1_round_trip_of_well_formed_trees sample_db "s1" T) as [[_ H] _].
  - reflexivity.
  - discriminate.
  - intros r [].
  - rewrite H. reflexivity.
Defined.

End TreeFacts.

(* ================================================================== *)
(** * Passes over the queue                                             *)
(* ================================================================== *)

Module PassFacts.
Import JS Db Call ScormApi OfflineSync Props Examples JSFacts QueueFacts FlightFacts Notions PassNotions Samples.

Section WithRuntime.
Context {RT : Runtime}.

Lemma settle_frame it st ok bad :
  let st1 := fst (fst (settle it st ok bad)) in
  sessions (database st1) = sessions (database st)
  /\ cmi_data (database st1) = cmi_data (database st)
  /\ interactions (database st1) = interactions (database st)
  /\ now (database st1) = now (database st)
  /\ syncInterval st1 = syncInterval st.
Proof.
  unfold settle, run, markSyncItemSynced, incrementSyncRetry, rethrow,
    and_then, exec, ret.
  destruct (processSyncItem it); cbn [fst snd database log_error with_database];
    [destruct (Config.maxRetries <=? retry_count it)|]; repeat split; reflexivity.
Qed.

Lemma settle_counts it st ok bad :
  snd (fst (settle it st ok bad)) = ok + (if resolves it then 1 else 0)
  /\ snd (settle it st ok bad) = bad + (if resolves it then 0 else 1).
Proof.
  unfold settle, resolves, run, markSyncItemSynced, incrementSyncRetry, rethrow,
    and_then, exec, ret.
  destruct (processSyncItem it); cbn [fst snd]; split; lia.
Qed.

(** The row of the queue an item of the batch was read from. *)
Lemma settle_row it st ok bad :
  NoDup (map id (sync_queue (database st))) ->
  In it (sync_queue (database st)) ->
  sync_queue (database (fst (fst (settle it st ok bad))))
  = map (settled [it] (now (database st))) (sync_queue (database st)).
Proof.
  intros Hnd Hin. rewrite settle_queue. unfold settled, resolves.
  destruct (processSyncItem it) as [e|] eqn:Hp; apply map_ext_in; intros r Hr;
    cbn [existsb]; rewrite orb_false_r, (Z.eqb_sym (id it) (id r));
    destruct (id r =? id it) eqn:E; try reflexivity;
    apply Z.eqb_eq in E;
    rewrite (unique_row _ r it Hnd Hr Hin E), Hp; reflexivity.
Qed.

Lemma settled_id batch t r : id (settled batch t r) = id r.
Proof.
  unfold settled. destruct (existsb _ batch); [|reflexivity].
  destruct (resolves r); reflexivity.
Qed.

Lemma settled_ids batch t q : map id (map (settled batch t) q) = map id q.
Proof. rewrite map_map. apply map_ext. intros r. apply settled_id. Qed.

Lemma resolves_retry r : resolves (retry_row r) = resolves r.
Proof. reflexivity. Qed.

Lemma settled_cons it rest t r :
  ~ In (id it) (map id rest) ->
  settled rest t (settled [it] t r) = settled (it :: rest) t r.
Proof.
  intros Hout. unfold settled at 2 3. cbn [existsb]. rewrite orb_false_r.
  destruct (id it =? id r) eqn:E.
  - cbn [orb]. apply Z.eqb_eq in E.
    assert (Hno : existsb (fun x => id x =? id r) rest = false).
    { destruct (existsb _ rest) eqn:Ex; [|reflexivity].
      apply existsb_exists in Ex. destruct Ex as [x [Hx Hid]].
      apply Z.eqb_eq in Hid. exfalso. apply Hout. rewrite E, <- Hid.
      apply in_map. exact Hx. }
    unfold settled. destruct (resolves r); cbn [id mark_row retry_row];
      rewrite Hno; reflexivity.
  - cbn [orb]. unfold settled. reflexivity.
Qed.

(** The loop of a pass, over items that are rows of the queue. *)
Lemma drain_rows items : forall st ok bad,
  NoDup (map id (sync_queue (database st))) ->
  NoDup (map id items) ->
  (forall it, In it items -> In it (sync_queue (database st))) ->
  let out := drain items st ok bad in
  let st' := fst (fst out) in
  sync_queue (database st')
  = map (settled items (now (database st))) (sync_queue (database st))
  /\ snd (fst out) = ok + Z.of_nat (List.length (filter resolves items))
  /\ snd out = bad + Z.of_nat (List.length (filter (fun it => negb (resolves it)) items))
  /\ sessions (database st') = sessions (database st)
  /\ cmi_data (database st') = cmi_data (database st)
  /\ interactions (database st') = interactions (database st)
  /\ now (database st') = now (database st)
  /\ syncing st' = syncing st
  /\ syncInterval st' = syncInterval st.
Proof.
  induction items as [|it rest IH]; intros st ok bad Hq Hnd Hin.
  - cbn [drain fst snd filter List.length]. unfold settled. cbn [existsb].
    rewrite map_id. repeat split; lia.
  - cbn [drain].
    pose proof (settle_row it st ok bad Hq (Hin it (or_introl eq_refl))) as Hrow.
    pose proof (settle_frame it st ok bad) as Hframe.
    pose proof (settle_counts it st ok bad) as Hcount.
    pose proof (settle_syncing it st ok bad) as Hsync.
    destruct (settle it st ok bad) as [[st1 ok1] bad1].
    cbn [fst snd] in Hrow, Hframe, Hcount, Hsync.
    destruct Hframe as [F1 [F2 [F3 [F4 F5]]]]. destruct Hcount as [C1 C2].
    cbn [map] in Hnd. apply NoDup_cons_iff in Hnd. destruct Hnd as [Hout Hrest].
    destruct (IH st1 ok1 bad1) as [Q [K1 [K2 [G1 [G2 [G3 [G4 [G5 G6]]]]]]]].
    + rewrite Hrow, settled_ids. exact Hq.
    + exact Hrest.
    + intros x Hx. rewrite Hrow.
      assert (Hxq : In x (sync_queue (database st))) by (apply Hin; right; exact Hx).
      apply in_map_iff. exists x. split; [|exact Hxq].
      unfold settled. cbn [existsb]. rewrite orb_false_r.
      destruct (id it =? id x) eqn:E; [|reflexivity].
      apply Z.eqb_eq in E. exfalso. apply Hout. rewrite E. apply in_map. exact Hx.
    + cbn zeta in *. rewrite Q, Hrow, F4, map_map.
      split; [apply map_ext; intros r; apply settled_cons; exact Hout|].
      cbn [filter]. destruct (resolves it); cbn [negb List.length];
        repeat split; try congruence; lia.
Qed.

Lemma pending_after_one it t q :
  NoDup (map id q) -> In it q -> is_pending it = true ->
  (List.length (filter is_pending (map (settled [it] t) q))
   + (if resolves it then 1 else 0)
   = List.length (filter is_pending q))%nat.
Proof.
  induction q as [|x q IH]; intros Hnd Hin Hp; [contradiction|].
  cbn [map] in Hnd. apply NoDup_cons_iff in Hnd. destruct Hnd as [Hout Hrest].
  cbn [map filter]. unfold settled at 1. cbn [existsb]. rewrite orb_false_r.
  destruct (id it =? id x) eqn:E.
  - apply Z.eqb_eq in E.
    assert (Hx : x = it).
    { destruct Hin as [Hin|Hin]; [exact Hin|].
      exfalso. apply Hout. rewrite <- E. apply in_map. exact Hin. }
    subst x. rewrite Hp.
    assert (Hsame : map (settled [it] t) q = q).
    { rewrite <- (map_id q) at 2. apply map_ext_in. intros r Hr.
      unfold settled. cbn [existsb]. rewrite orb_false_r.
      destruct (id it =? id r) eqn:E'; [|reflexivity].
      apply Z.eqb_eq in E'. exfalso. apply Hout. rewrite E'. apply in_map. exact Hr. }
    rewrite Hsame. destruct (resolves it).
    + cbn [is_pending mark_row synced Z.eqb List.length]. lia.
    + change (is_pending (retry_row it)) with (is_pending it). rewrite Hp.
      cbn [List.length]. lia.
  - assert (Hin' : In it q).
    { destruct Hin as [Hin|Hin]; [|exact Hin]. subst x.
      rewrite Z.eqb_refl in E. discriminate. }
    specialize (IH Hrest Hin' Hp).
    destruct (is_pending x); cbn [List.length]; lia.
Qed.

Lemma pending_after_pass batch t : forall q,
  NoDup (map id q) -> NoDup (map id batch) ->
  (forall it, In it batch -> In it q /\ is_pending it = true) ->
  (List.length (filter is_pending (map (settled batch t) q))
   + List.length (filter resolves batch)
   = List.length (filter is_pending q))%nat.
Proof.
  induction batch as [|it rest IH]; intros q Hq Hnd Hin.
  - unfold settled. cbn [existsb filter List.length]. rewrite map_id. lia.
  - cbn [map] in Hnd. apply NoDup_cons_iff in Hnd. destruct Hnd as [Hout Hrest].
    destruct (Hin it (or_introl eq_refl)) as [Hitq Hitp].
    pose proof (pending_after_one it t q Hq Hitq Hitp) as Hone.
    assert (Hmap : map (settled (it :: rest) t) q
                   = map (settled rest t) (map (settled [it] t) q)).
    { rewrite map_map. apply map_ext. intros r. symmetry.
      apply settled_cons. exact Hout. }
    rewrite Hmap.
    specialize (IH (map (settled [it] t) q)).
    rewrite settled_ids in IH. specialize (IH Hq Hrest).
    assert (Hrows : forall x, In x rest ->
              In x (map (settled [it] t) q) /\ is_pending x = true).
    { intros x Hx. destruct (Hin x (or_intror Hx)) as [Hxq Hxp].
      split; [|exact Hxp]. apply in_map_iff. exists x. split; [|exact Hxq].
      unfold settled. cbn [existsb]. rewrite orb_false_r.
      destruct (id it =? id x) eqn:E; [|reflexivity].
      apply Z.eqb_eq in E. exfalso. apply Hout. rewrite E. apply in_map. exact Hx. }
    specialize (IH Hrows). cbn [filter].
    destruct (resolves it); cbn [List.length]; lia.
Qed.

Lemma batch_rows d n it :
  In it (stmt_getPendingSync d n) -> In it (sync_queue d) /\ is_pending it = true.
Proof.
  intros H. apply pending_batch_in in H. destruct H as [H1 H2].
  split; [exact H1|]. unfold is_pending. rewrite H2. reflexivity.
Qed.

Lemma batch_size d :
  Z.of_nat (List.length (stmt_getPendingSync d Config.batchSize))
  = Z.min 100 (queue_depth d).
Proof.
  unfold stmt_getPendingSync. rewrite length_limit by (unfold Config.batchSize; lia).
  rewrite length_order_by. reflexivity.
Qed.

Lemma filter_split {A} (f : A -> bool) l :
  (List.length (filter f l) + List.length (filter (fun x => negb (f x)) l)
   = List.length l)%nat.
Proof.
  induction l as [|x l IH]; [reflexivity|]. cbn [filter].
  destruct (f x); cbn [negb List.length]; lia.
Qed.

(** What a pass that nothing interleaves with does, from the batch
    it reads. *)
Lemma pass_alone st :
  syncing st = false ->
  NoDup (map id (sync_queue (database st))) ->
  let d := database st in
  let batch := stmt_getPendingSync d Config.batchSize in
  let st' := fst (processSyncQueue st) in
  sync_queue (database st') = map (settled batch (now d)) (sync_queue d)
  /\ sessions (database st') = sessions d
  /\ cmi_data (database st') = cmi_data d
  /\ interactions (database st') = interactions d
  /\ now (database st') = now d
  /\ syncing st' = false
  /\ syncInterval st' = syncInterval st
  /\ snd (processSyncQueue st)
     = match batch with
       | [] => no_items
       | _ :: _ =>
           completed_ (Z.of_nat (List.length (filter resolves batch)))
                      (Z.of_nat (List.length
                                   (filter (fun it => negb (resolves it)) batch)))
                      (Z.of_nat (List.length batch))
       end.
Proof.
  intros Hs Hq d batch st'. subst st'. unfold processSyncQueue. rewrite Hs.
  cbn [database with_syncing]. fold d. fold batch.
  destruct batch as [|first rest] eqn:Hbatch.
  - cbn [fst snd database with_syncing syncing syncInterval].
    unfold settled. cbn [existsb]. rewrite map_id. repeat split; reflexivity.
  - rewrite <- Hbatch.
    destruct (drain_rows batch (with_syncing st true) 0 0)
      as [Q [K1 [K2 [G1 [G2 [G3 [G4 [G5 G6]]]]]]]].
    + exact Hq.
    + apply pending_batch_nodup. exact Hq.
    + intros it Hit. apply (batch_rows d Config.batchSize). exact Hit.
    + cbn [database with_syncing syncing syncInterval] in *.
      destruct (drain batch (with_syncing st true) 0 0) as [[st2 ok] bad].
      cbn [fst snd database with_syncing syncing syncInterval] in *.
      fold d in Q, G1, G2, G3, G4.
      repeat split; try assumption. rewrite K1, K2. reflexivity.
Qed.

(** A pass that runs alone settles exactly the batch it read: each
    row of the batch is marked synced at the current clock when its
    processing resolves and has its retry count raised by one when it
    rejects; every other row of the queue, the other tables, the
    clock and the timer are left as they were, and the guard is
    released. *)
Theorem pass_settles_its_batch :
  forall st,
    syncing st = false ->
    NoDup (map id (sync_queue (database st))) ->
    let d := database st in
    let batch := stmt_getPendingSync d Config.batchSize in
    let st' := fst (processSyncQueue st) in
    sync_queue (database st') = map (settled batch (now d)) (sync_queue d)
    /\ sessions (database st') = sessions d
    /\ cmi_data (database st') = cmi_data d
    /\ interactions (database st') = interactions d
    /\ now (database st') = now d
    /\ syncing st' = false
    /\ syncInterval st' = syncInterval st.
Proof.
  intros st Hs Hq d batch st'.
  destruct (pass_alone st Hs Hq) as [H1 [H2 [H3 [H4 [H5 [H6 [H7 _]]]]]]].
  repeat split; assumption.
Qed.

(** The report of a pass that runs alone adds up: with nothing
    pending it answers [no_items] and changes nothing; otherwise it
    answers [completed] with a total of min(100, pending), the
    entries whose processing resolved as synced and the others as
    errors, and the number of pending entries has gone down by
    exactly the synced ones. *)
Theorem pass_report_adds_up :
  forall st,
    syncing st = false ->
    NoDup (map id (sync_queue (database st))) ->
    let depth := queue_depth (database st) in
    let batch := stmt_getPendingSync (database st) Config.batchSize in
    let ok := Z.of_nat (List.length (filter resolves batch)) in
    (depth = 0 -> processSyncQueue st = (st, no_items))
    /\ (0 < depth ->
        snd (processSyncQueue st)
        = completed_ ok (Z.min 100 depth - ok) (Z.min 100 depth))
    /\ 0 <= ok <= Z.min 100 depth
    /\ queue_depth (database (fst (processSyncQueue st))) = depth - ok.
Proof.
  intros st Hs Hq depth batch ok.
  pose proof (batch_size (database st)) as Hsize.
  pose proof (filter_split resolves (stmt_getPendingSync (database st) Config.batchSize))
    as Hsplit.
  destruct (pass_alone st Hs Hq) as [H1 [_ [_ [_ [_ [_ [_ H8]]]]]]].
  pose proof (pending_after_pass
                (stmt_getPendingSync (database st) Config.batchSize)
                (now (database st)) (sync_queue (database st)) Hq
                (pending_batch_nodup _ _ Hq)
                (fun it Hit => batch_rows (database st) Config.batchSize it Hit))
    as Hcount.
  subst depth ok batch. cbv zeta in *.
  remember (stmt_getPendingSync (database st) Config.batchSize) as batch eqn:Hb.
  split; [|split; [|split]].
  - intros Hd. assert (Hnil : batch = []).
    { destruct batch; [reflexivity|]. cbn [List.length] in Hsize. lia. }
    unfold processSyncQueue. rewrite Hs. cbn [database with_syncing].
    rewrite <- Hb, Hnil. destruct st as [d s i c]. cbn in Hs. subst s. reflexivity.
  - intros Hd. rewrite H8. destruct batch as [|b batch'].
    + cbn [List.length] in Hsize. lia.
    + f_equal; lia.
  - lia.
  - unfold queue_depth at 1. rewrite H1. unfold queue_depth in *. lia.
Qed.

(** One pass over an entry that rejects, with what it logs. *)
Lemma failing_pass_log st it e :
  syncing st = false ->
  sync_queue (database st) = [it] ->
  synced it = 0 ->
  processSyncItem it = Some e ->
  let st' := fst (processSyncQueue st) in
  syncing st' = false
  /\ sync_queue (database st') = [retry_row it]
  /\ console_error st'
     = console_error st ++ FailedToSync (id it) e
         :: (if Config.maxRetries <=? retry_count it
             then [MaxRetriesExceeded (id it)] else []).
Proof.
  intros Hs Hq Hp He. unfold processSyncQueue. rewrite Hs.
  unfold stmt_getPendingSync. cbn [database with_syncing].
  rewrite Hq. cbn [filter]. rewrite Hp. cbn [Z.eqb].
  cbn [order_by fold_right insert_sorted limit Config.batchSize Z.ltb Z.compare
       Z.to_nat Pos.to_nat Pos.iter_op Nat.add firstn drain].
  change (firstn (Pos.to_nat 100) [it]) with [it].
  cbn [drain List.length]. unfold settle. rewrite He.
  unfold run, incrementSyncRetry, rethrow, and_then, exec, ret.
  cbn [database log_error with_database fst snd].
  assert (Hrow : sync_queue (stmt_incrementRetry (database st) (id it))
                 = [retry_row it]).
  { unfold stmt_incrementRetry. cbn [sync_queue with_sync_queue].
    rewrite Hq. cbn [map]. rewrite Z.eqb_refl. reflexivity. }
  destruct (Config.maxRetries <=? retry_count it);
    cbn [fst snd with_syncing syncing database console_error log_error
         with_database syncInterval];
    (split; [reflexivity|split; [exact Hrow|]]).
  - rewrite <- List.app_assoc. reflexivity.
  - reflexivity.
Qed.

Lemma count_lines_app f st (l : list error_line) st' :
  console_error st' = console_error st ++ l ->
  count_lines f st' = count_lines f st + Z.of_nat (List.length (filter f l)).
Proof.
  intros H. unfold count_lines. rewrite H, filter_app, length_app. lia.
Qed.

(** The exhaustion warning comes one failure late: an entry that
    always rejects is logged as failed on every pass, and as having
    exceeded the maximum only on the passes that find its retry count
    already at 3 or more, so a fresh entry draws the first warning on
    its fourth failed pass. *)
Theorem warning_from_the_fourth_failure :
  forall n st it e,
    syncing st = false ->
    sync_queue (database st) = [it] ->
    synced it = 0 ->
    processSyncItem it = Some e ->
    let c := retry_count it in
    count_lines (is_failure (id it)) (passes n st)
    = count_lines (is_failure (id it)) st + Z.of_nat n
    /\ count_lines (is_exhausted (id it)) (passes n st)
       = count_lines (is_exhausted (id it)) st
         + (Z.of_nat n - Z.min (Z.of_nat n) (Z.max 0 (Config.maxRetries - c))).
Proof.
  induction n as [|n IH]; intros st it e Hs Hq Hp He c.
  - cbn [passes]. split; lia.
  - destruct (failing_pass_log st it e Hs Hq Hp He) as [Hs' [Hq' Hlog]].
    cbn [passes].
    destruct (IH (fst (processSyncQueue st)) (retry_row it) e Hs' Hq' Hp He)
      as [Hf Hx].
    cbn [id retry_row retry_count] in Hf, Hx. rewrite Hf, Hx.
    rewrite (count_lines_app _ _ _ _ Hlog), (count_lines_app _ _ _ _ Hlog).
    unfold Config.maxRetries in *. subst c.
    destruct (3 <=? retry_count it) eqn:E;
      cbn [filter is_failure is_exhausted List.length]; rewrite Z.eqb_refl;
      cbn [List.length];
      [apply Z.leb_le in E|apply Z.leb_gt in E]; split; lia.
Qed.

(** ** Uploads *)

Lemma resolves_parsed it : parse_data it <> None -> resolves it = true.
Proof.
  unfold resolves, processSyncItem. destruct (parse_data it); [|congruence].
  intros _.
  destruct (String.eqb (action it) "commit"); [reflexivity|].
  destruct (String.eqb (action it) "initialize"); [reflexivity|].
  destruct (String.eqb (action it) "terminate"); reflexivity.
Qed.

Lemma order_same_time (l : list sync_item) t :
  (forall r, In r l -> created_at r = t) ->
  order_by (fun a b => created_at a <=? created_at b) l = l.
Proof.
  induction l as [|x l IH]; intros H.
  - reflexivity.
  - rewrite StoreFacts.order_by_cons, IH.
    + apply StoreFacts.insert_sorted_first. intros y Hy.
      rewrite (H x (or_introl eq_refl)).
      rewrite (H y); [apply Z.leb_refl|].
      right. destruct l; inversion Hy. left. reflexivity.
    + intros r Hr. apply H. right. exact Hr.
Qed.

Lemma enqueued_ids a t sid pid l :
  forall i, In i (map id (enqueued a t sid pid l)) -> a <= i.
Proof.
  revert a. induction l as [|x l IH]; intros a i; cbn [enqueued map id].
  - intros [].
  - intros [H|H]; [lia|]. specialize (IH _ _ H). lia.
Qed.

Lemma enqueued_nodup a t sid pid l : NoDup (map id (enqueued a t sid pid l)).
Proof.
  revert a. induction l as [|x l IH]; intros a; cbn [enqueued map id].
  - constructor.
  - constructor; [|apply IH]. intros H. apply enqueued_ids in H. lia.
Qed.

Lemma enqueued_time a t sid pid l :
  forall r, In r (enqueued a t sid pid l) -> created_at r = t /\ synced r = 0.
Proof.
  revert a. induction l as [|x l IH]; intros a r; cbn [enqueued].
  - intros [].
  - intros [<-|H]; [split; reflexivity|]. apply (IH _ _ H).
Qed.

Lemma enqueued_fresh (q : list sync_item) t sid pid l :
  NoDup (map id q) ->
  NoDup (map id (q ++ enqueued (next_id (map id q)) t sid pid l)).
Proof.
  intros Hq. rewrite map_app. apply NoDup_app.
  - exact Hq.
  - apply enqueued_nodup.
  - intros i Hi Hi'. apply enqueued_ids in Hi'.
    apply max_ids_bound in Hi. unfold next_id in Hi'. lia.
Qed.

Lemma enqueued_resolve a t sid pid l :
  (forall v text, JSON_stringify v = Some text -> JSON_parse text <> None) ->
  forall r, In r (enqueued a t sid pid l) -> resolves r = true.
Proof.
  intros Hlaw. revert a. induction l as [|x l IH]; intros a r; cbn [enqueued].
  - intros [].
  - intros [<-|H]; [|apply (IH _ _ H)].
    apply resolves_parsed. unfold parse_data. cbn [data].
    destruct (JSON_stringify (data_ x)) as [text|] eqn:E; [|discriminate].
    apply (Hlaw _ _ E).
Qed.

Lemma nothing_pending q :
  Z.of_nat (List.length (filter is_pending q)) = 0 -> filter is_pending q = [].
Proof. destruct (filter is_pending q); cbn [List.length]; [reflexivity|lia]. Qed.

Lemma upload_runs_a_pass offlineData st :
  let d := database st in
  let added :=
    enqueued (next_id (map id (sync_queue d))) (now d)
             (sessionId offlineData) (packageId offlineData)
             (actions offlineData) in
  fst (uploadOfflineSession offlineData st)
  = fst (processSyncQueue
           (with_database st (with_sync_queue d (sync_queue d ++ added)))).
Proof.
  intros d added. unfold uploadOfflineSession, run. fold d.
  rewrite create_items_appends. fold added.
  destruct (processSyncQueue _) as [st2 r]. reflexivity.
Qed.

(** An upload of at most a hundred actions to an idle service with
    nothing pending is synchronised by the time the call returns:
    every entry it queued is in the queue marked synced at the
    current clock, and nothing is pending. *)
Theorem upload_is_synced_on_return :
  forall st offlineData,
    (forall v text, JSON_stringify v = Some text -> JSON_parse text <> None) ->
    syncing st = false ->
    NoDup (map id (sync_queue (database st))) ->
    queue_depth (database st) = 0 ->
    (List.length (actions offlineData) <= 100)%nat ->
    let d := database st in
    let added :=
      enqueued (next_id (map id (sync_queue d))) (now d)
               (sessionId offlineData) (packageId offlineData)
               (actions offlineData) in
    let st' := fst (uploadOfflineSession offlineData st) in
    sync_queue (database st') = sync_queue d ++ map (mark_row (now d)) added
    /\ queue_depth (database st') = 0
    /\ syncing st' = false.
Proof.
  intros st offlineData Hlaw Hs Hq Hdepth Hlen d added st'.
  subst st'. rewrite upload_runs_a_pass. fold d. fold added.
  set (st1 := with_database st (with_sync_queue d (sync_queue d ++ added))).
  assert (Hq1 : NoDup (map id (sync_queue (database st1)))).
  { cbn [st1 database with_database sync_queue with_sync_queue].
    apply enqueued_fresh. exact Hq. }
  destruct (pass_alone st1 Hs Hq1) as [H1 [_ [_ [_ [_ [H6 _]]]]]].
  assert (Hnone : filter is_pending (sync_queue d) = []).
  { apply nothing_pending. exact Hdepth. }
  assert (Hbatch : stmt_getPendingSync (database st1) Config.batchSize = added).
  { unfold stmt_getPendingSync.
    cbn [st1 database with_database sync_queue with_sync_queue].
    rewrite filter_app. change (fun it : sync_item => synced it =? 0) with is_pending.
    rewrite Hnone. cbn [app].
    rewrite (TreeFacts.filter_all is_pending added).
    - rewrite (order_same_time added (now d)).
      + unfold limit, Config.batchSize. cbn [Z.ltb Z.compare].
        apply firstn_all2. unfold added. rewrite enqueued_length.
        change (Z.to_nat 100) with 100%nat. exact Hlen.
      + intros r Hr. apply (enqueued_time _ _ _ _ _ r Hr).
    - intros r Hr. unfold is_pending.
      destruct (enqueued_time _ _ _ _ _ r Hr) as [_ ->]. reflexivity. }
  rewrite Hbatch in H1.
  cbn [st1 database with_database sync_queue with_sync_queue now] in H1.
  fold st1 in H1.
  assert (Hfinal : sync_queue (database (fst (processSyncQueue st1)))
                   = sync_queue d ++ map (mark_row (now d)) added).
  { rewrite H1, map_app. f_equal.
    - rewrite <- (map_id (sync_queue d)) at 2. apply map_ext_in. intros r Hr.
      unfold settled.
      destruct (existsb (fun it => id it =? id r) added) eqn:Ex; [|reflexivity].
      apply existsb_exists in Ex. destruct Ex as [x [Hx Hid]].
      apply Z.eqb_eq in Hid. exfalso.
      assert (Hge : next_id (map id (sync_queue d)) <= id x).
      { apply (enqueued_ids _ (now d) (sessionId offlineData) (packageId offlineData)
                            (actions offlineData)). apply in_map. exact Hx. }
      assert (Hle : id r <= fold_right Z.max 0 (map id (sync_queue d))).
      { apply max_ids_bound. apply in_map. exact Hr. }
      unfold next_id in Hge. lia.
    - apply map_ext_in. intros r Hr. unfold settled.
      assert (Ex : existsb (fun it => id it =? id r) added = true).
      { apply existsb_exists. exists r. split; [exact Hr|apply Z.eqb_refl]. }
      rewrite Ex, (enqueued_resolve _ _ _ _ _ Hlaw r Hr). reflexivity. }
  split; [exact Hfinal|]. split; [|exact H6].
  unfold queue_depth. rewrite Hfinal, filter_app, Hnone. cbn [app].
  rewrite (TreeFacts.filter_none is_pending); [reflexivity|].
  intros r Hr. apply in_map_iff in Hr. destruct Hr as [x [<- _]]. reflexivity.
Qed.

(** ** Entries that are synced *)

Lemma begin_database st : database (fst (begin st)) = database st.
Proof.
  unfold begin. destruct (syncing st); [reflexivity|].
  cbn [database with_syncing].
  destruct (stmt_getPendingSync (database st) Config.batchSize); reflexivity.
Qed.

Lemma resume_queue st p :
  sync_queue (database (fst (resume st p)))
  = sync_queue (database (fst (fst (settle (item p) st (successCount p) (errorCount p))))).
Proof.
  unfold resume.
  destruct (settle (item p) st (successCount p) (errorCount p)) as [[st1 ok] bad].
  destruct (later p); reflexivity.
Qed.

(** Once an entry is marked synced nothing the service does changes
    it again: whatever calls, resumptions and other requests
    interleave from an idle service, a row that is not pending is
    still in the queue, field for field, after the next turn. *)
Theorem synced_entries_are_final :
  forall sys0 sys sys',
    idle sys0 -> reachable sys0 sys -> step sys sys' ->
    forall row,
      In row (sync_queue (database (service sys))) ->
      is_pending row = false ->
      In row (sync_queue (database (service sys'))).
Proof.
  intros sys0 sys sys' Hidle Hreach Hstep row Hrow Hdone.
  destruct (reachable_invariant sys0 sys Hidle Hreach) as [Hq [_ [_ Hrun]]].
  destruct Hstep as [sys st' out Hb|sys before p after st' out Hsusp Hres
                    |sys sid pid act dat|sys d' interval Hsame];
    cbn [service].
  - replace st' with (fst (begin (service sys))) by (rewrite Hb; reflexivity).
    rewrite begin_database. exact Hrow.
  - destruct Hrun as [[_ Hnone]|[_ [p0 [Hone [_ Hrows]]]]].
    { rewrite Hnone in Hsusp. destruct before; discriminate. }
    assert (Hp : p = p0).
    { rewrite Hone in Hsusp. destruct before as [|b before].
      - inversion Hsusp. reflexivity.
      - inversion Hsusp as [[Hb Hrest]]. destruct before; discriminate. }
    subst p0.
    replace st' with (fst (resume (service sys) p)) by (rewrite Hres; reflexivity).
    rewrite resume_queue, settle_queue.
    assert (Hother : (id row =? id (item p)) = false).
    { apply Z.eqb_neq. intros Heq.
      apply (row_is_one_state _ (id (item p)) Hq).
      - apply Hrows. left. reflexivity.
      - exists row. split; [exact Hrow|]. split; assumption. }
    destruct (processSyncItem (item p)); apply in_map_iff; exists row;
      rewrite Hother; split; (reflexivity || exact Hrow).
  - unfold run, createSyncItem, rethrow, and_then, exec, ret.
    cbn [fst snd database with_database].
    unfold stmt_insertSyncItem. cbn [sync_queue with_sync_queue].
    apply in_or_app. left. exact Hrow.
  - cbn [database with_database with_interval]. rewrite Hsame. exact Hrow.
Qed.

(** ** A batch that never gets through *)

Lemma insert_sorted_app {A} (le : A -> A -> bool) x s1 s2 :
  (forall b, In b s2 -> le x b = true) ->
  insert_sorted le x (s1 ++ s2) = insert_sorted le x s1 ++ s2.
Proof.
  intros H. induction s1 as [|y s1 IH]; cbn [app insert_sorted].
  - destruct s2 as [|b s2]; [reflexivity|].
    cbn [insert_sorted]. rewrite (H b (or_introl eq_refl)). reflexivity.
  - destruct (le x y); [reflexivity|]. rewrite IH. reflexivity.
Qed.

Lemma order_by_app {A} (le : A -> A -> bool) l1 l2 :
  (forall a b, In a l1 -> In b l2 -> le a b = true) ->
  order_by le (l1 ++ l2) = order_by le l1 ++ order_by le l2.
Proof.
  induction l1 as [|x l1 IH]; intros H; [reflexivity|].
  cbn [app]. rewrite !StoreFacts.order_by_cons, IH.
  - apply insert_sorted_app. intros b Hb. apply in_order_by in Hb.
    apply H; [left; reflexivity|exact Hb].
  - intros a b Ha Hb. apply H; [right; exact Ha|exact Hb].
Qed.

Lemma nodup_app_disjoint {A} (l1 l2 : list A) a :
  NoDup (l1 ++ l2) -> In a l1 -> In a l2 -> False.
Proof.
  induction l1 as [|x l1 IH]; cbn [app]; intros Hnd H1 H2; [contradiction|].
  apply NoDup_cons_iff in Hnd. destruct Hnd as [Hx Hnd].
  destruct H1 as [->|H1].
  - apply Hx. apply in_or_app. right. exact H2.
  - apply IH; assumption.
Qed.

Lemma limit_within {A} n (l1 l2 : list A) y :
  0 <= n -> (Z.to_nat n <= List.length l1)%nat ->
  In y (limit n (l1 ++ l2)) -> In y l1.
Proof.
  intros Hn Hlen. unfold limit.
  destruct (n <? 0) eqn:E; [apply Z.ltb_lt in E; lia|].
  rewrite firstn_app.
  replace (Z.to_nat n - List.length l1)%nat with 0%nat by lia.
  rewrite firstn_O, List.app_nil_r. apply in_firstn.
Qed.

Lemma blocked_pass st blockers rest :
  blocked st blockers rest ->
  exists blockers',
    blocked (fst (processSyncQueue st)) blockers' rest
    /\ map id blockers' = map id blockers.
Proof.
  intros [Hs [Hq [Hnd [Hlen [Hfail Hold]]]]].
  assert (Hq' : NoDup (map id (sync_queue (database st)))) by (rewrite Hq; exact Hnd).
  destruct (pass_alone st Hs Hq') as [H1 [_ [_ [_ [_ [H6 _]]]]]].
  set (batch := stmt_getPendingSync (database st) Config.batchSize) in *.
  assert (Hin : forall it, In it batch -> In it blockers).
  { intros it Hit. unfold batch, stmt_getPendingSync in Hit. rewrite Hq in Hit.
    rewrite filter_app in Hit.
    rewrite (TreeFacts.filter_all _ blockers) in Hit.
    2:{ intros b Hb. apply Z.eqb_eq. apply (Hfail b Hb). }
    rewrite order_by_app in Hit.
    2:{ intros a b Ha Hb. apply Z.leb_le. apply Hold; [exact Ha|].
        apply filter_In in Hb. apply Hb. }
    apply limit_within in Hit.
    - apply in_order_by in Hit. exact Hit.
    - unfold Config.batchSize. lia.
    - rewrite length_order_by. unfold Config.batchSize.
      change (Z.to_nat 100) with 100%nat. exact Hlen. }
  set (t := now (database st)) in *.
  exists (map (settled batch t) blockers).
  assert (Hrest : map (settled batch t) rest = rest).
  { rewrite <- (map_id rest) at 2. apply map_ext_in. intros r Hr. unfold settled.
    destruct (existsb (fun it => id it =? id r) batch) eqn:Ex; [|reflexivity].
    apply existsb_exists in Ex. destruct Ex as [x [Hx Hid]].
    apply Z.eqb_eq in Hid. exfalso.
    rewrite map_app in Hnd. apply (nodup_app_disjoint _ _ (id x) Hnd).
    - apply in_map. apply Hin. exact Hx.
    - rewrite Hid. apply in_map. exact Hr. }
  split; [|apply settled_ids].
  split; [exact H6|].
  split; [rewrite H1, Hq, map_app, Hrest; reflexivity|].
  split; [rewrite !map_app, settled_ids, <- map_app; exact Hnd|].
  split; [rewrite length_map; exact Hlen|].
  split.
  - intros b Hb. apply in_map_iff in Hb. destruct Hb as [x [<- Hx]].
    destruct (Hfail x Hx) as [Hp Hr]. unfold settled. rewrite Hr.
    destruct (existsb _ batch); [|split; assumption].
    split; [exact Hp|]. rewrite resolves_retry. exact Hr.
  - intros b r Hb Hr. apply in_map_iff in Hb. destruct Hb as [x [<- Hx]].
    specialize (Hold x r Hx Hr). unfold settled.
    destruct (Hfail x Hx) as [_ Hres]. rewrite Hres.
    destruct (existsb _ batch); [exact Hold|exact Hold].
Qed.

(** Head-of-line blocking: when a hundred pending entries or more
    all reject and are older than the rest of the queue, every pass
    is spent on them, and no entry queued behind them is ever
    attempted, however many passes run; those entries stay in the
    queue exactly as they were. *)
Theorem failing_batch_blocks_the_queue :
  forall n st blockers rest,
    syncing st = false ->
    sync_queue (database st) = blockers ++ rest ->
    NoDup (map id (blockers ++ rest)) ->
    (100 <= List.length blockers)%nat ->
    (forall b, In b blockers -> synced b = 0 /\ resolves b = false) ->
    (forall b r, In b blockers -> In r rest -> created_at b < created_at r) ->
    exists blockers',
      sync_queue (database (passes n st)) = blockers' ++ rest
      /\ map id blockers' = map id blockers
      /\ forall b, In b blockers' -> synced b = 0.
Proof.
  intros n st blockers rest H1 H2 H3 H4 H5 H6.
  assert (Hb : blocked st blockers rest).
  { repeat split; try assumption; try (apply H5; assumption).
    intros b r Hb Hr. apply Z.lt_le_incl. apply H6; assumption. }
  clear H1 H2 H3 H4 H5 H6. revert st blockers Hb.
  induction n as [|n IH]; intros st blockers Hb.
  - exists blockers. cbn [passes]. destruct Hb as [_ [Hq [_ [_ [Hfail _]]]]].
    split; [exact Hq|]. split; [reflexivity|]. intros b Hin. apply (Hfail b Hin).
  - destruct (blocked_pass st blockers rest Hb) as [blockers1 [Hb1 Hids1]].
    destruct (IH _ _ Hb1) as [blockers' [Hq' [Hids' Hp']]].
    exists blockers'. cbn [passes]. split; [exact Hq'|].
    split; [congruence|exact Hp'].
Qed.

(** ** The timer *)

(** Starting the timer while it runs does nothing, not even change
    the interval; stopping and starting again installs the new
    interval; and the status query reports the timer as enabled
    exactly between a start and the next stop.  Neither call touches
    the database or the guard. *)
Theorem timer_is_started_once :
  forall st i j,
    startAutoSync j (startAutoSync i st) = startAutoSync i st
    /\ syncInterval (startAutoSync j (stopAutoSync (startAutoSync i st))) = Some j
    /\ stopAutoSync (stopAutoSync st) = stopAutoSync st
    /\ (forall s, getSyncStatus (startAutoSync i st) = Ok s -> autoSyncEnabled s = true)
    /\ (forall s, getSyncStatus (stopAutoSync st) = Ok s -> autoSyncEnabled s = false)
    /\ database (startAutoSync i st) = database st
    /\ database (stopAutoSync st) = database st
    /\ syncing (startAutoSync i st) = syncing st
    /\ syncing (stopAutoSync st) = syncing st.
Proof.
  intros st i j. unfold startAutoSync, stopAutoSync, getSyncStatus.
  destruct st as [d s [t|] c]; cbn [syncInterval with_interval database syncing];
    repeat split; try reflexivity; intros x H;
    match type of H with
    | bind ?r _ = Ok _ => destruct r as [[p|kd props]| |]; cbn [bind] in H;
                          inversion H; reflexivity
    end.
Qed.

End WithRuntime.

#[local] Existing Instance sample_runtime.

Lemma mixed_ids : NoDup (map id (sync_queue (database mixed))).
Proof. cbn. repeat constructor; cbn; intuition discriminate. Qed.

Lemma pass_settles_its_batch_witness :
  sync_queue (database (fst (processSyncQueue mixed)))
  = [mark_row 100 (entry 1 "commit" (Some "null"));
     retry_row (entry 2 "commit" (Some "{"));
     mark_row 100 (entry 3 "other" None)].
Proof.
  destruct (pass_settles_its_batch mixed eq_refl mixed_ids) as [H _].
  rewrite H. reflexivity.
Defined.

Lemma pass_report_adds_up_witness :
  snd (processSyncQueue mixed) = completed_ 2 1 3
  /\ queue_depth (database (fst (processSyncQueue mixed))) = 1.
Proof.
  destruct (pass_report_adds_up mixed eq_refl mixed_ids) as [_ [H [_ Hd]]].
  split; [apply H; reflexivity|exact Hd].
Defined.

Lemma sample_runtime_law :
  forall v text,
    JSON_stringify (Runtime := sample_runtime) v = Some text ->
    JSON_parse (Runtime := sample_runtime) text <> None.
Proof.
  intros v text H. destruct v as [[| |b|n|t]|kd props]; cbn in H;
    inversion H; discriminate.
Qed.

Lemma upload_is_synced_on_return_witness :
  sync_queue (database (fst (uploadOfflineSession two_actions (service_with []))))
  = [ mark_row 100
        {| id := 1; item_session := "s1"; item_package := "p1";
           action := "initialize"; data := None; created_at := 100; synced := 0;
           synced_at := None; retry_count := 0 |};
      mark_row 100
        {| id := 2; item_session := "s1"; item_package := "p1"; action := "commit";
           data := Some "null"; created_at := 100; synced := 0; synced_at := None;
           retry_count := 0 |} ]
  /\ queue_depth (database (fst (uploadOfflineSession two_actions (service_with [])))) = 0.
Proof.
  destruct (upload_is_synced_on_return (service_with []) two_actions
              sample_runtime_law eq_refl (NoDup_nil Z) eq_refl) as [H1 [H2 _]].
  - cbn. lia.
  - split; [rewrite H1; reflexivity|exact H2].
Defined.

Lemma synced_entries_are_final_witness :
  In (mark_row 50 (entry 1 "commit" (Some "null")))
     (sync_queue (database (fst (resume (fst (begin (service half_done)))
        {| item := entry 2 "commit" (Some "null"); later := [];
           successCount := 0; errorCount := 0; total_ := 1 |})))).
Proof.
  set (p := {| item := entry 2 "commit" (Some "null"); later := [];
               successCount := 0; errorCount := 0; total_ := 1 |}).
  set (busy := {| service := fst (begin (service half_done));
                  suspended := [p]; marked := [] |}).
  apply (synced_entries_are_final half_done busy
           {| service := fst (resume (service busy) p);
              suspended := [] ++ continues (snd (resume (service busy) p)) ++ [];
              marked := marked busy ++ marks p |}).
  - repeat split. cbn. repeat constructor; cbn; intuition discriminate.
  - apply (reach_step half_done half_done busy (reach_start _)).
    apply (step_call half_done (fst (begin (service half_done)))
                     (snd (begin (service half_done)))).
    reflexivity.
  - apply (step_resume busy [] p [] (fst (resume (service busy) p))
                       (snd (resume (service busy) p))); reflexivity.
  - cbn. left. reflexivity.
  - reflexivity.
Defined.

Lemma jammed_ids :
  NoDup (map id (rejects ++ [late])).
Proof.
  replace (map id (rejects ++ [late]))
    with (map Z.of_nat (seq 1 101)) by (vm_compute; reflexivity).
  apply Finite.Injective_map_NoDup; [intros a b; apply Nat2Z.inj|apply seq_NoDup].
Qed.

Lemma failing_batch_blocks_the_queue_witness :
  exists blockers',
    sync_queue (database (passes 7 jammed))
    = blockers' ++ [late]
    /\ map id blockers' = map id rejects
    /\ forall b, In b blockers' -> synced b = 0.
Proof.
  apply (failing_batch_blocks_the_queue 7 jammed rejects
           [late]).
  - reflexivity.
  - reflexivity.
  - exact jammed_ids.
  - unfold rejects. rewrite length_map, length_seq. lia.
  - intros b Hb. unfold rejects in Hb. apply in_map_iff in Hb.
    destruct Hb as [i [<- _]]. split; reflexivity.
  - intros b r Hb [<-|[]]. unfold rejects in Hb. apply in_map_iff in Hb.
    destruct Hb as [i [<- _]]. cbn. lia.
Defined.

Lemma timer_is_started_once_witness :
  syncInterval (startAutoSync 5000 (startAutoSync 60000 (service_with [])))
  = Some 60000
  /\ exists s, getSyncStatus (startAutoSync 60000 (service_with [])) = Ok s
               /\ autoSyncEnabled s = true.
Proof.
  destruct (timer_is_started_once (service_with []) 60000 5000)
    as [H1 [_ [_ [H4 _]]]].
  split; [rewrite H1; reflexivity|].
  eexists. split; [reflexivity|]. apply H4. reflexivity.
Defined.

Lemma warning_from_the_fourth_failure_witness :
  count_lines (is_failure 1) (passes 5 stuck) = 5
  /\ count_lines (is_exhausted 1) (passes 3 stuck) = 0
  /\ count_lines (is_exhausted 1) (passes 5 stuck) = 2.
Proof.
  destruct (warning_from_the_fourth_failure (RT := sample_runtime) 5 stuck (entry 1 "commit" (Some "{"))
              SyntaxError eq_refl eq_refl eq_refl eq_refl) as [H5 X5].
  destruct (warning_from_the_fourth_failure (RT := sample_runtime) 3 stuck (entry 1 "commit" (Some "{"))
              SyntaxError eq_refl eq_refl eq_refl eq_refl) as [_ X3].
  split; [exact H5|]. split; [exact X3|exact X5].
Defined.

End PassFacts.

(* ================================================================== *)
(** * What a commit changes                                             *)
(* ================================================================== *)

Module HistoryFacts.
Import JS Db Call ScormApi OfflineSync Props Examples JSFacts SessionFacts CodecFacts TreeFacts Notions HistoryNotions.
Import Samples.

Lemma with_cmi_data_same d : with_cmi_data d (cmi_data d ++ []) = d.
Proof. rewrite List.app_nil_r. destruct d; reflexivity. Qed.

Lemma with_interactions_same d : with_interactions d (interactions d ++ []) = d.
Proof. rewrite List.app_nil_r. destruct d; reflexivity. Qed.

Lemma session_known d sid :
  stmt_getSession d sid <> None <-> In sid (map session_id (sessions d)).
Proof.
  unfold stmt_getSession. split.
  - destruct (find _ (sessions d)) as [x|] eqn:E; [|congruence].
    intros _. apply find_some in E. destruct E as [Hin Heq].
    apply String.eqb_eq in Heq. rewrite <- Heq. apply in_map. exact Hin.
  - intros Hin. apply in_map_iff in Hin. destruct Hin as [x [Heq Hin]].
    destruct (find _ (sessions d)) as [y|] eqn:E; [discriminate|].
    apply (find_none _ _ E) in Hin. rewrite Heq, string_eqb_refl in Hin.
    discriminate.
Qed.

(** *** Calls that append CMI records *)

Lemma records_none sid {A} (m : call A) :
  (forall d, fst (m d) = d) -> writes_records sid m.
Proof.
  intros H d. exists []. rewrite H.
  split; [symmetry; apply with_cmi_data_same|].
  split; [constructor|]. intros Hne. contradiction Hne. reflexivity.
Qed.

Lemma records_ret sid {A} (a : A) : writes_records sid (ret a).
Proof. apply records_none. reflexivity. Qed.

Lemma records_raise sid {A} e : writes_records sid (@raise A e).
Proof. apply records_none. reflexivity. Qed.

Lemma records_lift sid {A} (r : result A) : writes_records sid (lift r).
Proof. apply records_none. reflexivity. Qed.

Lemma records_and_then sid {A B} (m : call A) (f : A -> call B) :
  writes_records sid m -> (forall a, writes_records sid (f a)) ->
  writes_records sid (and_then m f).
Proof.
  intros Hm Hf d. unfold and_then. destruct (Hm d) as [rows [Heq [Hall Hex]]].
  destruct (m d) as [d1 [a|e|]]; cbn [fst] in *; eauto.
  destruct (Hf a d1) as [rows2 [Heq2 [Hall2 Hex2]]]. subst d1.
  exists (rows ++ rows2). split; [|split].
  - rewrite Heq2. cbn [with_cmi_data cmi_data sessions sync_queue interactions now].
    rewrite List.app_assoc. reflexivity.
  - apply Forall_app. split; [exact Hall|exact Hall2].
  - intros Hne. destruct rows as [|r rows]; [|apply Hex; discriminate].
    apply Hex2. exact Hne.
Qed.

Lemma records_rethrow sid {A} p (m : call A) :
  writes_records sid m -> writes_records sid (rethrow p m).
Proof.
  intros Hm d. unfold rethrow. destruct (Hm d) as [rows H].
  exists rows. destruct (m d) as [d1 [a|e|]]; exact H.
Qed.

Lemma records_setCmiData sid el v : writes_records sid (setCmiData sid el v).
Proof.
  apply records_rethrow. intros d. unfold stmt_insertCmiData.
  destruct (stmt_getSession d sid) eqn:E.
  - eexists [_]. split; [reflexivity|].
    split; [constructor; [split; reflexivity|constructor]|]. intros _. discriminate.
  - exists []. split; [symmetry; apply with_cmi_data_same|].
    split; [constructor|]. intros Hne. contradiction Hne. reflexivity.
Qed.

Lemma records_store_chars sid pre s : forall i, writes_records sid (store_chars sid pre i s).
Proof.
  induction s as [|c s IH]; intros i; cbn [store_chars].
  - apply records_ret.
  - pose proof (records_and_then sid
                  (setCmiData sid (element_name pre (Z_to_string i)) (String c EmptyString))
                  (fun _ => store_chars sid pre (i + 1) s)
                  (records_setCmiData _ _ _) (fun _ => IH (i + 1))) as H.
    intros d. specialize (H d). unfold and_then in H.
    destruct (setCmiData sid (element_name pre (Z_to_string i)) (String c EmptyString) d)
      as [d1 [u|e|]]; exact H.
Qed.

Lemma records_forEach recur sid el items :
  (forall k x pre, In (k, x) items -> writes_records sid (recur x pre)) ->
  writes_records sid (forEach_item recur sid el items).
Proof.
  induction items as [|[index item] its IH]; intros Hrec; cbn [forEach_item].
  - apply records_ret.
  - assert (Hits : writes_records sid (forEach_item recur sid el its)).
    { apply IH. intros k x pre Hin. apply (Hrec k). right. exact Hin. }
    destruct (array_index index); [|exact Hits].
    apply records_and_then; [|intros _; exact Hits].
    destruct item as [[| |b|n|t]|kd ps];
      try apply records_setCmiData; try apply records_raise.
    apply (Hrec index). left. reflexivity.
Qed.

Lemma records_storeCmiData sid :
  forall n v pre, (size v < n)%nat -> writes_records sid (storeCmiData sid v pre).
Proof.
  induction n as [|n IH]; intros v pre Hn; [lia|].
  destruct v as [[| |b|z|t]|kd props]; cbn [storeCmiData];
    try apply records_raise; try apply records_ret; try apply records_store_chars.
  assert (Hall : forall ps, incl ps props ->
                   writes_records sid (each_entry (storeCmiData sid) sid pre ps)).
  { induction ps as [|[key x] ps IHps]; intros Hincl; cbn [each_entry].
    - apply records_ret.
    - apply records_and_then.
      + assert (Hx : In (key, x) props) by (apply Hincl; left; reflexivity).
        pose proof (size_member _ _ kd _ Hx) as Hsz.
        unfold store_entry. destruct x as [p|[|] items].
        * apply records_setCmiData.
        * apply IH. lia.
        * apply records_forEach. intros k y pre' Hy. apply IH.
          pose proof (size_member _ _ Array _ Hy). lia.
      + intros _. apply IHps. intros y Hy. apply Hincl. right. exact Hy. }
  apply Hall. apply incl_refl.
Qed.

Section WithRuntime.
Context {RT : Runtime}.

(** *** Calls that append interactions *)

Lemma interactions_none sid {A} (m : call A) :
  (forall d, fst (m d) = d) -> writes_interactions sid m.
Proof.
  intros H d. exists []. rewrite H.
  split; [symmetry; apply with_interactions_same|].
  split; [constructor|]. intros Hne. contradiction Hne. reflexivity.
Qed.

Lemma interactions_ret sid {A} (a : A) : writes_interactions sid (ret a).
Proof. apply interactions_none. reflexivity. Qed.

Lemma interactions_lift sid {A} (r : result A) : writes_interactions sid (lift r).
Proof. apply interactions_none. reflexivity. Qed.

Lemma interactions_and_then sid {A B} (m : call A) (f : A -> call B) :
  writes_interactions sid m -> (forall a, writes_interactions sid (f a)) ->
  writes_interactions sid (and_then m f).
Proof.
  intros Hm Hf d. unfold and_then. destruct (Hm d) as [rows [Heq [Hall Hex]]].
  destruct (m d) as [d1 [a|e|]]; cbn [fst] in *; eauto.
  destruct (Hf a d1) as [rows2 [Heq2 [Hall2 Hex2]]]. subst d1.
  exists (rows ++ rows2). split; [|split].
  - rewrite Heq2.
    cbn [with_interactions cmi_data sessions sync_queue interactions now].
    rewrite List.app_assoc. reflexivity.
  - apply Forall_app. split; [exact Hall|exact Hall2].
  - intros Hne. destruct rows as [|r rows]; [|apply Hex; discriminate].
    apply Hex2. exact Hne.
Qed.

Lemma interactions_insert sid x : writes_interactions sid (insertInteraction_run sid x).
Proof.
  unfold insertInteraction_run.
  repeat (apply interactions_and_then;
          [first [apply interactions_lift | apply interactions_ret]|intros ?]).
  intros d. unfold stmt_insertInteraction.
  destruct (stmt_getSession d sid) eqn:E.
  - eexists [_]. split; [reflexivity|].
    split; [constructor; [reflexivity|constructor]|]. intros _. discriminate.
  - exists []. split; [symmetry; apply with_interactions_same|].
    split; [constructor|]. intros Hne. contradiction Hne. reflexivity.
Qed.

Lemma interactions_each sid l : writes_interactions sid (each_interaction sid l).
Proof.
  induction l as [|x l IH]; cbn [each_interaction].
  - apply interactions_ret.
  - apply interactions_and_then; [apply interactions_lift|]. intros ident.
    destruct (negb (truthy ident)); [exact IH|].
    apply interactions_and_then; [apply interactions_insert|intros _; exact IH].
Qed.

(** *** Calls that extend the database *)

Lemma extends_refl sid d : extends sid d d.
Proof.
  unfold extends. repeat split; try reflexivity.
  - exists []. split; [rewrite List.app_nil_r; reflexivity|].
    split; [constructor|]. intros Hne. contradiction Hne. reflexivity.
  - exists []. split; [rewrite List.app_nil_r; reflexivity|].
    split; [constructor|]. intros Hne. contradiction Hne. reflexivity.
Qed.

Lemma extends_trans sid d d1 d2 :
  extends sid d d1 -> extends sid d1 d2 -> extends sid d d2.
Proof.
  intros [N1 [Q1 [[r1 [C1 [F1 E1]]] [[i1 [I1 [G1 X1]]] [S1 [P1 O1]]]]]]
         [N2 [Q2 [[r2 [C2 [F2 E2]]] [[i2 [I2 [G2 X2]]] [S2 [P2 O2]]]]]].
  assert (Hback : stmt_getSession d1 sid <> None -> stmt_getSession d sid <> None).
  { intros H. apply session_known. rewrite <- S1. apply session_known. exact H. }
  unfold extends. split; [congruence|]. split; [congruence|].
  split.
  { exists (r1 ++ r2). split; [rewrite C2, C1, List.app_assoc; reflexivity|].
    split.
    - apply Forall_app. split; [exact F1|]. rewrite N1 in F2. exact F2.
    - intros Hne. destruct r1 as [|r r1]; [|apply E1; discriminate].
      apply Hback. apply E2. exact Hne. }
  split.
  { exists (i1 ++ i2). split; [rewrite I2, I1, List.app_assoc; reflexivity|].
    split.
    - apply Forall_app. split; assumption.
    - intros Hne. destruct i1 as [|r i1]; [|apply X1; discriminate].
      apply Hback. apply X2. exact Hne. }
  split; [congruence|]. split; [congruence|].
  intros other Hne. rewrite (O2 other Hne). apply O1. exact Hne.
Qed.

Lemma extends_records sid {A} (m : call A) :
  writes_records sid m -> forall d, extends sid d (fst (m d)).
Proof.
  intros Hm d. destruct (Hm d) as [rows [-> [Hall Hex]]].
  unfold extends. cbn [with_cmi_data cmi_data sessions sync_queue interactions now].
  split; [reflexivity|]. split; [reflexivity|].
  split; [exists rows; split; [reflexivity|split; assumption]|].
  split.
  - exists []. split; [rewrite List.app_nil_r; reflexivity|].
    split; [constructor|]. intros Hne. contradiction Hne. reflexivity.
  - split; [reflexivity|]. split; [reflexivity|]. intros other _. reflexivity.
Qed.

Lemma extends_interactions sid {A} (m : call A) :
  writes_interactions sid m -> forall d, extends sid d (fst (m d)).
Proof.
  intros Hm d. destruct (Hm d) as [rows [-> [Hall Hex]]].
  unfold extends. cbn [with_interactions cmi_data sessions sync_queue interactions now].
  split; [reflexivity|]. split; [reflexivity|].
  split.
  - exists []. split; [rewrite List.app_nil_r; reflexivity|].
    split; [constructor|]. intros Hne. contradiction Hne. reflexivity.
  - split; [exists rows; split; [reflexivity|split; assumption]|].
    split; [reflexivity|]. split; [reflexivity|]. intros other _. reflexivity.
Qed.

Lemma extends_update sid d c ss sr st tt sd :
  extends sid d (stmt_updateSession d c ss sr st tt sd sid).
Proof.
  unfold extends, stmt_updateSession.
  cbn [with_sessions cmi_data sessions sync_queue interactions now].
  split; [reflexivity|]. split; [reflexivity|].
  split.
  { exists []. split; [rewrite List.app_nil_r; reflexivity|].
    split; [constructor|]. intros Hne. contradiction Hne. reflexivity. }
  split.
  { exists []. split; [rewrite List.app_nil_r; reflexivity|].
    split; [constructor|]. intros Hne. contradiction Hne. reflexivity. }
  split; [|split].
  - rewrite map_map. apply map_ext. intros x.
    destruct (String.eqb (session_id x) sid); reflexivity.
  - rewrite map_map. apply map_ext. intros x.
    destruct (String.eqb (session_id x) sid); reflexivity.
  - intros other Hne. unfold stmt_getSession. cbn [sessions with_sessions].
    generalize (now d). intros t.
    induction (sessions d) as [|x l IH]; [reflexivity|]. cbn [map find].
    destruct (String.eqb (session_id x) sid) eqn:E.
    + cbn [session_id update_row].
      destruct (String.eqb (session_id x) other) eqn:E'; [|exact IH].
      apply String.eqb_eq in E. apply String.eqb_eq in E'. congruence.
    + destruct (String.eqb (session_id x) other); [reflexivity|exact IH].
Qed.

Lemma extends_update_run sid b f d :
  extends sid d (fst (updateSession_run b f sid d)).
Proof.
  unfold updateSession_run, and_then, lift, exec.
  destruct (bind_value (successStatus f)); cbn [fst]; try apply extends_refl.
  destruct (bind_value (scoreRaw f)); cbn [fst]; try apply extends_refl.
  destruct (bind_value (sessionTime f)); cbn [fst]; try apply extends_refl.
  destruct (bind_value (totalTime f)); cbn [fst]; try apply extends_refl.
  destruct (bind_value (suspendData f)); cbn [fst]; try apply extends_refl.
  apply extends_update.
Qed.

Lemma extends_commit sid commitData d :
  extends sid d (fst (commitSession sid commitData d)).
Proof.
  unfold commitSession, rethrow.
  match goal with
  | |- extends _ _ (fst (match ?m d with _ => _ end)) =>
      assert (H : extends sid d (fst (m d)));
      [|destruct (m d) as [d1 [a|e|]]; exact H]
  end.
  unfold and_then at 1, getSession, query.
  destruct (stmt_getSession d sid) as [s|]; [|apply extends_refl].
  unfold and_then at 1, lift.
  destruct (determineCompletion commitData) as [b|e|]; try apply extends_refl.
  unfold and_then at 1.
  destruct (field commitData "cmi") as [cmi|e|]; try apply extends_refl.
  unfold and_then at 1.
  pose proof (extends_update_run sid b (extract_summary cmi) d) as Hup.
  destruct (updateSession_run b (extract_summary cmi) sid d) as [d1 [u|e|]];
    cbn [fst] in *; try exact Hup.
  apply (extends_trans sid d d1); [exact Hup|].
  unfold and_then at 1.
  pose proof (extends_records sid _
                (records_storeCmiData sid (S (size (or_else cmi empty_object)))
                   (or_else cmi empty_object) "cmi" (Nat.lt_succ_diag_r _)) d1) as Hst.
  destruct (storeCmiData sid (or_else cmi empty_object) "cmi" d1) as [d2 [u2|e|]];
    cbn [fst] in *; try exact Hst.
  apply (extends_trans sid d1 d2); [exact Hst|].
  unfold and_then at 1.
  assert (Hint : extends sid d2
            (fst ((if truthy (opt_field cmi "interactions")
                   then storeInteractions sid (opt_field cmi "interactions")
                   else ret tt) d2))).
  { destruct (truthy (opt_field cmi "interactions")).
    - apply extends_interactions. apply interactions_each.
    - apply extends_refl. }
  destruct ((if truthy (opt_field cmi "interactions")
             then storeInteractions sid (opt_field cmi "interactions")
             else ret tt) d2) as [d3 [u3|e|]]; exact Hint.
Qed.

Lemma extends_terminate sid finalData d :
  extends sid d (fst (terminateSession sid finalData d)).
Proof.
  unfold terminateSession, rethrow.
  match goal with
  | |- extends _ _ (fst (match ?m d with _ => _ end)) =>
      assert (H : extends sid d (fst (m d)));
      [|destruct (m d) as [d1 [a|e|]]; exact H]
  end.
  unfold and_then at 1, lift.
  destruct (keys_length (default_object finalData)) as [n|e|]; try apply extends_refl.
  unfold and_then at 1.
  destruct (0 <? n).
  - unfold and_then at 1.
    pose proof (extends_commit sid (default_object finalData) d) as H.
    destruct (commitSession sid (default_object finalData) d) as [d1 [a|e|]];
      exact H.
  - apply extends_refl.
Qed.

(** Commits and terminations only ever add to the history of their
    own session: whatever the payload and whether the call returns
    or raises, no CMI record and no interaction is removed or changed,
    the records added belong to the session and carry the current
    clock, the rows of other sessions are left as they were,
    and so are the sync queue and the clock. *)
Theorem commit_only_appends :
  forall sid payload d,
    extends sid d (fst (commitSession sid payload d))
    /\ extends sid d (fst (terminateSession sid payload d)).
Proof.
  intros sid payload d. split; [apply extends_commit|apply extends_terminate].
Qed.

Lemma textual_bindable v : textual v = true -> bindable v = true.
Proof.
  destruct v as [[| |b|n|t]|kd props]; cbn; intros H; try discriminate; reflexivity.
Qed.

Lemma numeric_bindable v : numeric v = true -> bindable v = true.
Proof.
  destruct v as [[| |b|n|t]|kd props]; cbn; intros H; try discriminate; reflexivity.
Qed.

Lemma plain_bindable f : summary_plain f = true -> summary_bindable f = true.
Proof.
  unfold summary_plain, summary_bindable. intros H.
  repeat (apply andb_true_iff in H; destruct H as [H ?]).
  rewrite (textual_bindable _ H), (numeric_bindable (scoreRaw f)),
    (textual_bindable (sessionTime f)), (textual_bindable (totalTime f)),
    (textual_bindable (suspendData f)); auto.
Qed.

Lemma write_all_interactions sid recs : forall d,
  interactions (write_all sid recs d) = interactions d.
Proof.
  induction recs as [|r recs IH]; intros d; [reflexivity|].
  cbn [write_all fold_left]. fold (write_all sid recs (write_one sid d r)).
  rewrite IH. unfold write_one, stmt_insertCmiData.
  destruct (stmt_getSession d sid); reflexivity.
Qed.

Lemma plain_update b f sid d :
  summary_plain f = true ->
  updateSession_run b f sid d
  = (stmt_updateSession d (SNum (if b then 1 else 0))
       (stored (successStatus f)) (stored (scoreRaw f)) (stored (sessionTime f))
       (stored (totalTime f)) (stored (suspendData f)) sid,
     Ok tt).
Proof.
  intros H. apply plain_bindable in H. unfold summary_bindable in H.
  repeat (apply andb_true_iff in H; destruct H as [H ?]).
  unfold updateSession_run.
  unfold and_then at 1, lift. rewrite (bindable_stored _ H).
  unfold and_then at 1. rewrite (bindable_stored (scoreRaw f)) by assumption.
  unfold and_then at 1. rewrite (bindable_stored (sessionTime f)) by assumption.
  unfold and_then at 1. rewrite (bindable_stored (totalTime f)) by assumption.
  unfold and_then at 1. rewrite (bindable_stored (suspendData f)) by assumption.
  reflexivity.
Qed.

Lemma each_entry_app recur sid pre l1 : forall l2 d,
  each_entry recur sid pre (l1 ++ l2) d
  = match each_entry recur sid pre l1 d with
    | (d1, Ok _) => each_entry recur sid pre l2 d1
    | other => other
    end.
Proof.
  induction l1 as [|[k x] l1 IH]; intros l2 d; [reflexivity|].
  cbn [app each_entry]. unfold and_then.
  destruct (store_entry recur sid pre k x d) as [d1 [u|e|]];
    [apply IH|reflexivity|reflexivity].
Qed.

(** A commit is not undone when it fails half way.  Take a commit
    whose [cmi] lists, after the well-formed entries [before], an
    array whose first element is [null], which [storeCmiData] cannot
    store; the session exists and the summary fields are strings, a
    number for the score, or missing.  The commit raises, and yet the
    session row has been rewritten from the payload and one record
    for every leaf of [before] has been added, at least one;
    nothing of what follows the array is stored, and no interaction. *)
Theorem failed_commit_is_not_rolled_back :
  forall d sid s before k items rest,
    stmt_getSession d sid = Some s ->
    well_formed Root (obj before) = true ->
    let cmi := obj (before ++ (k, arr (("0", null) :: items)) :: rest) in
    let commitData := obj [("cmi", cmi)] in
    summary_plain (extract_summary cmi) = true ->
    let f := extract_summary cmi in
    let d' := fst (commitSession sid commitData d) in
    exists b rows,
      determineCompletion commitData = Ok b
      /\ snd (commitSession sid commitData d)
         = Throw (Wrapped "Failed to commit session" TypeError)
      /\ stmt_getSession d' sid
         = Some (update_row (now d) (SNum (if b then 1 else 0))
                   (stored (successStatus f)) (stored (scoreRaw f))
                   (stored (sessionTime f)) (stored (totalTime f))
                   (stored (suspendData f)) s)
      /\ cmi_data d' = cmi_data d ++ rows
      /\ rows <> []
      /\ map (fun r => (element r, value_ r)) rows
         = map (named "cmi") (leaves (obj before))
      /\ Forall (fun r => cmi_session r = sid /\ timestamp r = now d) rows
      /\ interactions d' = interactions d.
Proof.
  intros d sid s before k items rest Hs Hwf cmi commitData Hplain f d'.
  assert (Hc : field commitData "cmi" = Ok cmi) by reflexivity.
  destruct (determineCompletion_defined _ _ Hc) as [b Hb].
  set (d1 := stmt_updateSession d (SNum (if b then 1 else 0))
               (stored (successStatus f)) (stored (scoreRaw f))
               (stored (sessionTime f)) (stored (totalTime f))
               (stored (suspendData f)) sid).
  set (s1 := update_row (now d) (SNum (if b then 1 else 0))
               (stored (successStatus f)) (stored (scoreRaw f))
               (stored (sessionTime f)) (stored (totalTime f))
               (stored (suspendData f)) s).
  assert (Hs1 : stmt_getSession d1 sid = Some s1).
  { apply getSession_after_update. exact Hs. }
  set (recs := map (named "cmi") (leaves (obj before))).
  set (d2 := write_all sid recs d1).
  assert (Hstore : storeCmiData sid cmi "cmi" d1 = (d2, Throw TypeError)).
  { unfold cmi, obj. cbn [storeCmiData]. rewrite each_entry_app.
    change (each_entry (storeCmiData sid) sid "cmi" before d1)
      with (storeCmiData sid (VObj Plain before) "cmi" d1).
    rewrite (store_object sid (S (size (VObj Plain before))) before Root "cmi" d1 s1
               (Nat.lt_succ_diag_r _) Hwf Hs1).
    fold (obj before). fold recs. fold d2.
    cbn [each_entry store_entry arr forEach_item].
    replace (array_index "0") with (Some 0) by reflexivity.
    reflexivity. }
  assert (Hrun : commitSession sid commitData d
                 = (d2, Throw (Wrapped "Failed to commit session" TypeError))).
  { unfold commitSession, rethrow, and_then at 1, getSession, query.
    rewrite Hs. unfold and_then at 1, lift. rewrite Hb.
    unfold and_then at 1. rewrite Hc.
    unfold and_then at 1. fold f. rewrite (plain_update b f sid d Hplain). fold d1.
    unfold and_then at 1.
    replace (or_else cmi empty_object) with cmi by reflexivity.
    rewrite Hstore. reflexivity. }
  destruct (write_all_rows sid recs d1 s1 Hs1) as [rows [Hrows [Hmap Hall]]].
  exists b, rows. subst d'. rewrite Hrun. cbn [fst snd].
  split; [exact Hb|]. split; [reflexivity|].
  split; [unfold d2; rewrite write_all_session; exact Hs1|].
  split; [exact Hrows|].
  split.
  { intros Hnil. rewrite Hnil in Hmap. cbn [map] in Hmap. symmetry in Hmap.
    apply map_eq_nil in Hmap.
    apply (leaves_nonempty (S (size (obj before))) (obj before) Root
             (Nat.lt_succ_diag_r _) Hwf Hmap). }
  split; [exact Hmap|].
  split; [apply Forall_forall; intros r Hr; apply (Hall r Hr)|].
  unfold d2. rewrite write_all_interactions. reflexivity.
Qed.

(** *** Interactions *)

Lemma field_opt v k x : field v k = Ok x -> opt_field v k = x.
Proof.
  destruct v as [[| |b|n|t]|kd props]; cbn [field opt_field]; intros H;
    inversion H; reflexivity.
Qed.

Lemma insert_adds_one sid x d d' u :
  insertInteraction_run sid x d = (d', Ok u) ->
  List.length (interactions d') = S (List.length (interactions d)).
Proof.
  unfold insertInteraction_run, and_then, lift, ret.
  destruct (bind_value (opt_field x "id")); try discriminate.
  destruct (bind_value (or_else (opt_field x "type") null)); try discriminate.
  destruct (bind_value (or_else (opt_field x "learner_response") null)); try discriminate.
  destruct (bind_value (or_else (opt_field x "result") null)); try discriminate.
  destruct (bind_value (or_else (opt_field x "latency") null)); try discriminate.
  destruct (bind_value (or_else (opt_field x "description") null)); try discriminate.
  unfold stmt_insertInteraction. destruct (stmt_getSession d sid); [|discriminate].
  intros H. inversion H. cbn [interactions with_interactions].
  rewrite length_app. cbn [List.length]. lia.
Qed.

Lemma each_interaction_count sid l : forall d d' u,
  each_interaction sid l d = (d', Ok u) ->
  List.length (interactions d')
  = (List.length (interactions d) + List.length (filter identified l))%nat.
Proof.
  induction l as [|x l IH]; intros d d' u; cbn [each_interaction filter].
  - unfold ret. intros H. inversion H. cbn [List.length]. lia.
  - unfold and_then at 1, lift.
    destruct (field x "id") as [ident|e|] eqn:Hf; try discriminate.
    unfold identified. rewrite (field_opt _ _ _ Hf).
    destruct (truthy ident); cbn [negb].
    + unfold and_then at 1.
      destruct (insertInteraction_run sid x d) as [d1 [u1|e|]] eqn:Hi;
        try discriminate.
      intros H. rewrite (IH _ _ _ H), (insert_adds_one _ _ _ _ _ Hi).
      cbn [List.length]. fold identified. lia.
    + apply IH.
Qed.

Lemma update_run_interactions b f sid d :
  interactions (fst (updateSession_run b f sid d)) = interactions d.
Proof.
  unfold updateSession_run, and_then, lift, exec.
  destruct (bind_value (successStatus f)); try reflexivity.
  destruct (bind_value (scoreRaw f)); try reflexivity.
  destruct (bind_value (sessionTime f)); try reflexivity.
  destruct (bind_value (totalTime f)); try reflexivity.
  destruct (bind_value (suspendData f)); reflexivity.
Qed.

(** A commit that returns has added one row to the interactions
    table for every interaction of its payload that has a truthy
    [id], whether or not the same interaction was stored by an
    earlier commit: nothing is matched against what is there. *)
Theorem commit_stores_every_listed_interaction :
  forall d d' sid commitData cmi r,
    field commitData "cmi" = Ok cmi ->
    commitSession sid commitData d = (d', Ok r) ->
    exists rows,
      interactions d' = interactions d ++ rows
      /\ List.length rows = List.length (filter identified (listed cmi))
      /\ Forall (fun row => int_session row = sid) rows.
Proof.
  intros d d' sid commitData cmi r Hc Hrun.
  pose proof (extends_commit sid commitData d) as Hext. rewrite Hrun in Hext.
  cbn [fst] in Hext. destruct Hext as [_ [_ [_ [[rows [Hrows [Hall _]]] _]]]].
  exists rows. split; [exact Hrows|]. split; [|exact Hall].
  assert (Hlen : List.length (interactions d')
                 = (List.length (interactions d)
                    + List.length (filter identified (listed cmi)))%nat).
  { revert Hrun. unfold commitSession, rethrow.
    match goal with
    | |- (match ?m d with _ => _ end) = _ -> _ =>
        destruct (m d) as [d0 [a|e|]] eqn:Hm; try discriminate
    end.
    intros Heq. inversion Heq; subst d0 a. revert Hm.
    unfold and_then at 1, getSession, query.
    destruct (stmt_getSession d sid) as [s|]; [|discriminate].
    unfold and_then at 1, lift.
    destruct (determineCompletion commitData) as [b|e|]; try discriminate.
    unfold and_then at 1. rewrite Hc.
    unfold and_then at 1.
    pose proof (update_run_interactions b (extract_summary cmi) sid d) as Hup.
    destruct (updateSession_run b (extract_summary cmi) sid d) as [d1 [u|e|]];
      try discriminate.
    cbn [fst] in Hup. unfold and_then at 1.
    destruct (records_storeCmiData sid (S (size (or_else cmi empty_object)))
                (or_else cmi empty_object) "cmi" (Nat.lt_succ_diag_r _) d1)
      as [recs [Hst _]].
    destruct (storeCmiData sid (or_else cmi empty_object) "cmi" d1) as [d2 [u2|e|]];
      try discriminate.
    cbn [fst] in Hst.
    assert (Hsame : interactions d2 = interactions d).
    { rewrite Hst. cbn [interactions with_cmi_data]. exact Hup. }
    clear Hst Hup. unfold and_then at 1. unfold listed.
    destruct (truthy (opt_field cmi "interactions")).
    - destruct (storeInteractions sid (opt_field cmi "interactions") d2)
        as [d3 [u3|e|]] eqn:Hint; try discriminate.
      unfold ret. intros H. inversion H. subst d3.
      unfold storeInteractions in Hint.
      rewrite (each_interaction_count _ _ _ _ _ Hint), Hsame. reflexivity.
    - unfold ret. intros H. inversion H. subst d2.
      cbn [filter List.length]. rewrite Hsame. lia. }
  rewrite Hrows, length_app in Hlen. lia.
Qed.

End WithRuntime.

(** ** A leaf that becomes a branch *)

Lemma set_at_plain_path ks : forall v,
  ks <> [] -> forallb plain_key ks = true ->
  set_at empty_object ks v = Ok (nest ks v).
Proof.
  induction ks as [|a ks IH]; intros v Hne Hk; [contradiction|].
  cbn [forallb] in Hk. apply andb_true_iff in Hk. destruct Hk as [Ha Hks].
  destruct (plain_key_facts a Ha) as [Hnum [Hin [Hidx _]]].
  destruct ks as [|b rest].
  - unfold empty_object. rewrite set_at_last; [|exact Hin|discriminate].
    rewrite (define_new_named a v []); [reflexivity|reflexivity|exact Hidx].
  - unfold empty_object. rewrite set_at_name by assumption.
    cbn [get_own lookup truthy undefined truthy_prim negb].
    assert (Hb : isNaN b = true).
    { cbn [forallb] in Hks. apply andb_true_iff in Hks.
      apply (plain_key_facts b). apply Hks. }
    rewrite Hb. cbn [negb]. rewrite IH; [|discriminate|exact Hks].
    cbn [bind]. rewrite (define_new_named a _ []); [reflexivity|reflexivity|exact Hidx].
Qed.

Lemma set_at_under_leaf ks : forall k x v,
  ks <> [] -> forallb plain_key ks = true -> plain_key k = true -> x <> "" ->
  set_at (nest ks (str x)) (ks ++ [k]) v = Throw TypeError.
Proof.
  induction ks as [|a ks IH]; intros k x v Hne Hk Hlast Hx; [contradiction|].
  cbn [forallb] in Hk. apply andb_true_iff in Hk. destruct Hk as [Ha Hks].
  destruct (plain_key_facts a Ha) as [Hnum [Hin _]].
  destruct (plain_key_facts k Hlast) as [_ [Hkin _]].
  cbn [nest app]. unfold obj.
  destruct ks as [|b rest].
  - cbn [app nest]. rewrite set_at_name by assumption.
    unfold get_own. cbn [lookup]. rewrite string_eqb_refl.
    assert (Ht : truthy (str x) = true).
    { cbn. destruct x; [contradiction|reflexivity]. }
    rewrite Ht. cbn [negb set_at assign_prop str].
    rewrite (not_inherited_not_proto _ Hkin). reflexivity.
  - cbn [app]. rewrite set_at_name by assumption.
    unfold get_own. cbn [lookup]. rewrite string_eqb_refl.
    cbn [nest obj truthy negb].
    change (obj [(b, nest rest (str x))]) with (nest (b :: rest) (str x)).
    change (b :: rest ++ [k]) with ((b :: rest) ++ [k]).
    rewrite IH; [reflexivity|discriminate|exact Hks|exact Hlast|exact Hx].
Qed.

(** A path written as a value and then used as a prefix makes the
    tree of the session unreadable: after a write of a non-empty
    value to [a.b] and a later write to [a.b.c], rebuilding the tree
    raises a [TypeError], where before the second write it gave the
    value nested under its path. *)
Theorem leaf_then_branch_breaks_the_tree :
  forall d sid s el1 el2 k x y t,
    stmt_getSession d sid = Some s ->
    (forall r, In r (cmi_data d) -> cmi_session r <> sid) ->
    forallb plain_key (split dot el1) = true ->
    plain_key k = true ->
    split dot el2 = split dot el1 ++ [k] ->
    x <> "" ->
    now d < t ->
    let d1 := fst (setCmiData sid el1 x d) in
    let d2 := fst (setCmiData sid el2 y (at_clock t d1)) in
    getCmiData sid None d1 = (d1, Ok (nest (split dot el1) (str x)))
    /\ getCmiData sid None d2 = (d2, Throw TypeError).
Proof.
  intros d sid s el1 el2 k x y t Hs Hfresh Hks Hk Hsplit Hx Ht d1 d2.
  assert (Hd1 : d1 = write_one sid d (el1, x)).
  { unfold d1. rewrite (setCmiData_present d sid s el1 x Hs). reflexivity. }
  assert (Hs1 : stmt_getSession (at_clock t d1) sid = Some s).
  { rewrite Hd1. unfold stmt_getSession, at_clock. cbn [sessions].
    fold (stmt_getSession (write_one sid d (el1, x)) sid).
    rewrite write_one_session. exact Hs. }
  assert (Hd2 : d2 = write_one sid (at_clock t d1) (el2, y)).
  { unfold d2. rewrite (setCmiData_present _ sid s el2 y Hs1). reflexivity. }
  set (r1 := {| cmi_id := next_id (map cmi_id (cmi_data d)); cmi_session := sid;
                element := el1; value_ := x; timestamp := now d |}).
  assert (Hrows1 : cmi_data d1 = cmi_data d ++ [r1]).
  { rewrite Hd1. unfold write_one, stmt_insertCmiData. rewrite Hs. reflexivity. }
  assert (Hnone : filter (fun r => String.eqb (cmi_session r) sid) (cmi_data d) = []).
  { apply filter_none. intros r Hr. apply String.eqb_neq. apply Hfresh. exact Hr. }
  split.
  - unfold getCmiData, build_cmi. f_equal. unfold stmt_getAllCmiData.
    rewrite Hrows1, filter_app, Hnone. cbn [app filter cmi_session r1].
    rewrite string_eqb_refl. cbn [order_by fold_right insert_sorted fold_left bind].
    unfold setNestedValue. cbn [element value_ r1].
    apply set_at_plain_path; [apply split_nonempty|exact Hks].
  - unfold getCmiData, build_cmi. f_equal. unfold stmt_getAllCmiData.
    rewrite Hd2. unfold write_one, stmt_insertCmiData. rewrite Hs1.
    cbn [fst cmi_data with_cmi_data at_clock now]. rewrite Hrows1.
    rewrite !filter_app, Hnone. cbn [app filter cmi_session r1].
    rewrite !string_eqb_refl. cbn [app].
    rewrite StoreFacts.order_by_cons. cbn [order_by fold_right insert_sorted timestamp r1].
    assert (Hle : (now d <=? t) = true) by (apply Z.leb_le; lia).
    rewrite Hle. cbn [fold_left bind element value_ r1].
    unfold setNestedValue.
    rewrite set_at_plain_path; [|apply split_nonempty|exact Hks].
    cbn [bind]. rewrite Hsplit.
    apply set_at_under_leaf; [apply split_nonempty|exact Hks|exact Hk|exact Hx].
Qed.

Lemma failed_commit_is_not_rolled_back_witness :
  snd (commitSession (RT := sample_runtime) "s1" broken_commit sample_db)
  = Throw (Wrapped "Failed to commit session" TypeError)
  /\ exists s' row,
       stmt_getSession (fst (commitSession (RT := sample_runtime) "s1" broken_commit
                               sample_db)) "s1" = Some s'
       /\ last_accessed s' = 100
       /\ suspend_data s' = SText "page-3"
       /\ cmi_data (fst (commitSession (RT := sample_runtime) "s1" broken_commit
                            sample_db)) = [row]
       /\ element row = "cmi.suspend_data"
       /\ value_ row = "page-3".
Proof.
  destruct (failed_commit_is_not_rolled_back (RT := sample_runtime)
              sample_db "s1" sample_session [("suspend_data", str "page-3")]
              "objectives" [] [] eq_refl eq_refl eq_refl)
    as [b [rows [_ [Hthrow [Hs [Hrows [_ [Hmap _]]]]]]]].
  split; [exact Hthrow|].
  destruct rows as [|row [|row2 rows]]; try discriminate Hmap.
  eexists. exists row. split; [exact Hs|].
  split; [reflexivity|]. split; [reflexivity|]. split; [exact Hrows|].
  cbn in Hmap. injection Hmap as Hel Hval. rewrite Hel, Hval. split; reflexivity.
Defined.

Lemma commit_stores_every_listed_interaction_witness :
  exists rows,
    interactions (fst (commitSession (RT := sample_runtime) "s1" answered sample_db))
    = interactions sample_db ++ rows
    /\ List.length rows = 1%nat
    /\ Forall (fun row => int_session row = "s1") rows.
Proof.
  apply (commit_stores_every_listed_interaction (RT := sample_runtime)
           sample_db
           (fst (commitSession (RT := sample_runtime) "s1" answered sample_db))
           "s1" answered
           (obj [("interactions",
                  arr [("0", obj [("id", str "q1"); ("result", str "correct")]);
                       ("1", obj [("result", str "wrong")])])])
           (obj [("success", boolean true); ("sessionId", str "s1");
                 ("committed", boolean true)])).
  - reflexivity.
  - reflexivity.
Defined.

Lemma leaf_then_branch_breaks_the_tree_witness :
  let d1 := fst (setCmiData "s1" "cmi.score" "80" sample_db) in
  let d2 := fst (setCmiData "s1" "cmi.score.raw" "80" (at_clock 160 d1)) in
  getCmiData "s1" None d1 = (d1, Ok (obj [("cmi", obj [("score", str "80")])]))
  /\ getCmiData "s1" None d2 = (d2, Throw TypeError).
Proof.
  apply (leaf_then_branch_breaks_the_tree sample_db "s1" sample_session
           "cmi.score" "cmi.score.raw" "raw" "80" "80" 160).
  - reflexivity.
  - intros r [].
  - reflexivity.
  - reflexivity.
  - reflexivity.
  - discriminate.
  - reflexivity.
Defined.

End HistoryFacts.

(* ================================================================== *)
(** * Integrity of the database                                         *)
(* ================================================================== *)

Module IntegrityFacts.
Import JS Db Call ScormApi OfflineSync Props Examples JSFacts SessionFacts Notions.
Import HistoryNotions HistoryFacts Store Sessions IntegrityNotions.
Import Samples StoreSamples.

Lemma package_known s pid :
  stmt_getPackage s pid <> None <-> In pid (map package_id (packages s)).
Proof.
  unfold stmt_getPackage. split.
  - destruct (find _ (packages s)) as [x|] eqn:E; [|congruence].
    intros _. apply find_some in E. destruct E as [Hin Heq].
    apply String.eqb_eq in Heq. rewrite <- Heq. apply in_map. exact Hin.
  - intros Hin. apply in_map_iff in Hin. destruct Hin as [x [Heq Hin]].
    destruct (find _ (packages s)) as [y|] eqn:E; [discriminate|].
    apply (find_none _ _ E) in Hin. rewrite Heq, string_eqb_refl in Hin.
    discriminate.
Qed.

Lemma nodup_map_filter {A B} (key : A -> B) (f : A -> bool) l :
  NoDup (map key l) -> NoDup (map key (filter f l)).
Proof.
  induction l as [|x l IH]; cbn [map filter]; intros H; [constructor|].
  apply NoDup_cons_iff in H. destruct H as [Hx Hl].
  destruct (f x); cbn [map]; [|apply IH; exact Hl].
  constructor; [|apply IH; exact Hl].
  intros Hin. apply Hx. apply in_map_iff in Hin. destruct Hin as [y [Hy Hin]].
  apply filter_In in Hin. rewrite <- Hy. apply in_map. apply Hin.
Qed.

Lemma exists_key {A} (key : A -> string) k l :
  existsb (fun x => String.eqb (key x) k) l = false -> ~ In k (map key l).
Proof.
  intros H Hin. apply in_map_iff in Hin. destruct Hin as [x [Heq Hin]].
  assert (Ht : existsb (fun x => String.eqb (key x) k) l = true).
  { apply existsb_exists. exists x. split; [exact Hin|].
    rewrite Heq. apply string_eqb_refl. }
  congruence.
Qed.

(** Integrity depends on the keys in use only. *)
Lemma consistent_same_keys s s' :
  consistent s ->
  map package_id (packages s') = map package_id (packages s) ->
  map session_id (sessions (tables s')) = map session_id (sessions (tables s)) ->
  (forall x, In x (sessions (tables s')) ->
     exists y, In y (sessions (tables s)) /\ session_package y = session_package x) ->
  (forall r, In r (cmi_data (tables s')) ->
     In r (cmi_data (tables s)) \/ stmt_getSession (tables s) (cmi_session r) <> None) ->
  (forall r, In r (interactions (tables s')) ->
     In r (interactions (tables s)) \/ stmt_getSession (tables s) (int_session r) <> None) ->
  consistent s'.
Proof.
  intros [P [S [F1 [F2 F3]]]] Hp Hs Hx Hc Hi. unfold consistent.
  split; [rewrite Hp; exact P|]. split; [rewrite Hs; exact S|].
  split; [|split].
  - intros x Hin. destruct (Hx x Hin) as [y [Hy Heq]].
    apply package_known. rewrite Hp, <- Heq. apply package_known. apply F1. exact Hy.
  - intros r Hr. apply session_known. rewrite Hs. apply session_known.
    destruct (Hc r Hr) as [H|H]; [apply F2; exact H|exact H].
  - intros r Hr. apply session_known. rewrite Hs. apply session_known.
    destruct (Hi r Hr) as [H|H]; [apply F3; exact H|exact H].
Qed.

Lemma consistent_extends s sid d' :
  consistent s -> extends sid (tables s) d' -> consistent (with_tables s d').
Proof.
  intros Hc [_ [_ [[rows [Hrows [Hall Hex]]] [[irows [Hirows [Hiall Hiex]]] [Hids [Hpk _]]]]]].
  apply (consistent_same_keys s); cbn [with_tables packages tables]; try assumption.
  - reflexivity.
  - intros x Hx.
    assert (Hin : In (session_package x) (map session_package (sessions (tables s)))).
    { rewrite <- Hpk. apply in_map. exact Hx. }
    apply in_map_iff in Hin. destruct Hin as [y [Hy Hin]]. exists y. split; assumption.
  - intros r Hr. rewrite Hrows in Hr. apply in_app_or in Hr.
    destruct Hr as [Hr|Hr]; [left; exact Hr|right].
    rewrite Forall_forall in Hall. destruct (Hall r Hr) as [-> _].
    apply Hex. intros ->. contradiction.
  - intros r Hr. rewrite Hirows in Hr. apply in_app_or in Hr.
    destruct Hr as [Hr|Hr]; [left; exact Hr|right].
    rewrite Forall_forall in Hiall. rewrite (Hiall r Hr).
    apply Hiex. intros ->. contradiction.
Qed.

Lemma insert_session_done s sid pid uid p :
  stmt_getSession (tables s) sid = None ->
  stmt_getPackage s pid = Some p ->
  stmt_insertSession s sid pid uid
  = (with_tables s
       (with_sessions (tables s)
          (sessions (tables s) ++ [new_session (tables s) sid pid uid])),
     Ok tt).
Proof.
  intros Hs Hp. unfold stmt_insertSession.
  assert (Hex : existsb (fun x => String.eqb (session_id x) sid)
                        (sessions (tables s)) = false).
  { destruct (existsb _ (sessions (tables s))) eqn:E; [|reflexivity].
    apply existsb_exists in E. destruct E as [x [Hin Heq]].
    unfold stmt_getSession in Hs. apply (find_none _ _ Hs) in Hin. congruence. }
  rewrite Hex, Hp. reflexivity.
Qed.

Lemma insert_session_outcome s sid pid uid :
  (exists p,
      stmt_getSession (tables s) sid = None /\ stmt_getPackage s pid = Some p
      /\ stmt_insertSession s sid pid uid
         = (with_tables s
              (with_sessions (tables s)
                 (sessions (tables s) ++ [new_session (tables s) sid pid uid])),
            Ok tt))
  \/ (exists e, stmt_insertSession s sid pid uid = (s, Throw e)).
Proof.
  destruct (stmt_getSession (tables s) sid) as [x|] eqn:Hs.
  - right. unfold stmt_insertSession.
    assert (Hex : existsb (fun x => String.eqb (session_id x) sid)
                          (sessions (tables s)) = true).
    { apply existsb_exists. unfold stmt_getSession in Hs.
      apply find_some in Hs. exists x. exact Hs. }
    rewrite Hex. eauto.
  - destruct (stmt_getPackage s pid) as [p|] eqn:Hp.
    + left. exists p. split; [reflexivity|]. split; [reflexivity|].
      apply (insert_session_done s sid pid uid p Hs Hp).
    + right. unfold stmt_insertSession. rewrite Hp.
      destruct (existsb _ (sessions (tables s))); eauto.
Qed.

Lemma consistent_insert_session s sid pid uid :
  consistent s -> consistent (fst (stmt_insertSession s sid pid uid)).
Proof.
  intros Hc.
  destruct (insert_session_outcome s sid pid uid) as [[p [Hs [Hp ->]]]|[e ->]];
    [|exact Hc].
  destruct Hc as [P [S [F1 [F2 F3]]]]. cbn [fst]. unfold consistent.
  cbn [with_tables packages tables with_sessions sessions cmi_data interactions].
  split; [exact P|]. split.
  { rewrite map_app. apply NoDup_app.
    - exact S.
    - cbn. constructor; [intros []|constructor].
    - intros a Ha [<-|[]]. apply session_known in Ha. cbn in Ha. congruence. }
  assert (Hmore : forall k, stmt_getSession (tables s) k <> None ->
            stmt_getSession (with_sessions (tables s)
               (sessions (tables s) ++ [new_session (tables s) sid pid uid])) k <> None).
  { intros k Hk. apply session_known. cbn [sessions with_sessions].
    rewrite map_app. apply in_or_app. left. apply session_known. exact Hk. }
  split; [|split].
  - intros x Hx. apply in_app_or in Hx. destruct Hx as [Hx|[<-|[]]].
    + apply (F1 x Hx).
    + cbn [session_package new_session].
      apply package_known. cbn [packages with_tables]. apply package_known.
      rewrite Hp. discriminate.
  - intros r Hr. apply Hmore. apply F2. exact Hr.
  - intros r Hr. apply Hmore. apply F3. exact Hr.
Qed.

Lemma consistent_initialize s fresh pid uid :
  consistent s -> consistent (fst (initializeSession fresh pid uid s)).
Proof.
  intros Hc. unfold initializeSession.
  destruct (bind_text (default_null uid)) as [u|e|]; try exact Hc.
  pose proof (consistent_insert_session s fresh pid u Hc) as H.
  destruct (stmt_insertSession s fresh pid u) as [s' [a|e|]]; exact H.
Qed.

Lemma consistent_insert_package s pid t v sv i lp m fp fs :
  consistent s -> consistent (fst (stmt_insertPackage s pid t v sv i lp m fp fs)).
Proof.
  intros Hc. unfold stmt_insertPackage.
  destruct (existsb (fun p => String.eqb (package_id p) pid) (packages s)) eqn:E;
    [exact Hc|].
  destruct Hc as [P [S [F1 [F2 F3]]]]. cbn [fst]. unfold consistent.
  cbn [packages tables].
  split.
  { rewrite map_app. apply NoDup_app.
    - exact P.
    - cbn. constructor; [intros []|constructor].
    - intros a Ha [<-|[]]. apply (exists_key package_id _ _ E Ha). }
  split; [exact S|]. split; [|split; assumption].
  intros x Hx. apply package_known. cbn [packages]. rewrite map_app.
  apply in_or_app. left. apply package_known. apply F1. exact Hx.
Qed.

Lemma consistent_delete_package s pid :
  consistent s -> consistent (stmt_deletePackage s pid).
Proof.
  intros Hc. unfold stmt_deletePackage.
  destruct (stmt_getPackage s pid) as [p|]; [|exact Hc].
  destruct Hc as [P [S [F1 [F2 F3]]]]. unfold consistent.
  cbn [packages tables sessions cmi_data interactions].
  split; [apply nodup_map_filter; exact P|].
  split; [apply nodup_map_filter; exact S|].
  assert (Hkept : forall k,
            stmt_getSession (tables s) k <> None ->
            of_package (tables s) pid k = false ->
            In k (map session_id
                    (filter (fun x => negb (String.eqb (session_package x) pid))
                            (sessions (tables s))))).
  { intros k Hk Hof. apply session_known in Hk. apply in_map_iff in Hk.
    destruct Hk as [y [Hy Hin]]. apply in_map_iff. exists y. split; [exact Hy|].
    apply filter_In. split; [exact Hin|].
    destruct (String.eqb (session_package y) pid) eqn:E; [|reflexivity].
    exfalso. assert (Ht : of_package (tables s) pid k = true).
    { apply existsb_exists. exists y. split; [exact Hin|].
      rewrite Hy, string_eqb_refl, E. reflexivity. }
    congruence. }
  split; [|split].
  - intros x Hx. apply filter_In in Hx. destruct Hx as [Hx Hne].
    apply package_known. cbn [packages]. apply in_map_iff.
    specialize (F1 x Hx). unfold stmt_getPackage in F1.
    destruct (find _ (packages s)) as [q|] eqn:E; [|congruence].
    apply find_some in E. destruct E as [Hq Heq]. apply String.eqb_eq in Heq.
    exists q. split; [exact Heq|]. apply filter_In. split; [exact Hq|].
    rewrite Heq. exact Hne.
  - intros r Hr. apply filter_In in Hr. destruct Hr as [Hr Hof].
    apply negb_true_iff in Hof. apply session_known. cbn [sessions].
    apply Hkept; [apply F2; exact Hr|exact Hof].
  - intros r Hr. apply filter_In in Hr. destruct Hr as [Hr Hof].
    apply negb_true_iff in Hof. apply session_known. cbn [sessions].
    apply Hkept; [apply F3; exact Hr|exact Hof].
Qed.

(** *** Rows found by their key *)

Lemma find_by_key {A} (key : A -> string) l x :
  NoDup (map key l) -> In x l ->
  find (fun y => String.eqb (key y) (key x)) l = Some x.
Proof.
  induction l as [|y l IH]; cbn [map find]; intros Hnd Hin; [contradiction|].
  apply NoDup_cons_iff in Hnd. destruct Hnd as [Hy Hl].
  destruct Hin as [->|Hin].
  - rewrite string_eqb_refl. reflexivity.
  - destruct (String.eqb (key y) (key x)) eqn:E; [|apply IH; assumption].
    apply String.eqb_eq in E. exfalso. apply Hy. rewrite E. apply in_map. exact Hin.
Qed.

Lemma find_filtered_out {A} (f g : A -> bool) l :
  (forall y, In y l -> f y = true -> g y = false) ->
  find f (filter g l) = None.
Proof.
  intros H. destruct (find f (filter g l)) as [y|] eqn:E; [|reflexivity].
  apply find_some in E. destruct E as [Hin Hf]. apply filter_In in Hin.
  destruct Hin as [Hin Hg]. rewrite (H y Hin Hf) in Hg. discriminate.
Qed.

Lemma filter_filter_same {A} (f g : A -> bool) l :
  (forall y, In y l -> f y = true -> g y = true) ->
  filter f (filter g l) = filter f l.
Proof.
  intros H. induction l as [|y l IH]; [reflexivity|]. cbn [filter].
  assert (IH' : filter f (filter g l) = filter f l).
  { apply IH. intros z Hz. apply H. right. exact Hz. }
  destruct (g y) eqn:Eg; cbn [filter].
  - rewrite IH'. reflexivity.
  - destruct (f y) eqn:Ef; [|exact IH'].
    rewrite (H y (or_introl eq_refl) Ef) in Eg. discriminate.
Qed.

Lemma filter_filter_none {A} (f g : A -> bool) l :
  (forall y, In y l -> f y = true -> g y = false) ->
  filter f (filter g l) = [].
Proof.
  intros H. apply TreeFacts.filter_none. intros y Hy. apply filter_In in Hy.
  destruct Hy as [Hy Hg]. destruct (f y) eqn:Ef; [|reflexivity].
  rewrite (H y Hy Ef) in Hg. discriminate.
Qed.

Lemma of_package_member d pid x :
  NoDup (map session_id (sessions d)) -> In x (sessions d) ->
  of_package d pid (session_id x) = String.eqb (session_package x) pid.
Proof.
  intros Hnd Hin. unfold of_package.
  destruct (String.eqb (session_package x) pid) eqn:E.
  - apply existsb_exists. exists x. split; [exact Hin|].
    rewrite string_eqb_refl, E. reflexivity.
  - destruct (existsb _ (sessions d)) eqn:Ex; [|reflexivity].
    apply existsb_exists in Ex. destruct Ex as [y [Hy Hb]].
    apply andb_true_iff in Hb. destruct Hb as [Hid Hpk].
    apply String.eqb_eq in Hid.
    assert (Hfx : find (fun z => String.eqb (session_id z) (session_id x)) (sessions d)
                  = Some x) by (apply find_by_key; assumption).
    assert (Hfy : find (fun z => String.eqb (session_id z) (session_id y)) (sessions d)
                  = Some y) by (apply find_by_key; assumption).
    rewrite Hid in Hfy. rewrite Hfx in Hfy. inversion Hfy; subst y. congruence.
Qed.

(** Deleting a package takes with it the sessions opened on it and
    everything recorded for them, and nothing else: the other
    packages, the sessions of other packages with their records and
    interactions, and the whole sync queue stay, so the entries that
    were queued for the deleted sessions are still fetched by the
    next pass. *)
Theorem delete_package_cascades :
  forall s pid p,
    consistent s ->
    stmt_getPackage s pid = Some p ->
    let s' := stmt_deletePackage s pid in
    stmt_getPackage s' pid = None
    /\ (forall x, In x (sessions (tables s)) -> session_package x = pid ->
        stmt_getSession (tables s') (session_id x) = None
        /\ stmt_getAllCmiData (tables s') (session_id x) = []
        /\ stmt_getInteractions (tables s') (session_id x) = [])
    /\ (forall x, In x (sessions (tables s)) -> session_package x <> pid ->
        stmt_getSession (tables s') (session_id x) = Some x
        /\ stmt_getAllCmiData (tables s') (session_id x)
           = stmt_getAllCmiData (tables s) (session_id x)
        /\ stmt_getInteractions (tables s') (session_id x)
           = stmt_getInteractions (tables s) (session_id x))
    /\ (forall q, In q (packages s) -> package_id q <> pid ->
        stmt_getPackage s' (package_id q) = Some q)
    /\ sync_queue (tables s') = sync_queue (tables s)
    /\ (forall n, stmt_getPendingSync (tables s') n = stmt_getPendingSync (tables s) n).
Proof.
  intros s pid p [P [S _]] Hp s'. subst s'. unfold stmt_deletePackage. rewrite Hp.
  split; [|split; [|split; [|split; [|split]]]].
  - unfold stmt_getPackage. cbn [packages]. apply find_filtered_out.
    intros y _ Hy. rewrite Hy. reflexivity.
  - intros x Hx Hpk.
    pose proof (of_package_member (tables s) pid x S Hx) as Hof.
    rewrite Hpk, string_eqb_refl in Hof.
    split; [|split].
    + unfold stmt_getSession. cbn [tables sessions]. apply find_filtered_out.
      intros y Hy Hid. apply String.eqb_eq in Hid.
      assert (Hfy : find (fun z => String.eqb (session_id z) (session_id y))
                         (sessions (tables s)) = Some y)
        by (apply find_by_key; assumption).
      assert (Hfx : find (fun z => String.eqb (session_id z) (session_id x))
                         (sessions (tables s)) = Some x)
        by (apply find_by_key; assumption).
      rewrite Hid, Hfx in Hfy. inversion Hfy; subst y.
      rewrite Hpk, string_eqb_refl. reflexivity.
    + unfold stmt_getAllCmiData. cbn [tables cmi_data].
      rewrite filter_filter_none; [reflexivity|].
      intros r _ Hr. apply String.eqb_eq in Hr. rewrite Hr, Hof. reflexivity.
    + unfold stmt_getInteractions. cbn [tables interactions].
      rewrite filter_filter_none; [reflexivity|].
      intros r _ Hr. apply String.eqb_eq in Hr. rewrite Hr, Hof. reflexivity.
  - intros x Hx Hpk.
    pose proof (of_package_member (tables s) pid x S Hx) as Hof.
    apply String.eqb_neq in Hpk. rewrite Hpk in Hof.
    split; [|split].
    + unfold stmt_getSession. cbn [tables sessions].
      apply (find_by_key session_id).
      * apply nodup_map_filter. exact S.
      * apply filter_In. split; [exact Hx|]. rewrite Hpk. reflexivity.
    + unfold stmt_getAllCmiData. cbn [tables cmi_data].
      rewrite filter_filter_same; [reflexivity|].
      intros r _ Hr. apply String.eqb_eq in Hr. rewrite Hr, Hof. reflexivity.
    + unfold stmt_getInteractions. cbn [tables interactions].
      rewrite filter_filter_same; [reflexivity|].
      intros r _ Hr. apply String.eqb_eq in Hr. rewrite Hr, Hof. reflexivity.
  - intros q Hq Hne. unfold stmt_getPackage. cbn [packages].
    apply (find_by_key package_id).
    + apply nodup_map_filter. exact P.
    + apply filter_In. split; [exact Hq|].
      apply String.eqb_neq in Hne. rewrite Hne. reflexivity.
  - reflexivity.
  - intros n. reflexivity.
Qed.

Section WithRuntime.
Context {RT : Runtime}.

Lemma on_tables_fst {A} (m : call A) s :
  fst (on_tables m s) = with_tables s (fst (m (tables s))).
Proof. unfold on_tables. destruct (m (tables s)); reflexivity. Qed.

Lemma on_tables_snd {A} (m : call A) s :
  snd (on_tables m s) = snd (m (tables s)).
Proof. unfold on_tables. destruct (m (tables s)); reflexivity. Qed.

(** Referential integrity is an invariant of the services: from a
    database whose keys are unique and whose foreign keys all point
    at rows, opening a session, committing, terminating, writing a
    value, and registering or deleting a package each leave such a
    database, whatever their arguments and whether they return or
    raise. *)
Theorem integrity_is_kept :
  forall s,
    consistent s ->
    (forall fresh pid userId, consistent (fst (initializeSession fresh pid userId s)))
    /\ (forall sid payload, consistent (fst (on_tables (commitSession sid payload) s)))
    /\ (forall sid payload, consistent (fst (on_tables (terminateSession sid payload) s)))
    /\ (forall sid el v, consistent (fst (on_tables (setCmiData sid el v) s)))
    /\ (forall pid, consistent (stmt_deletePackage s pid))
    /\ (forall pid t v sv i lp m fp fs,
           consistent (fst (stmt_insertPackage s pid t v sv i lp m fp fs))).
Proof.
  intros s Hc.
  split; [intros; apply consistent_initialize; exact Hc|].
  split; [intros sid payload; rewrite on_tables_fst;
          apply (consistent_extends s sid); [exact Hc|apply extends_commit]|].
  split; [intros sid payload; rewrite on_tables_fst;
          apply (consistent_extends s sid); [exact Hc|apply extends_terminate]|].
  split; [intros sid el v; rewrite on_tables_fst;
          apply (consistent_extends s sid); [exact Hc|];
          apply extends_records; apply records_setCmiData|].
  split; [intros; apply consistent_delete_package; exact Hc|].
  intros. apply consistent_insert_package. exact Hc.
Qed.

Lemma find_last_only {A} (f : A -> bool) l x :
  find f l = None -> f x = true -> find f (l ++ [x]) = Some x.
Proof.
  intros Hn Hx. induction l as [|y l IH]; cbn [app find] in *.
  - rewrite Hx. reflexivity.
  - destruct (f y); [discriminate|]. apply IH. exact Hn.
Qed.

Lemma no_rows_of_unknown_session s sid :
  consistent s -> stmt_getSession (tables s) sid = None ->
  filter (fun r => String.eqb (cmi_session r) sid) (cmi_data (tables s)) = []
  /\ filter (fun r => String.eqb (int_session r) sid) (interactions (tables s)) = [].
Proof.
  intros [_ [_ [_ [F2 F3]]]] Hs. split; apply TreeFacts.filter_none; intros r Hr.
  - destruct (String.eqb (cmi_session r) sid) eqn:E; [|reflexivity].
    apply String.eqb_eq in E. specialize (F2 r Hr). congruence.
  - destruct (String.eqb (int_session r) sid) eqn:E; [|reflexivity].
    apply String.eqb_eq in E. specialize (F3 r Hr). congruence.
Qed.

(** What opening a session leaves, and how it is read and listed. *)
Lemma opened_session :
  forall s fresh pid userId uid p,
    consistent s ->
    stmt_getPackage s pid = Some p ->
    stmt_getSession (tables s) fresh = None ->
    bind_text (default_null userId) = Ok uid ->
    let row := new_session (tables s) fresh pid uid in
    let s' := fst (initializeSession fresh pid userId s) in
    initializeSession fresh pid userId s
    = (with_tables s (with_sessions (tables s) (sessions (tables s) ++ [row])),
       Ok (obj [("success", boolean true); ("sessionId", str fresh);
                ("packageId", str pid); ("userId", default_null userId)]))
    /\ stmt_getSession (tables s') fresh = Some row
    /\ on_tables (loadInitialData fresh)
                 (with_tables s (with_sessions (tables s) (sessions (tables s) ++ [row])))
       = (with_tables s (with_sessions (tables s) (sessions (tables s) ++ [row])),
          Ok (Some {| initial_session := row; initial_cmi := empty_object;
                      initial_interactions := [] |}))
    /\ (forall x,
           In x (stmt_getSessionsByPackage (tables s') pid)
           <-> In x (stmt_getSessionsByPackage (tables s) pid) \/ x = row)
    /\ (forall u l,
           getSessionsByUser u (tables s') = (tables s', Ok l) ->
           (In row l <-> exists v, u = str v /\ uid = Some v)).
Proof.
  intros s fresh pid userId uid p Hc Hp Hs Hu row s'.
  assert (Hrun : initializeSession fresh pid userId s
                 = (with_tables s (with_sessions (tables s)
                                     (sessions (tables s) ++ [row])),
                    Ok (obj [("success", boolean true); ("sessionId", str fresh);
                             ("packageId", str pid);
                             ("userId", default_null userId)]))).
  { unfold initializeSession. rewrite Hu.
    rewrite (insert_session_done s fresh pid uid p Hs Hp). reflexivity. }
  subst s'. rewrite Hrun. cbn [fst snd].
  set (d' := with_sessions (tables s) (sessions (tables s) ++ [row])).
  fold d' in Hrun.
  assert (Hrow : stmt_getSession d' fresh = Some row).
  { unfold stmt_getSession, d'. cbn [sessions with_sessions].
    apply find_last_only; [exact Hs|]. cbn. apply string_eqb_refl. }
  destruct (no_rows_of_unknown_session s fresh Hc Hs) as [Hcmi Hint].
  split; [reflexivity|]. split; [exact Hrow|]. split; [|split].
  - unfold on_tables. cbn [tables with_tables]. fold d'.
    unfold loadInitialData, and_then at 1, getSession, query. rewrite Hrow.
    unfold and_then at 1, getCmiData, build_cmi, stmt_getAllCmiData.
    cbn [cmi_data d' with_sessions]. rewrite Hcmi.
    cbn [order_by fold_right fold_left].
    unfold and_then at 1, getInteractions, stmt_getInteractions.
    cbn [interactions d' with_sessions]. rewrite Hint.
    cbn [order_by fold_right parse_each]. unfold ret.
    destruct s as [pk d]. reflexivity.
  - intros x. unfold stmt_getSessionsByPackage, d'.
    cbn [tables with_tables sessions with_sessions].
    rewrite filter_app, in_app_iff. cbn [filter session_package row new_session].
    rewrite string_eqb_refl. cbn [In]. intuition congruence.
  - intros u l Hl. cbn [tables with_tables] in Hl. fold d' in Hl.
    unfold getSessionsByUser in Hl. inversion Hl as [Hres]. clear Hl.
    destruct u as [[| |b|n|t]|kd props]; cbn [bind_text bind] in Hres;
      try discriminate; inversion Hres; subst l; clear Hres.
    + split; [intros []|]. intros [v [Hv _]]. discriminate.
    + split; [intros []|]. intros [v [Hv _]]. discriminate.
    + unfold stmt_getSessionsByUser. rewrite filter_In.
      cbn [user_id row new_session]. split.
      * intros [_ Hm]. destruct uid as [w|]; [|discriminate].
        apply String.eqb_eq in Hm. subst w. exists t. split; reflexivity.
      * intros [v [Hv Hw]]. inversion Hv; subst v. subst uid. split.
        -- unfold d'. cbn [sessions with_sessions]. apply in_or_app. right.
           left. reflexivity.
        -- apply string_eqb_refl.
Qed.

(** A session that has just been opened has nothing to resume:
    [initializeSession] always creates a row under the generated id,
    with the defaults of the schema, so what [loadInitialData] loads
    for it is that row with an empty CMI tree and no interactions.
    The session joins those listed under its package, and is
    listed under its user when it has one: a session opened without a
    user is in no
    user's list. *)
Theorem opened_session_starts_empty :
  forall s fresh pid userId uid p,
    consistent s ->
    stmt_getPackage s pid = Some p ->
    stmt_getSession (tables s) fresh = None ->
    bind_text (default_null userId) = Ok uid ->
    let row := new_session (tables s) fresh pid uid in
    let s' := fst (initializeSession fresh pid userId s) in
    initializeSession fresh pid userId s
    = (with_tables s (with_sessions (tables s) (sessions (tables s) ++ [row])),
       Ok (obj [("success", boolean true); ("sessionId", str fresh);
                ("packageId", str pid); ("userId", default_null userId)]))
    /\ stmt_getSession (tables s') fresh = Some row
    /\ on_tables (loadInitialData fresh)
                 (with_tables s (with_sessions (tables s) (sessions (tables s) ++ [row])))
       = (with_tables s (with_sessions (tables s) (sessions (tables s) ++ [row])),
          Ok (Some {| initial_session := row; initial_cmi := empty_object;
                      initial_interactions := [] |}))
    /\ (forall x,
           In x (stmt_getSessionsByPackage (tables s') pid)
           <-> In x (stmt_getSessionsByPackage (tables s) pid) \/ x = row)
    /\ (forall u l,
           getSessionsByUser u (tables s') = (tables s', Ok l) ->
           (In row l <-> exists v, u = str v /\ uid = Some v)).
Proof. exact opened_session. Qed.

(** A session id that is taken, or a package that does not exist,
    makes [initializeSession] raise and leave the database as it
    was. *)
Theorem session_is_not_opened_without_its_keys :
  forall s fresh pid userId uid,
    bind_text (default_null userId) = Ok uid ->
    (stmt_getSession (tables s) fresh <> None ->
     initializeSession fresh pid userId s
     = (s, Throw (Wrapped "Failed to initialize session"
                    (Error "UNIQUE constraint failed: scorm_sessions.id"))))
    /\ (stmt_getSession (tables s) fresh = None ->
        stmt_getPackage s pid = None ->
        initializeSession fresh pid userId s
        = (s, Throw (Wrapped "Failed to initialize session"
                       (Error "FOREIGN KEY constraint failed")))).
Proof.
  intros s fresh pid userId uid Hu. unfold initializeSession. rewrite Hu.
  unfold stmt_insertSession. split.
  - intros Hs.
    assert (Hex : existsb (fun x => String.eqb (session_id x) fresh)
                          (sessions (tables s)) = true).
    { unfold stmt_getSession in Hs.
      destruct (find _ (sessions (tables s))) as [x|] eqn:E; [|congruence].
      apply find_some in E. apply existsb_exists. exists x. exact E. }
    rewrite Hex. reflexivity.
  - intros Hs Hp.
    assert (Hex : existsb (fun x => String.eqb (session_id x) fresh)
                          (sessions (tables s)) = false).
    { destruct (existsb _ (sessions (tables s))) eqn:E; [|reflexivity].
      apply existsb_exists in E. destruct E as [x [Hin Heq]].
      unfold stmt_getSession in Hs. apply (find_none _ _ Hs) in Hin. congruence. }
    rewrite Hex, Hp. reflexivity.
Qed.

(** *** Interactions *)

Lemma textual_bound v : textual v = true -> bind_value v = Ok (stored v).
Proof.
  destruct v as [[| |b|n|t]|kd props]; cbn; intros H; try discriminate; reflexivity.
Qed.

(** What is read back of an interaction a commit stored: one row
    for the session, carrying the id, the optional fields with NULL
    in place of the falsy ones, the time of its timestamp, and in
    place of the serialized [correct_responses] the value that was
    given, or [null] when it was falsy. *)
Theorem stored_interaction_is_read_back :
  forall d sid s interactions_ x,
    stmt_getSession d sid = Some s ->
    (forall r, In r (interactions d) -> int_session r <> sid) ->
    interaction_list interactions_ = [x] ->
    identified x = true ->
    textual (opt_field x "id") = true ->
    textual (or_else (opt_field x "type") null) = true ->
    textual (or_else (opt_field x "learner_response") null) = true ->
    textual (or_else (opt_field x "result") null) = true ->
    textual (or_else (opt_field x "latency") null) = true ->
    textual (or_else (opt_field x "description") null) = true ->
    let given := opt_field x "correct_responses" in
    let time := opt_field x "timestamp" in
    (truthy given = true ->
     exists text,
       JSON_stringify given = Some text /\ text <> "" /\ JSON_parse text = Some given) ->
    let d' := fst (storeInteractions sid interactions_ d) in
    exists row,
      getInteractions sid d' = (d', Ok [(row, if truthy given then given else null)])
      /\ int_session row = sid
      /\ interaction_id row = stored (opt_field x "id")
      /\ int_type row = stored (or_else (opt_field x "type") null)
      /\ int_timestamp row
         = (if truthy time
            then match Date_getTime time with Some t => SNum t | None => SNull end
            else SNull)
      /\ learner_response row = stored (or_else (opt_field x "learner_response") null)
      /\ int_result row = stored (or_else (opt_field x "result") null)
      /\ latency row = stored (or_else (opt_field x "latency") null)
      /\ description row = stored (or_else (opt_field x "description") null).
Proof.
  intros d sid s interactions_ x Hs Hfresh Hlist Hid T1 T2 T3 T4 T5 T6 given time
         Hgiven d'.
  assert (Hobj : field x "id" = Ok (opt_field x "id")).
  { destruct x as [[| |b|n|t]|kd props]; try discriminate Hid; reflexivity. }
  set (cell := if truthy given
               then match JSON_stringify given with
                    | Some t => SText t
                    | None => SNull
                    end
               else SNull).
  set (row := {| int_id := next_id (map int_id (interactions d));
                 int_session := sid;
                 interaction_id := stored (opt_field x "id");
                 int_type := stored (or_else (opt_field x "type") null);
                 int_timestamp :=
                   (if truthy time
                    then match Date_getTime time with
                         | Some t => SNum t
                         | None => SNull
                         end
                    else SNull);
                 correct_responses := cell;
                 learner_response :=
                   stored (or_else (opt_field x "learner_response") null);
                 int_result := stored (or_else (opt_field x "result") null);
                 latency := stored (or_else (opt_field x "latency") null);
                 description := stored (or_else (opt_field x "description") null) |}).
  assert (Hstore : storeInteractions sid interactions_ d
                   = (with_interactions d (interactions d ++ [row]), Ok tt)).
  { unfold storeInteractions. rewrite Hlist. cbn [each_interaction].
    unfold and_then at 1, lift. rewrite Hobj.
    unfold identified in Hid. rewrite Hid. cbn [negb].
    unfold and_then at 1, insertInteraction_run.
    unfold and_then at 1, lift. rewrite (textual_bound _ T1).
    unfold and_then at 1. rewrite (textual_bound _ T2).
    unfold and_then at 1, ret. unfold and_then at 1.
    unfold and_then at 1. rewrite (textual_bound _ T3).
    unfold and_then at 1. rewrite (textual_bound _ T4).
    unfold and_then at 1. rewrite (textual_bound _ T5).
    unfold and_then at 1. rewrite (textual_bound _ T6).
    unfold stmt_insertInteraction. rewrite Hs. reflexivity. }
  exists row. subst d'. rewrite Hstore. cbn [fst].
  split; [|repeat split].
  unfold getInteractions, stmt_getInteractions. cbn [interactions with_interactions].
  rewrite filter_app, (TreeFacts.filter_none _ (interactions d)).
  2:{ intros r Hr. apply String.eqb_neq. apply Hfresh. exact Hr. }
  cbn [app filter int_session row]. rewrite string_eqb_refl.
  cbn [order_by fold_right insert_sorted parse_each correct_responses row].
  assert (Hparse : parse_responses cell = Ok (if truthy given then given else null)).
  { unfold cell. destruct (truthy given) eqn:E; [|reflexivity].
    destruct (Hgiven eq_refl) as [text [H1 [H2 H3]]]. rewrite H1.
    cbn [parse_responses].
    assert (Ht : truthy (str text) = true).
    { cbn. destruct text; [contradiction|reflexivity]. }
    rewrite Ht, H3. reflexivity. }
  rewrite Hparse. reflexivity.
Qed.

End WithRuntime.

Lemma sample_store_consistent : consistent sample_store.
Proof.
  unfold consistent. cbn.
  split; [repeat constructor; cbn; intuition discriminate|].
  split; [repeat constructor; cbn; intuition discriminate|].
  split; [intros x [<-|[]]; discriminate|].
  split; intros r [].
Qed.

Lemma library_consistent : consistent library.
Proof.
  unfold consistent. cbn.
  split; [repeat constructor; cbn; intuition discriminate|].
  split; [repeat constructor; cbn; intuition discriminate|].
  split; [intros x [<-|[<-|[]]]; discriminate|].
  split; [intros r [<-|[<-|[]]]; discriminate|].
  intros r [<-|[]]; discriminate.
Qed.

Lemma integrity_is_kept_witness :
  consistent (fst (initializeSession "s2" "p1" (str "u1") sample_store))
  /\ consistent (fst (on_tables (commitSession (RT := sample_runtime) "s1" broken_commit)
                                sample_store))
  /\ consistent (stmt_deletePackage sample_store "p1").
Proof.
  destruct (integrity_is_kept (RT := sample_runtime) sample_store sample_store_consistent)
    as [H1 [H2 [_ [_ [H5 _]]]]].
  split; [apply H1|]. split; [apply H2|apply H5].
Defined.

Lemma delete_package_cascades_witness :
  let s' := stmt_deletePackage library "p1" in
  stmt_getPackage s' "p1" = None
  /\ stmt_getSession (tables s') "s1" = None
  /\ stmt_getAllCmiData (tables s') "s1" = []
  /\ stmt_getInteractions (tables s') "s1" = []
  /\ stmt_getAllCmiData (tables s') "s2" = stmt_getAllCmiData (tables library) "s2"
  /\ sync_queue (tables s') = [entry 1 "commit" (Some "null")].
Proof.
  intros s'.
  destruct (delete_package_cascades library "p1" sample_package library_consistent eq_refl)
    as [H1 [H2 [H3 [_ [H5 _]]]]].
  destruct (H2 sample_session (or_introl eq_refl) eq_refl) as [Ha [Hb Hc]].
  split; [exact H1|]. split; [exact Ha|]. split; [exact Hb|]. split; [exact Hc|].
  split; [|exact H5].
  refine (proj1 (proj2 (H3 _ (or_intror (or_introl eq_refl)) _))). discriminate.
Defined.

Lemma opened_session_starts_empty_witness :
  let s' := fst (initializeSession "s2" "p1" (str "u1") sample_store) in
  stmt_getSession (tables s') "s2" = Some (new_session sample_db "s2" "p1" (Some "u1"))
  /\ on_tables (loadInitialData (RT := sample_runtime) "s2") s'
     = (s', Ok (Some {| initial_session := new_session sample_db "s2" "p1" (Some "u1");
                        initial_cmi := empty_object;
                        initial_interactions := [] |}))
  /\ In (new_session sample_db "s2" "p1" (Some "u1"))
        (stmt_getSessionsByPackage (tables s') "p1")
  /\ getSessionsByUser (str "u1") (tables s')
     = (tables s', Ok [new_session sample_db "s2" "p1" (Some "u1")]).
Proof.
  intros s'.
  destruct (opened_session_starts_empty (RT := sample_runtime) sample_store
              "s2" "p1" (str "u1") (Some "u1") sample_package
              sample_store_consistent eq_refl eq_refl eq_refl)
    as [_ [H2 [H3 [H4 _]]]].
  split; [exact H2|]. split; [exact H3|]. split; [|reflexivity].
  apply H4. right. reflexivity.
Defined.

Lemma session_is_not_opened_without_its_keys_witness :
  initializeSession "s1" "p1" null sample_store
  = (sample_store, Throw (Wrapped "Failed to initialize session"
                            (Error "UNIQUE constraint failed: scorm_sessions.id")))
  /\ initializeSession "s2" "p9" null sample_store
     = (sample_store, Throw (Wrapped "Failed to initialize session"
                               (Error "FOREIGN KEY constraint failed"))).
Proof.
  split.
  - apply (proj1 (session_is_not_opened_without_its_keys sample_store "s1" "p1" null
                    None eq_refl)).
    discriminate.
  - apply (proj2 (session_is_not_opened_without_its_keys sample_store "s2" "p9" null
                    None eq_refl)); reflexivity.
Defined.

Lemma stored_interaction_is_read_back_witness :
  let d' := fst (storeInteractions (RT := literal_runtime) "s1"
                   (arr [("0", question)]) sample_db) in
  exists row,
    getInteractions (RT := literal_runtime) "s1" d' = (d', Ok [(row, empty_array)])
    /\ interaction_id row = SText "q1"
    /\ int_result row = SText "correct"
    /\ latency row = SNull.
Proof.
  intros d'.
  destruct (stored_interaction_is_read_back (RT := literal_runtime)
              sample_db "s1" sample_session (arr [("0", question)]) question)
    as [row [Hread [_ [Hid [_ [_ [_ [Hres [Hlat _]]]]]]]]]; try reflexivity.
  - intros r [].
  - intros _. exists "[]". split; [reflexivity|]. split; [discriminate|reflexivity].
  - exists row. split; [exact Hread|]. split; [exact Hid|]. split; [exact Hres|exact Hlat].
Defined.

End IntegrityFacts.

(* ================================================================== *)
(** * The request handlers answer                                       *)
(* ================================================================== *)

Module HandlerFacts.
Import JS Db Call ScormApi OfflineSync Props Examples JSFacts SessionFacts StoreFacts Notions.
Import HistoryNotions HistoryFacts Store Sessions IntegrityNotions IntegrityFacts Http.
Import Samples StoreSamples.

Section WithRuntime.
Context {RT : Runtime}.

Lemma session_id_string sid : sid <> "" -> session_id_of (str sid) = Ok (Some sid).
Proof.
  intros H. unfold session_id_of. cbn. destruct sid; [contradiction|reflexivity].
Qed.

Lemma session_id_falsy v : truthy v = false -> session_id_of v = Ok None.
Proof. intros H. unfold session_id_of. rewrite H. reflexivity. Qed.

Lemma caught_never_raises {S A} code (m : S -> S * result (reply A)) s e :
  snd (caught code m s) <> Throw e.
Proof.
  unfold caught. destruct (m s) as [s' [a|e'|]]; cbn; discriminate.
Qed.

(** What a client of the commit endpoint is answered: never an
    exception; a 500 with [errorCode] 101 when the request has no
    body or the session does not exist, the database untouched; a
    400 when the session id is missing or falsy, the database
    untouched; and the result of [commitSession] on the payload, or
    on [{}] when the payload is missing or falsy. *)
Theorem commit_handler_answers :
  forall body d,
    (forall e, snd (ScormController.commit body d) <> Throw e)
    /\ (field body "sessionId" = Throw TypeError ->
        ScormController.commit body d = (d, Ok (Failed TypeError (Some 101))))
    /\ (forall sessionId,
           field body "sessionId" = Ok sessionId -> truthy sessionId = false ->
           ScormController.commit body d = (d, Ok (Refused 400 "Session ID required")))
    /\ (forall sid,
           field body "sessionId" = Ok (str sid) -> sid <> "" ->
           stmt_getSession d sid = None ->
           ScormController.commit body d
           = (d, Ok (Failed (Wrapped "Failed to commit session"
                               (Error "Session not found")) (Some 101))))
    /\ (forall sid data_ d' r,
           field body "sessionId" = Ok (str sid) -> sid <> "" ->
           field body "data" = Ok data_ ->
           commitSession sid (or_else data_ empty_object) d = (d', Ok r) ->
           ScormController.commit body d = (d', Ok (Json r))).
Proof.
  intros body d. split; [intros e; apply caught_never_raises|].
  assert (Hdata : forall v, field body "sessionId" = Ok v ->
                    exists w, field body "data" = Ok w).
  { intros v H. destruct body as [[| |b|n|t]|kd props]; cbn in *;
      try discriminate; eauto. }
  unfold ScormController.commit, caught.
  split; [|split; [|split]].
  - intros H. unfold and_then at 1, lift. rewrite H. reflexivity.
  - intros sessionId H Hf. destruct (Hdata _ H) as [w Hw].
    unfold and_then at 1, lift. rewrite H.
    unfold and_then at 1. rewrite Hw.
    unfold and_then at 1. rewrite (session_id_falsy _ Hf). reflexivity.
  - intros sid H Hne Hs. destruct (Hdata _ H) as [w Hw].
    unfold and_then at 1, lift. rewrite H.
    unfold and_then at 1. rewrite Hw.
    unfold and_then at 1. rewrite (session_id_string _ Hne).
    unfold and_then at 1. rewrite (commit_unknown_session d sid _ Hs). reflexivity.
  - intros sid data_ d' r H Hne Hw Hrun.
    unfold and_then at 1, lift. rewrite H.
    unfold and_then at 1. rewrite Hw.
    unfold and_then at 1. rewrite (session_id_string _ Hne).
    unfold and_then at 1. rewrite Hrun. reflexivity.
Qed.

(** The terminate endpoint answers success for any session id when
    the request carries no data, whether or not the session exists,
    and writes nothing; with data for a session that does not exist
    it answers 500 with the error of the embedded commit. *)
Theorem terminate_handler_answers :
  forall body d sid data_,
    field body "sessionId" = Ok (str sid) -> sid <> "" ->
    field body "data" = Ok data_ ->
    (truthy data_ = false ->
     ScormController.terminateSession body d
     = (d, Ok (Json (obj [("success", boolean true); ("sessionId", str sid);
                          ("terminated", boolean true)]))))
    /\ (forall n,
           truthy data_ = true -> keys_length data_ = Ok n -> 0 < n ->
           stmt_getSession d sid = None ->
           ScormController.terminateSession body d
           = (d, Ok (Failed (Wrapped "Failed to terminate session"
                               (Wrapped "Failed to commit session"
                                  (Error "Session not found"))) None))).
Proof.
  intros body d sid data_ H Hne Hw.
  assert (Hrun : ScormController.terminateSession body d
                 = (fst (terminateSession sid (or_else data_ empty_object) d),
                    match snd (terminateSession sid (or_else data_ empty_object) d) with
                    | Ok r => Ok (Json r)
                    | Throw e => Ok (Failed e None)
                    | OutOfModel => OutOfModel
                    end)).
  { unfold ScormController.terminateSession, caught.
    unfold and_then at 1, lift. rewrite H.
    unfold and_then at 1. rewrite Hw.
    unfold and_then at 1. rewrite (session_id_string _ Hne).
    unfold and_then at 1.
    destruct (terminateSession sid (or_else data_ empty_object) d) as [d1 [r|e|]];
      reflexivity. }
  rewrite Hrun. unfold or_else. split.
  - intros Hf. rewrite Hf. reflexivity.
  - intros n Ht Hk Hn Hs. rewrite Ht.
    assert (Hdef : default_object data_ = data_).
    { destruct data_ as [[| |b|z|t]|kd ps]; cbn in *; try reflexivity. discriminate. }
    assert (Hterm : terminateSession sid data_ d
                    = (d, Throw (Wrapped "Failed to terminate session"
                                   (Wrapped "Failed to commit session"
                                      (Error "Session not found"))))).
    { unfold terminateSession, rethrow, and_then at 1, lift.
      rewrite Hdef, Hk. unfold and_then at 1.
      apply Z.ltb_lt in Hn. rewrite Hn. unfold and_then at 1.
      rewrite (commit_unknown_session d sid data_ Hs). reflexivity. }
    rewrite Hterm. reflexivity.
Qed.

(** The newest record is the first of [ORDER BY timestamp DESC],
    however the older ones compare with one another. *)
Lemma latest_on_top (l : list cmi_row) x :
  (forall r, In r l -> timestamp r < timestamp x) ->
  exists rest,
    order_by (fun a b => timestamp b <=? timestamp a) (l ++ [x]) = x :: rest.
Proof.
  intros H. unfold order_by. rewrite fold_right_app. cbn [fold_right insert_sorted].
  induction l as [|y l IH]; [exists []; reflexivity|].
  destruct IH as [rest IH]; [intros r Hr; apply H; right; exact Hr|].
  cbn [fold_right]. rewrite IH. cbn [insert_sorted].
  assert (Hy : (timestamp x <=? timestamp y) = false).
  { apply Z.leb_gt. apply H. left. reflexivity. }
  rewrite Hy. eexists. reflexivity.
Qed.

(** A write is read back whatever the earlier records of the
    element are, once the clock is past them. *)
Lemma own_write_is_read d sid s el v :
  stmt_getSession d sid = Some s ->
  (forall r, In r (records_of d sid el) -> timestamp r < now d) ->
  setCmiData sid el v d
  = (with_cmi_data d
       (cmi_data d ++
        [{| cmi_id := next_id (map cmi_id (cmi_data d)); cmi_session := sid;
            element := el; value_ := v; timestamp := now d |}]),
     Ok tt)
  /\ exists row,
       stmt_getCmiData (fst (setCmiData sid el v d)) sid el = Some row
       /\ value_ row = v.
Proof.
  intros Hs Hpast.
  set (row := {| cmi_id := next_id (map cmi_id (cmi_data d)); cmi_session := sid;
                 element := el; value_ := v; timestamp := now d |}).
  assert (Hrun : setCmiData sid el v d
                 = (with_cmi_data d (cmi_data d ++ [row]), Ok tt)).
  { unfold setCmiData, rethrow, stmt_insertCmiData. rewrite Hs. reflexivity. }
  split; [exact Hrun|]. rewrite Hrun. cbn [fst].
  exists row. split; [|reflexivity].
  unfold stmt_getCmiData. rewrite hd_error_limit_1.
  cbn [cmi_data with_cmi_data]. rewrite filter_app.
  cbn [filter cmi_session element row]. rewrite !string_eqb_refl. cbn [andb].
  fold (records_of d sid el).
  destruct (latest_on_top (records_of d sid el) row) as [rest Hrest].
  - intros r Hr. cbn [timestamp row]. apply Hpast. exact Hr.
  - rewrite Hrest. reflexivity.
Qed.

(** A value set through the endpoint is the value got through it:
    for an existing session and a non-empty element name, once the
    clock is past the earlier records of the element, [setValue]
    answers success and a following [getValue] answers the string
    that was set.  For a session that does not exist [setValue]
    answers 500 and [getValue] answers 200 with the value [null]. *)
Theorem value_set_is_value_got :
  forall body d sid el v,
    field body "sessionId" = Ok (str sid) -> sid <> "" ->
    field body "value" = Ok (str v) ->
    el <> "" ->
    (forall s,
        stmt_getSession d sid = Some s ->
        (forall r, In r (records_of d sid el) -> timestamp r < now d) ->
        let d' := fst (ScormController.setValue el body d) in
        snd (ScormController.setValue el body d)
        = Ok (Json (obj [("success", boolean true); ("element", str el);
                         ("value", str v)]))
        /\ ScormController.getValue el (str sid) d'
           = (d', Ok (Json (obj [("success", boolean true); ("element", str el);
                                 ("value", str v)]))))
    /\ (stmt_getSession d sid = None ->
        (forall r, In r (cmi_data d) -> cmi_session r <> sid) ->
        ScormController.setValue el body d
        = (d, Ok (Failed (Wrapped "Failed to set CMI data"
                            (Error "FOREIGN KEY constraint failed")) None))
        /\ ScormController.getValue el (str sid) d
           = (d, Ok (Json (obj [("success", boolean true); ("element", str el);
                                ("value", null)])))).
Proof.
  intros body d sid el v H Hne Hv Hel.
  assert (Htel : truthy (str el) = true).
  { cbn. destruct el; [contradiction|reflexivity]. }
  assert (Hset : ScormController.setValue el body d
                 = (fst (setCmiData sid el v d),
                    match snd (setCmiData sid el v d) with
                    | Ok _ => Ok (Json (obj [("success", boolean true);
                                             ("element", str el); ("value", str v)]))
                    | Throw e => Ok (Failed e None)
                    | OutOfModel => OutOfModel
                    end)).
  { unfold ScormController.setValue, caught.
    unfold and_then at 1, lift. rewrite H.
    unfold and_then at 1. rewrite Hv.
    unfold and_then at 1. rewrite (session_id_string _ Hne).
    unfold and_then at 1. cbn [ScormController.bind_cmi_value str].
    unfold and_then at 1.
    destruct (setCmiData sid el v d) as [d1 [u|e|]]; reflexivity. }
  assert (Hget : forall d0,
            ScormController.getValue el (str sid) d0
            = (d0, Ok (Json (obj [("success", boolean true); ("element", str el);
                                  ("value", match stmt_getCmiData d0 sid el with
                                            | Some row => str (value_ row)
                                            | None => null
                                            end)])))).
  { intros d0. unfold ScormController.getValue, caught.
    unfold and_then at 1, lift. rewrite (session_id_string _ Hne).
    unfold and_then at 1, getCmiData. rewrite Htel. reflexivity. }
  split.
  - intros s Hs Hpast d'.
    destruct (own_write_is_read d sid s el v Hs Hpast) as [Hrun [row [Hrow Hval]]].
    subst d'. rewrite Hset. cbn [fst snd].
    split; [rewrite Hrun; reflexivity|].
    rewrite Hget, Hrow, Hval. reflexivity.
  - intros Hs Hnone. split.
    + rewrite Hset. unfold setCmiData, rethrow, stmt_insertCmiData. rewrite Hs.
      reflexivity.
    + rewrite Hget.
      assert (Hrow : stmt_getCmiData d sid el = None).
      { unfold stmt_getCmiData. rewrite TreeFacts.filter_none; [reflexivity|].
        intros r Hr. destruct (String.eqb (cmi_session r) sid) eqn:E; [|reflexivity].
        apply String.eqb_eq in E. exfalso. apply (Hnone r Hr E). }
      rewrite Hrow. reflexivity.
Qed.

(** The session endpoint and [loadInitialData] are the same
    reading of a session: what one loads the other sends, a session
    that does not exist is [null] for one and a 404 for the other,
    and an exception of one is the 500 of the other. *)
Theorem session_endpoint_is_loadInitialData :
  forall sid d,
    ScormController.getSession sid d
    = (fst (loadInitialData sid d),
       match snd (loadInitialData sid d) with
       | Ok (Some loaded) => Ok (Json loaded)
       | Ok None => Ok (Refused 404 "Session not found")
       | Throw e => Ok (Failed e None)
       | OutOfModel => OutOfModel
       end).
Proof.
  intros sid d.
  unfold ScormController.getSession, loadInitialData, caught, and_then,
    getSession, query, ret.
  destruct (stmt_getSession d sid) as [row|]; [|reflexivity].
  destruct (getCmiData sid None d) as [d1 [cmi|e|]]; try reflexivity.
  destruct (getInteractions sid d1) as [d2 [l|e|]]; reflexivity.
Qed.

(** The initialize endpoint: for a package that does not exist it
    answers 404 and opens no session; for one that exists it opens
    a session under the generated id and answers the result of the
    service, and the [initialData] it loads when [resume] is asked
    for are those of the session it has just opened, an empty tree
    and no interactions. *)
Theorem initialize_handler_answers :
  forall s fresh pid body userId resume,
    field body "userId" = Ok userId ->
    field body "resume" = Ok resume ->
    (stmt_getPackage s pid = None ->
     ScormController.initializeSession fresh pid body s
     = (s, Ok (Refused 404 "Package not found")))
    /\ (forall p m uid,
           consistent s ->
           PackageHandler.getPackage pid s = Ok (Some (p, m)) ->
           stmt_getSession (tables s) fresh = None ->
           bind_text (default_null userId) = Ok uid ->
           let row := new_session (tables s) fresh pid uid in
           ScormController.initializeSession fresh pid body s
           = (with_tables s (with_sessions (tables s) (sessions (tables s) ++ [row])),
              Ok (Json {| ScormController.result_ :=
                            obj [("success", boolean true); ("sessionId", str fresh);
                                 ("packageId", str pid);
                                 ("userId", default_null userId)];
                          ScormController.initialData :=
                            if truthy resume
                            then Some {| initial_session := row;
                                         initial_cmi := empty_object;
                                         initial_interactions := [] |}
                            else None |}))).
Proof.
  intros s fresh pid body userId resume Hu Hr. split.
  - intros Hp. unfold ScormController.initializeSession, caught.
    rewrite Hu. unfold PackageHandler.getPackage. rewrite Hp. reflexivity.
  - intros p m uid Hc Hp Hs Hb row. subst row.
    assert (Hpk : stmt_getPackage s pid = Some p).
    { unfold PackageHandler.getPackage in Hp.
      destruct (stmt_getPackage s pid) as [q|]; [|discriminate].
      destruct (match metadata q with
                | Some text => JSON_parse text
                | None => Some null
                end); inversion Hp. reflexivity. }
    destruct (opened_session s fresh pid userId uid p Hc Hpk Hs Hb)
      as [Hrun [_ [Hload _]]].
    unfold ScormController.initializeSession, caught.
    rewrite Hu, Hp, Hrun, Hr.
    destruct (truthy resume); [|reflexivity].
    rewrite Hload. reflexivity.
Qed.

(** The upload endpoint refuses with a 400, and queues nothing, a
    request in which the session id, the package id or the list of
    actions is missing or falsy; an empty list is not: it is
    accepted, queues nothing and still runs a pass over what is
    pending. *)
Theorem upload_handler_answers :
  forall body st sessionId_ packageId_ actions_,
    field body "sessionId" = Ok sessionId_ ->
    field body "packageId" = Ok packageId_ ->
    field body "actions" = Ok actions_ ->
    (truthy sessionId_ && truthy packageId_ && truthy actions_ = false ->
     SyncController.uploadOfflineData body st
     = (st, Ok (Refused 400
                  "Missing required fields: sessionId, packageId, actions")))
    /\ (forall sid pid,
           sessionId_ = str sid -> sid <> "" ->
           packageId_ = str pid -> pid <> "" ->
           actions_ = empty_array ->
           SyncController.uploadOfflineData body st
           = (fst (processSyncQueue st),
              Ok (Json (obj [("success", boolean true);
                             ("message",
                              str "Offline session data queued for synchronization")])))).
Proof.
  intros body st sessionId_ packageId_ actions_ H1 H2 H3. split.
  - intros Hf. unfold SyncController.uploadOfflineData, caught.
    rewrite H1, H2, H3.
    destruct (truthy sessionId_), (truthy packageId_), (truthy actions_);
      try discriminate Hf; reflexivity.
  - intros sid pid -> Hs -> Hp ->.
    unfold SyncController.uploadOfflineData, caught. rewrite H1, H2, H3.
    assert (T1 : truthy (str sid) = true) by (cbn; destruct sid; [contradiction|reflexivity]).
    assert (T2 : truthy (str pid) = true) by (cbn; destruct pid; [contradiction|reflexivity]).
    rewrite T1, T2. cbn [truthy empty_array negb orb].
    cbn [SyncController.batch_of str empty_array array_items array_length fold_right
         Z.to_nat seq map SyncController.actions_of bind].
    unfold uploadOfflineSession, run. cbn [create_items sessionId packageId actions].
    unfold ret.
    replace (with_database st (database st)) with st by (destruct st; reflexivity).
    destruct (processSyncQueue st) as [st2 r]. reflexivity.
Qed.

End WithRuntime.

Lemma commit_handler_answers_witness :
  ScormController.commit (RT := sample_runtime) undefined sample_db
  = (sample_db, Ok (Failed TypeError (Some 101)))
  /\ ScormController.commit (RT := sample_runtime) (obj [("data", broken_commit)])
       sample_db
     = (sample_db, Ok (Refused 400 "Session ID required"))
  /\ ScormController.commit (RT := sample_runtime) (obj [("sessionId", str "s9")])
       sample_db
     = (sample_db, Ok (Failed (Wrapped "Failed to commit session"
                                 (Error "Session not found")) (Some 101)))
  /\ ScormController.commit (RT := sample_runtime) (obj [("sessionId", str "s1")])
       sample_db
     = (fst (commitSession (RT := sample_runtime) "s1" empty_object sample_db),
        Ok (Json (obj [("success", boolean true); ("sessionId", str "s1");
                       ("committed", boolean true)]))).
Proof.
  split; [|split; [|split]].
  - apply (proj1 (proj2 (commit_handler_answers (RT := sample_runtime)
                           undefined sample_db))).
    reflexivity.
  - apply (proj1 (proj2 (proj2 (commit_handler_answers (RT := sample_runtime)
                                  (obj [("data", broken_commit)]) sample_db)))
             undefined); reflexivity.
  - apply (proj1 (proj2 (proj2 (proj2 (commit_handler_answers (RT := sample_runtime)
                                         (obj [("sessionId", str "s9")]) sample_db))))
             "s9"); [reflexivity|discriminate|reflexivity].
  - apply (proj2 (proj2 (proj2 (proj2 (commit_handler_answers (RT := sample_runtime)
                                         (obj [("sessionId", str "s1")]) sample_db))))
             "s1" undefined); [reflexivity|discriminate|reflexivity|reflexivity].
Defined.

Lemma terminate_handler_answers_witness :
  ScormController.terminateSession (RT := sample_runtime)
    (obj [("sessionId", str "s9")]) sample_db
  = (sample_db, Ok (Json (obj [("success", boolean true); ("sessionId", str "s9");
                               ("terminated", boolean true)])))
  /\ ScormController.terminateSession (RT := sample_runtime)
       (obj [("sessionId", str "s9"); ("data", broken_commit)]) sample_db
     = (sample_db, Ok (Failed (Wrapped "Failed to terminate session"
                                 (Wrapped "Failed to commit session"
                                    (Error "Session not found"))) None)).
Proof.
  split.
  - apply (proj1 (terminate_handler_answers (RT := sample_runtime)
                    (obj [("sessionId", str "s9")]) sample_db "s9" undefined
                    eq_refl ltac:(discriminate) eq_refl)).
    reflexivity.
  - apply (proj2 (terminate_handler_answers (RT := sample_runtime)
                    (obj [("sessionId", str "s9"); ("data", broken_commit)])
                    sample_db "s9" broken_commit eq_refl ltac:(discriminate) eq_refl)
             1); [reflexivity|reflexivity|lia|reflexivity].
Defined.

Lemma value_set_is_value_got_witness :
  let body := obj [("sessionId", str "s1"); ("value", str "page-3")] in
  let d' := fst (ScormController.setValue "cmi.location" body same_second) in
  ScormController.getValue "cmi.location" (str "s1") d'
  = (d', Ok (Json (obj [("success", boolean true); ("element", str "cmi.location");
                        ("value", str "page-3")])))
  /\ ScormController.getValue "cmi.location" (str "s9") two_writes
     = (two_writes,
        Ok (Json (obj [("success", boolean true); ("element", str "cmi.location");
                       ("value", null)]))).
Proof.
  intros body d'. split.
  - refine (proj2 (proj1 (value_set_is_value_got body same_second "s1" "cmi.location"
                            "page-3" eq_refl _ eq_refl _)
                         sample_session eq_refl _)); try discriminate.
    intros r [<-|[<-|[]]]; reflexivity.
  - refine (proj2 (proj2 (value_set_is_value_got
                            (obj [("sessionId", str "s9"); ("value", str "x")])
                            two_writes "s9" "cmi.location" "x" eq_refl _ eq_refl _)
                         eq_refl _)); try discriminate.
    intros r [<-|[<-|[<-|[]]]]; discriminate.
Defined.

Lemma initialize_handler_answers_witness :
  ScormController.initializeSession (RT := sample_runtime) "s2" "p9"
    (obj [("resume", boolean true)]) sample_store
  = (sample_store, Ok (Refused 404 "Package not found"))
  /\ snd (ScormController.initializeSession (RT := sample_runtime) "s2" "p1"
            (obj [("userId", str "u1"); ("resume", boolean true)]) sample_store)
     = Ok (Json {| ScormController.result_ :=
                     obj [("success", boolean true); ("sessionId", str "s2");
                          ("packageId", str "p1"); ("userId", str "u1")];
                   ScormController.initialData :=
                     Some {| initial_session :=
                               new_session sample_db "s2" "p1" (Some "u1");
                             initial_cmi := empty_object;
                             initial_interactions := [] |} |}).
Proof.
  split.
  - apply (proj1 (initialize_handler_answers (RT := sample_runtime) sample_store
                    "s2" "p9" (obj [("resume", boolean true)]) undefined (boolean true)
                    eq_refl eq_refl)).
    reflexivity.
  - rewrite (proj2 (initialize_handler_answers (RT := sample_runtime) sample_store
                      "s2" "p1" (obj [("userId", str "u1"); ("resume", boolean true)])
                      (str "u1") (boolean true) eq_refl eq_refl)
               sample_package null (Some "u1")
               sample_store_consistent eq_refl eq_refl eq_refl).
    reflexivity.
Defined.

Lemma upload_handler_answers_witness :
  SyncController.uploadOfflineData (RT := sample_runtime)
    (obj [("sessionId", str "s1"); ("packageId", str "p1")]) stuck
  = (stuck, Ok (Refused 400 "Missing required fields: sessionId, packageId, actions"))
  /\ SyncController.uploadOfflineData (RT := sample_runtime)
       (obj [("sessionId", str "s1"); ("packageId", str "p1");
             ("actions", empty_array)]) stuck
     = (fst (processSyncQueue (RT := sample_runtime) stuck),
        Ok (Json (obj [("success", boolean true);
                       ("message",
                        str "Offline session data queued for synchronization")]))).
Proof.
  split.
  - apply (proj1 (upload_handler_answers (RT := sample_runtime)
                    (obj [("sessionId", str "s1"); ("packageId", str "p1")]) stuck
                    (str "s1") (str "p1") undefined eq_refl eq_refl eq_refl)).
    reflexivity.
  - apply (proj2 (upload_handler_answers (RT := sample_runtime)
                    (obj [("sessionId", str "s1"); ("packageId", str "p1");
                          ("actions", empty_array)]) stuck
                    (str "s1") (str "p1") empty_array eq_refl eq_refl eq_refl)
             "s1" "p1"); try reflexivity; discriminate.
Defined.

End HandlerFacts.

(* ================================================================== *)
(** * Commits replayed over one another                                 *)
(* ================================================================== *)

Module ReplayFacts.
Import JS Db Call ScormApi OfflineSync Props Examples JSFacts SessionFacts StoreFacts.
Import CodecFacts QueueFacts TreeFacts Notions HistoryNotions HistoryFacts PassFacts ShapeNotions.
Import Store Sessions.
Import Samples.

Lemma get_own_middle k c A B :
  lookup k A = None -> get_own k (A ++ (k, c) :: B) = c.
Proof.
  intros H. unfold get_own. induction A as [|[k2 v2] A IH]; cbn [app lookup].
  - rewrite string_eqb_refl. reflexivity.
  - cbn [lookup] in H. destruct (String.eqb k k2); [discriminate|]. apply IH. exact H.
Qed.

Lemma define_middle k c c' A B :
  lookup k A = None ->
  define_prop k c' (A ++ (k, c) :: B) = A ++ (k, c') :: B.
Proof.
  intros H. unfold define_prop, has_key.
  assert (Hl : lookup k (A ++ (k, c) :: B) = Some c).
  { induction A as [|[k2 v2] A IH]; cbn [app lookup].
    - rewrite string_eqb_refl. reflexivity.
    - cbn [lookup] in H. destruct (String.eqb k k2); [discriminate|]. apply IH. exact H. }
  rewrite Hl. clear Hl. induction A as [|[k2 v2] A IH]; cbn [app replace_prop].
  - rewrite string_eqb_refl. reflexivity.
  - cbn [lookup] in H. destruct (String.eqb k k2); [discriminate|].
    rewrite (IH H). reflexivity.
Qed.

(** Records that go through a child in place change the child and
    nothing else, wherever it sits in its container. *)
Lemma replay_through kd k A B recs : forall kc cps,
  step_key kd k ->
  lookup k A = None ->
  (forall r, In r recs -> fst r <> []) ->
  replay (map (under k) recs) (Ok (VObj kd (A ++ (k, VObj kc cps) :: B)))
  = bind (replay recs (Ok (VObj kc cps)))
         (fun c => Ok (VObj kd (A ++ (k, c) :: B))).
Proof.
  induction recs as [|[ks v] recs IH]; intros kc cps Hk HA Hne.
  - reflexivity.
  - assert (Hks : ks <> []) by (apply (Hne (ks, v)); left; reflexivity).
    destruct ks as [|next rest]; [contradiction|].
    cbn [map replay fold_left]. unfold replay_step at 2 4.
    cbn [bind fst snd under].
    rewrite (set_at_descend kd _ k next rest _ Hk).
    rewrite (get_own_middle k _ A B HA). cbn [truthy negb].
    destruct (set_at (VObj kc cps) (next :: rest) (str v)) as [c|e|] eqn:Hset;
      cbn [bind].
    + destruct (set_at_container _ _ _ _ _ Hset) as [cps' ->].
      rewrite (define_middle k _ _ A B HA).
      apply (IH kc cps' Hk HA). intros r Hr. apply Hne. right. exact Hr.
    + fold (replay (map (under k) recs) (Throw e)). fold (replay recs (Throw e)).
      rewrite !replay_throw. reflexivity.
    + fold (replay (map (under k) recs) (@OutOfModel value)).
      fold (replay recs (@OutOfModel value)).
      rewrite !replay_out. reflexivity.
Qed.

Lemma same_shape_container kd props2 x1 :
  same_shape x1 (VObj kd props2) = true ->
  exists props1, x1 = VObj kd props1 /\ same_members same_shape props1 props2 = true.
Proof.
  destruct x1 as [p|[|] props1]; destruct kd; cbn [same_shape]; try discriminate;
    intros H; eauto.
Qed.

Lemma same_shape_leaf p2 x1 :
  same_shape x1 (VPrim p2) = true -> exists p1, x1 = VPrim p1.
Proof.
  destruct x1 as [p|[|] props1]; cbn [same_shape]; try discriminate; eauto.
Qed.

(** Replaying the records of a well-formed container over a tree of
    the same shape leaves the container, leaves coerced: every leaf
    is overwritten and nothing is created. *)
Lemma replay_over n : forall kd props1 props2 pos,
  (size (VObj kd props2) < n)%nat ->
  well_formed pos (VObj kd props2) = true ->
  same_members same_shape props1 props2 = true ->
  replay (leaves (VObj kd props2)) (Ok (VObj kd (cmap props1)))
  = Ok (VObj kd (cmap props2)).
Proof.
  induction n as [|n IH]; intros kd props1 props2 pos Hn Hwf Hsame; [lia|].
  assert (Hall : forall todo2 done2 todo1,
             props2 = done2 ++ todo2 ->
             same_members same_shape todo1 todo2 = true ->
             replay (flat_map (fun kv => map (under (fst kv)) (leaves (snd kv))) todo2)
                    (Ok (VObj kd (cmap done2 ++ cmap todo1)))
             = Ok (VObj kd (cmap (done2 ++ todo2)))).
  { induction todo2 as [|[k x2] todo2 IHt]; intros done2 todo1 Heq Hs.
    - destruct todo1 as [|[k1 x1] todo1]; [|discriminate Hs].
      cbn [flat_map replay fold_left cmap map]. rewrite !List.app_nil_r. reflexivity.
    - destruct todo1 as [|[k1 x1] todo1]; [discriminate Hs|].
      cbn [same_members] in Hs. apply andb_true_iff in Hs. destruct Hs as [Hs Hrest].
      apply andb_true_iff in Hs. destruct Hs as [Hk Hx].
      apply String.eqb_eq in Hk. subst k1. subst props2.
      destruct (member_env kd pos done2 k x2 todo2 Hwf)
        as [Hkey [_ [Hnone [_ [Hwx _]]]]].
      cbn [flat_map fst snd]. rewrite replay_app.
      assert (Hstep : replay (map (under k) (leaves x2))
                             (Ok (VObj kd (cmap done2 ++ cmap ((k, x1) :: todo1))))
                      = Ok (VObj kd (cmap done2 ++ (k, coerce x2) :: cmap todo1))).
      { change (cmap ((k, x1) :: todo1)) with ((k, coerce x1) :: cmap todo1).
        destruct x2 as [p2|kc cps2].
        - destruct (same_shape_leaf _ _ Hx) as [p1 ->].
          cbn [leaves map under fst snd replay fold_left]. unfold replay_step.
          cbn [bind fst snd]. rewrite (set_at_leaf kd _ k _ Hkey).
          rewrite (define_middle k _ _ _ _ Hnone). reflexivity.
        - destruct (same_shape_container _ _ _ Hx) as [cps1 [-> Hmem]].
          rewrite coerce_container.
          rewrite (replay_through kd k _ _ _ kc (cmap cps1) Hkey Hnone).
          + rewrite (IH kc cps1 cps2 (child_pos kd)); [reflexivity| |exact Hwx|exact Hmem].
            assert (Hin : In (k, VObj kc cps2) (done2 ++ (k, VObj kc cps2) :: todo2)).
            { apply in_or_app. right. left. reflexivity. }
            pose proof (size_member _ _ kd _ Hin). lia.
          + intros r Hr. apply (leaves_keys_nonempty kc cps2). exact Hr. }
      rewrite Hstep.
      replace (cmap done2 ++ (k, coerce x2) :: cmap todo1)
        with (cmap (done2 ++ [(k, x2)]) ++ cmap todo1)
        by (unfold cmap; rewrite map_app, <- List.app_assoc; reflexivity).
      rewrite (IHt (done2 ++ [(k, x2)]) todo1).
      + rewrite <- List.app_assoc. reflexivity.
      + rewrite <- List.app_assoc. reflexivity.
      + exact Hrest. }
  cbn [leaves]. apply (Hall props2 [] props1); [reflexivity|exact Hsame].
Qed.

(** Two batches of records, the second stamped later, are read in
    the order written. *)
Lemma two_batches_in_order (rows1 rows2 : list cmi_row) t1 t2 :
  (forall r, In r rows1 -> timestamp r = t1) ->
  (forall r, In r rows2 -> timestamp r = t2) ->
  t1 <= t2 ->
  order_by (fun a b => timestamp a <=? timestamp b) (rows1 ++ rows2) = rows1 ++ rows2.
Proof.
  intros H1 H2 Hle. rewrite order_by_app.
  - rewrite (oldest_first_same_time rows1 t1 H1), (oldest_first_same_time rows2 t2 H2).
    reflexivity.
  - intros a b Ha Hb. rewrite (H1 a Ha), (H2 b Hb). apply Z.leb_le. exact Hle.
Qed.

(** What is read back after two commits of trees of one shape. *)
Lemma later_tree_is_read d sid s props1 props2 t :
  well_formed Root (VObj Plain props1) = true ->
  well_formed Root (VObj Plain props2) = true ->
  same_shape (VObj Plain props1) (VObj Plain props2) = true ->
  stmt_getSession d sid = Some s ->
  (forall r, In r (cmi_data d) -> cmi_session r <> sid) ->
  now d <= t ->
  let d1 := fst (storeCmiData sid (VObj Plain props1) "cmi" d) in
  let d2 := fst (storeCmiData sid (VObj Plain props2) "cmi" (at_clock t d1)) in
  snd (storeCmiData sid (VObj Plain props2) "cmi" (at_clock t d1)) = Ok tt
  /\ getCmiData sid None d2 = (d2, Ok (obj [("cmi", coerce (VObj Plain props2))]))
  /\ List.length (stmt_getAllCmiData d2 sid)
     = (List.length (leaves (VObj Plain props1))
        + List.length (leaves (VObj Plain props2)))%nat.
Proof.
  intros Hwf1 Hwf2 Hshape Hs Hfresh Ht d1 d2.
  set (T1 := VObj Plain props1) in *. set (T2 := VObj Plain props2) in *.
  set (recs1 := map (named "cmi") (leaves T1)).
  set (recs2 := map (named "cmi") (leaves T2)).
  assert (Hd1 : d1 = write_all sid recs1 d).
  { unfold d1, T1. rewrite (store_object sid (S (size (VObj Plain props1))) props1 Root
                              "cmi" d s (Nat.lt_succ_diag_r _) Hwf1 Hs). reflexivity. }
  assert (Hs1 : stmt_getSession (at_clock t d1) sid = Some s).
  { rewrite Hd1. unfold stmt_getSession, at_clock. cbn [sessions].
    fold (stmt_getSession (write_all sid recs1 d) sid).
    rewrite write_all_session. exact Hs. }
  assert (Hrun2 : storeCmiData sid T2 "cmi" (at_clock t d1)
                  = (write_all sid recs2 (at_clock t d1), Ok tt)).
  { unfold T2. apply (store_object sid (S (size (VObj Plain props2))) props2 Root
                        "cmi" _ s (Nat.lt_succ_diag_r _) Hwf2 Hs1). }
  assert (Hd2 : d2 = write_all sid recs2 (at_clock t d1)).
  { unfold d2. rewrite Hrun2. reflexivity. }
  destruct (write_all_rows sid recs1 d s Hs) as [rows1 [Hrows1 [Hmap1 Hall1]]].
  destruct (write_all_rows sid recs2 (at_clock t d1) s Hs1)
    as [rows2 [Hrows2 [Hmap2 Hall2]]].
  cbn [cmi_data at_clock now] in Hrows2, Hall2.
  rewrite Hd1 in Hrows2 at 2. rewrite Hrows1 in Hrows2.
  assert (Hsel : stmt_getAllCmiData d2 sid = rows1 ++ rows2).
  { unfold stmt_getAllCmiData. rewrite Hd2, Hrows2, !filter_app.
    rewrite (filter_none _ (cmi_data d)), (filter_all _ rows1), (filter_all _ rows2).
    - cbn [app]. apply (two_batches_in_order rows1 rows2 (now d) t).
      + intros r Hr. apply Hall1. exact Hr.
      + intros r Hr. apply Hall2. exact Hr.
      + exact Ht.
    - intros r Hr. apply String.eqb_eq. apply Hall2. exact Hr.
    - intros r Hr. apply String.eqb_eq. apply Hall1. exact Hr.
    - intros r Hr. apply String.eqb_neq. apply Hfresh. exact Hr. }
  assert (Hsplit : forall T rows,
            well_formed Root T = true ->
            map (fun r => (element r, value_ r)) rows = map (named "cmi") (leaves T) ->
            map (fun item => (split dot (element item), value_ item)) rows
            = map (under "cmi") (leaves T)).
  { intros T rows Hwf Hmap.
    replace (map (fun item => (split dot (element item), value_ item)) rows)
      with (map (fun r => (split dot (fst r), snd r))
                (map (fun r => (element r, value_ r)) rows))
      by (rewrite map_map; reflexivity).
    rewrite Hmap, map_map. apply map_ext_in.
    intros r Hr. unfold under, named. cbn [fst snd]. f_equal.
    rewrite (split_path "cmi" (fst r)).
    - reflexivity.
    - apply (leaves_segments (S (size T)) _ Root r (Nat.lt_succ_diag_r _) Hwf Hr).
    - destruct T as [p|kd props]; [discriminate Hwf|].
      apply (leaves_keys_nonempty kd props). exact Hr. }
  split; [rewrite Hrun2; reflexivity|]. split.
  - unfold getCmiData, build_cmi. f_equal. rewrite Hsel.
    rewrite (fold_left_through replay_step
               (fun item => (split dot (element item), value_ item)) (rows1 ++ rows2)).
    fold (replay (map (fun item => (split dot (element item), value_ item))
                      (rows1 ++ rows2)) (Ok empty_object)).
    rewrite map_app, replay_app.
    rewrite (Hsplit T1 rows1 Hwf1 Hmap1), (Hsplit T2 rows2 Hwf2 Hmap2).
    assert (Hfirst : replay (map (under "cmi") (leaves T1)) (Ok empty_object)
                     = Ok (obj [("cmi", coerce T1)])).
    { replace (map (under "cmi") (leaves T1))
        with (map (prefixed ["cmi"]) (leaves T1)) by reflexivity.
      apply (rebuild_prefixed ["cmi"] props1 Root); [reflexivity|exact Hwf1]. }
    rewrite Hfirst. unfold T1, T2. rewrite !coerce_container. unfold obj.
    change [("cmi", VObj Plain (cmap props1))]
      with ([] ++ [("cmi", VObj Plain (cmap props1))]).
    rewrite (replay_lifted Plain "cmi" [] (leaves (VObj Plain props2)) Plain (cmap props1)).
    + rewrite (replay_over (S (size (VObj Plain props2))) Plain props1 props2 Root
                 (Nat.lt_succ_diag_r _) Hwf2 Hshape).
      reflexivity.
    + split; reflexivity.
    + reflexivity.
    + intros r Hr. apply (leaves_keys_nonempty Plain props2). exact Hr.
  - rewrite Hsel, length_app.
    rewrite <- (length_map (fun r => (element r, value_ r)) rows1), Hmap1.
    rewrite <- (length_map (fun r => (element r, value_ r)) rows2), Hmap2.
    unfold recs1, recs2. rewrite !length_map. reflexivity.
Qed.

(** A later commit of a tree of the same shape replaces the values
    and nothing else: read back, the tree is the later one, leaves
    coerced, although the records of both commits are kept; in
    particular, committing the same tree again changes nothing of
    what is read. *)
Theorem later_commit_of_the_same_shape_wins :
  forall d sid s T1 T2 t,
    well_formed Root T1 = true ->
    well_formed Root T2 = true ->
    same_shape T1 T2 = true ->
    stmt_getSession d sid = Some s ->
    (forall r, In r (cmi_data d) -> cmi_session r <> sid) ->
    now d < t ->
    let d1 := fst (storeCmiData sid T1 "cmi" d) in
    let d2 := fst (storeCmiData sid T2 "cmi" (at_clock t d1)) in
    snd (storeCmiData sid T2 "cmi" (at_clock t d1)) = Ok tt
    /\ getCmiData sid None d2 = (d2, Ok (obj [("cmi", coerce T2)]))
    /\ List.length (stmt_getAllCmiData d2 sid)
       = (List.length (leaves T1) + List.length (leaves T2))%nat.
Proof.
  intros d sid s T1 T2 t Hwf1 Hwf2 Hshape Hs Hfresh Ht.
  destruct T1 as [p1|[|] props1]; try discriminate Hwf1.
  destruct T2 as [p2|[|] props2]; try discriminate Hwf2.
  apply (later_tree_is_read d sid s props1 props2 t); try assumption. lia.
Qed.

(** ** A commit and the resume after it *)

Section WithRuntime.
Context {RT : Runtime}.

(** What a commit stored is what a resume loads: for a session
    without earlier records or interactions, a commit of
    [{cmi: T}], [T] a well-formed tree that lists no interactions
    and whose summary fields are kept by their columns, returns, and
    [loadInitialData] then gives the session row as the commit
    rewrote it, the tree [{cmi: T}] with its leaves coerced, and no
    interactions. *)
Theorem resume_loads_the_committed_tree :
  forall d sid s T,
    stmt_getSession d sid = Some s ->
    (forall r, In r (cmi_data d) -> cmi_session r <> sid) ->
    (forall r, In r (interactions d) -> int_session r <> sid) ->
    well_formed Root T = true ->
    summary_plain (extract_summary T) = true ->
    truthy (opt_field T "interactions") = false ->
    let f := extract_summary T in
    let d' := fst (commitSession sid (obj [("cmi", T)]) d) in
    exists b,
      determineCompletion (obj [("cmi", T)]) = Ok b
      /\ snd (commitSession sid (obj [("cmi", T)]) d)
         = Ok (obj [("success", boolean true); ("sessionId", str sid);
                    ("committed", boolean true)])
      /\ loadInitialData sid d'
         = (d', Ok (Some {| initial_session :=
                              update_row (now d) (SNum (if b then 1 else 0))
                                (stored (successStatus f)) (stored (scoreRaw f))
                                (stored (sessionTime f)) (stored (totalTime f))
                                (stored (suspendData f)) s;
                            initial_cmi := obj [("cmi", coerce T)];
                            initial_interactions := [] |})).
Proof.
  intros d sid s T Hs Hfresh Hnone Hwf Hplain Hint f d'.
  destruct T as [p|[|] props]; try discriminate Hwf.
  set (T := VObj Plain props) in *.
  assert (Hc : field (obj [("cmi", T)]) "cmi" = Ok T) by reflexivity.
  destruct (determineCompletion_defined _ _ Hc) as [b Hb].
  exists b. split; [exact Hb|].
  set (d1 := stmt_updateSession d (SNum (if b then 1 else 0))
               (stored (successStatus f)) (stored (scoreRaw f))
               (stored (sessionTime f)) (stored (totalTime f))
               (stored (suspendData f)) sid).
  set (s1 := update_row (now d) (SNum (if b then 1 else 0))
               (stored (successStatus f)) (stored (scoreRaw f))
               (stored (sessionTime f)) (stored (totalTime f))
               (stored (suspendData f)) s).
  assert (Hs1 : stmt_getSession d1 sid = Some s1).
  { apply getSession_after_update. exact Hs. }
  assert (Hfresh1 : forall r, In r (cmi_data d1) -> cmi_session r <> sid).
  { exact Hfresh. }
  destruct (stored_then_read d1 sid s1 props "cmi" Hwf Hs1 Hfresh1 eq_refl)
    as [Hstore Hread].
  fold T in Hstore, Hread.
  set (d2 := fst (storeCmiData sid T "cmi" d1)) in *.
  assert (Hstep : storeCmiData sid T "cmi" d1 = (d2, Ok tt)).
  { unfold d2. rewrite <- Hstore. destruct (storeCmiData sid T "cmi" d1); reflexivity. }
  assert (Hrun : commitSession sid (obj [("cmi", T)]) d
                 = (d2, Ok (obj [("success", boolean true); ("sessionId", str sid);
                                 ("committed", boolean true)]))).
  { unfold commitSession, rethrow, and_then at 1, getSession, query.
    rewrite Hs. unfold and_then at 1, lift. rewrite Hb.
    unfold and_then at 1. rewrite Hc.
    unfold and_then at 1. fold f. rewrite (plain_update b f sid d Hplain). fold d1.
    unfold and_then at 1.
    replace (or_else T empty_object) with T by reflexivity.
    rewrite Hstep. unfold and_then at 1. rewrite Hint. reflexivity. }
  subst d'. rewrite Hrun. cbn [fst snd]. split; [reflexivity|].
  assert (Hd2 : d2 = write_all sid (map (named "cmi") (leaves T)) d1).
  { unfold d2, T. rewrite (store_object sid (S (size (VObj Plain props))) props Root
                             "cmi" d1 s1 (Nat.lt_succ_diag_r _) Hwf Hs1). reflexivity. }
  assert (Hs2 : stmt_getSession d2 sid = Some s1).
  { rewrite Hd2, write_all_session. exact Hs1. }
  assert (Hi2 : stmt_getInteractions d2 sid = []).
  { unfold stmt_getInteractions. rewrite Hd2, write_all_interactions.
    cbn [d1 stmt_updateSession interactions with_sessions].
    rewrite filter_none; [reflexivity|].
    intros r Hr. apply String.eqb_neq. apply Hnone. exact Hr. }
  unfold loadInitialData, and_then at 1, getSession, query. rewrite Hs2.
  unfold and_then at 1. rewrite Hread.
  unfold and_then at 1, getInteractions. rewrite Hi2. reflexivity.
Qed.

End WithRuntime.

Lemma resume_loads_the_committed_tree_witness :
  let T := obj [("completion_status", str "completed");
                ("score", obj [("raw", num 80)]);
                ("suspend_data", str "page-3")] in
  let d' := fst (commitSession (RT := sample_runtime) "s1" (obj [("cmi", T)])
                   sample_db) in
  exists row,
    loadInitialData (RT := sample_runtime) "s1" d'
    = (d', Ok (Some {| initial_session := row;
                       initial_cmi :=
                         obj [("cmi", obj [("completion_status", str "completed");
                                           ("score", obj [("raw", str "80")]);
                                           ("suspend_data", str "page-3")])];
                       initial_interactions := [] |}))
    /\ completed row = SNum 1
    /\ score_raw row = SNum 80
    /\ suspend_data row = SText "page-3".
Proof.
  intros T d'.
  destruct (resume_loads_the_committed_tree (RT := sample_runtime)
              sample_db "s1" sample_session T eq_refl)
    as [b [Hb [_ Hload]]]; try reflexivity.
  - intros r [].
  - intros r [].
  - eexists. split; [exact Hload|].
    cbn in Hb. inversion Hb. subst b. repeat split.
Defined.

Lemma later_commit_of_the_same_shape_wins_witness :
  let T1 := obj [("location", str "page-1"); ("score", obj [("raw", num 40)])] in
  let T2 := obj [("location", str "page-2"); ("score", obj [("raw", num 80)])] in
  let d1 := fst (storeCmiData "s1" T1 "cmi" sample_db) in
  let d2 := fst (storeCmiData "s1" T2 "cmi" (at_clock 160 d1)) in
  getCmiData "s1" None d2
  = (d2, Ok (obj [("cmi", obj [("location", str "page-2");
                               ("score", obj [("raw", str "80")])])]))
  /\ List.length (stmt_getAllCmiData d2 "s1") = 4%nat.
Proof.
  intros T1 T2 d1 d2.
  destruct (later_commit_of_the_same_shape_wins sample_db "s1" sample_session
              T1 T2 160 eq_refl eq_refl eq_refl eq_refl) as [_ [Hread Hlen]].
  - intros r [].
  - reflexivity.
  - split; [exact Hread|exact Hlen].
Defined.

End ReplayFacts.
